(** * PlanManager: the study-plan engine of js/logic.js

    A shallow embedding of the [PlanManager] class (js/logic.js) and of the
    properties its specification states about it, followed by the catalogue
    loader (data.js), the translator (js/i18n.js) and the functions of the
    page (app.js) that drive the engine.

    Modelling conventions.
    - JavaScript strings are [string]s; numbers that the engine adds and
      compares (credits, minimums) are integers in [Z].  [parseInt] returns
      [option Z], [None] standing for [NaN].
    - Plain objects used as dictionaries ([limits], [report.tables]) are
      [gmap string _]; where a read may reach a member inherited from
      [Object.prototype] (the groups of [groupedPlan]) the inherited names
      are listed and treated apart.
    - A method is a function from the engine state to a [Result]: either a
      returned value with the state the call leaves behind, or [Throw] when
      the JavaScript raises a [TypeError]; nothing is said about the state
      after a throw.
    - The constructor arguments [allExams], [rules] and [t] never change and
      are section variables.
    - The curriculum is one of the two variants [FBA] and [F94], and
      [rules.degree_requirements.programs] has a rule list for each.
    - [addCustomExam] receives its credits already parsed and the rendering
      of [Date.now()] as an argument. *)

From stdpp Require Import gmap strings list fin_maps sorting pretty.
From Stdlib Require Import ZArith Zquot Lia Ascii.

Local Open Scope Z_scope.

(** ** The JavaScript string primitives the engine calls *)

Module JS.

(** [s.split(sep)] for a one-character separator. *)
Fixpoint split (sep : ascii) (s : string) : list string :=
  match s with
  | EmptyString => [EmptyString]
  | String c s' =>
      if decide (c = sep) then EmptyString :: split sep s'
      else match split sep s' with
           | h :: tl => String c h :: tl
           | [] => [String c EmptyString]
           end
  end.

Fixpoint trimStart (s : string) : string :=
  match s with
  | EmptyString => EmptyString
  | String c s' => if Ascii.is_space c then trimStart s' else s
  end.

(** [s.trim()]. *)
Definition trim (s : string) : string :=
  String.rev (trimStart (String.rev (trimStart s))).

Definition lowerChar (c : ascii) : ascii :=
  let n := nat_of_ascii c in
  if (Nat.leb 65 n && Nat.leb n 90)%bool then ascii_of_nat (n + 32)%nat else c.

(** [s.toLowerCase()]. *)
Fixpoint toLowerCase (s : string) : string :=
  match s with
  | EmptyString => EmptyString
  | String c s' => String (lowerChar c) (toLowerCase s')
  end.

(** [s.startsWith(p)]. *)
Fixpoint startsWith (p s : string) : bool :=
  match p, s with
  | EmptyString, _ => true
  | String a p', String b s' => if decide (a = b) then startsWith p' s' else false
  | String _ _, EmptyString => false
  end.

(** [s.includes(p)]: [p] occurs somewhere in [s]. *)
Fixpoint includes (p s : string) : bool :=
  startsWith p s ||
  match s with
  | EmptyString => false
  | String _ s' => includes p s'
  end.

Fixpoint drop (n : nat) (s : string) : string :=
  match n, s with
  | O, _ => s
  | S n', String _ s' => drop n' s'
  | S _, EmptyString => EmptyString
  end.

(** [s.replace(p, r)] for a string pattern: the first occurrence only. *)
Fixpoint replace (p r s : string) : string :=
  if startsWith p s then r +:+ drop (String.length p) s
  else match s with
       | EmptyString => EmptyString
       | String c s' => String c (replace p r s')
       end.

Definition digitOf (radix : Z) (c : ascii) : option Z :=
  let n := Z.of_nat (nat_of_ascii c) in
  let d := if (48 <=? n) && (n <=? 57) then Some (n - 48)
           else if (97 <=? n) && (n <=? 122) then Some (n - 87)
           else if (65 <=? n) && (n <=? 90) then Some (n - 55)
           else None in
  match d with
  | Some v => if v <? radix then Some v else None
  | None => None
  end.

(** The longest prefix of digits, read left to right; [None] if there is
    no digit at all. *)
Fixpoint digits (radix : Z) (acc : option Z) (s : string) : option Z :=
  match s with
  | EmptyString => acc
  | String c s' =>
      match digitOf radix c with
      | Some d => digits radix (Some (radix * default 0 acc + d)) s'
      | None => acc
      end
  end.

Definition unsignedInt (s : string) : option Z :=
  match s with
  | String "0" (String "x" s') | String "0" (String "X" s') => digits 16 None s'
  | _ => digits 10 None s
  end.

(** [parseInt(s)]: leading white space, an optional sign, an optional
    [0x] prefix, then digits.  [None] is [NaN]. *)
Definition parseInt (s : string) : option Z :=
  match trimStart s with
  | String "-" s' => Z.opp <$> unsignedInt s'
  | String "+" s' => unsignedInt s'
  | s' => unsignedInt s'
  end.

(** [a >= b] on numbers: false as soon as one side is [NaN]. *)
Definition ge (a b : option Z) : bool :=
  match a, b with
  | Some x, Some y => y <=? x
  | _, _ => false
  end.

(** [n % 2 === 0]. *)
Definition isEven (a : option Z) : bool :=
  match a with
  | Some x => Z.rem x 2 =? 0
  | None => false
  end.

(** Truthiness of a possibly missing string: [undefined], [null] and the
    empty string are falsy. *)
Definition truthy (o : option string) : option string :=
  match o with
  | Some EmptyString => None
  | _ => o
  end.

End JS.

(** ** Data model *)

(** The catalogue rows the engine reads. *)
Record Exam := {
  exam_id : string;
  exam_name : string;
  exam_cfu : Z;
  rawTable : option string;
  availability : option string;
}.

(** A plan entry, as pushed by [addExam], [addCustomExam] and
    [initDefaults]. *)
Record PlanItem := {
  item_id : string;
  examId : option string;
  name : string;
  cfu : Z;
  table : string;
  isCustom : bool;
}.

Definition setTable (t : string) (p : PlanItem) : PlanItem :=
  {| item_id := item_id p; examId := examId p; name := name p;
     cfu := cfu p; table := t; isCustom := isCustom p |}.

Inductive Curriculum := FBA | F94.

Global Instance Curriculum_eq_dec : EqDecision Curriculum.
Proof. solve_decision. Defined.

Record MandatoryExam := { mand_name : string; credits : Z }.

Record CommonRules := {
  mandatory_exams : list MandatoryExam;
  free_exams_credits : Z;
  total_credits : Z;
}.

(** One entry of [curriculum_rules].  A rule whose [source] is ["BC"] carries
    [min_sumBC_credits]; any other carries [min_credits]. *)
Record Rule := {
  source : string;
  min_credits : Z;
  min_sumBC_credits : Z;
}.

(** [rules.degree_requirements]. *)
Record Rules := {
  common_rules : CommonRules;
  programs : Curriculum → list Rule;
}.

(** ** getAllowedTables *)

Definition priority (t : string) : Z :=
  if decide (t = "A") then 1
  else if decide (t = "B") then 2
  else if decide (t = "C") then 3
  else 0.

Definition byPriority (a b : string) : Prop := priority a ≤ priority b.

Global Instance byPriority_dec : RelDecision byPriority.
Proof. intros a b. unfold byPriority. apply _. Defined.

Definition tableSet (c : Curriculum) : list string :=
  match c with
  | FBA => ["1"; "2"]
  | F94 => ["A"; "B"; "C"]
  end.

(** [raw.split("|").map((s) => s.trim())] *)
Definition parts (exam : Exam) : list string :=
  JS.trim <$> JS.split "|" (default "" (JS.truthy (rawTable exam))).

Definition getAllowedTables (c : Curriculum) (exam : Exam) : list string :=
  match c with
  | FBA => filter (λ p, p ∈ ["1"; "2"]) (parts exam)
  | F94 =>
      let allowed := filter (λ p, p ∈ ["A"; "B"; "C"]) (parts exam) in
      merge_sort byPriority allowed
  end.

(** A catalogue row with the given id, credits and table tags, and no
    availability descriptor. *)
Definition mkExam (i : string) (n : Z) (raw : string) : Exam :=
  {| exam_id := i; exam_name := i; exam_cfu := n;
     rawTable := Some raw; availability := None |}.

(** ** Engine state and the method monad *)

(** The mutable fields of a [PlanManager] instance. *)
Record PlanManager := {
  year : string;
  curriculum : Curriculum;
  plan : list PlanItem;
}.

Definition withYear (y : string) (pm : PlanManager) : PlanManager :=
  {| year := y; curriculum := curriculum pm; plan := plan pm |}.
Definition withCurriculum (c : Curriculum) (pm : PlanManager) : PlanManager :=
  {| year := year pm; curriculum := c; plan := plan pm |}.
Definition withPlan (l : list PlanItem) (pm : PlanManager) : PlanManager :=
  {| year := year pm; curriculum := curriculum pm; plan := l |}.

(** [new PlanManager(exams, rules, t)] *)
Definition constructor : PlanManager :=
  {| year := "2025/2026"; curriculum := FBA; plan := [] |}.

Inductive Result (A : Type) : Type :=
| Ret (a : A) (pm : PlanManager)
| Throw.
Global Arguments Ret {A} a pm.
Global Arguments Throw {A}.

Definition M (A : Type) : Type := PlanManager → Result A.

Definition ret {A} (a : A) : M A := λ pm, Ret a pm.
Definition bind {A B} (m : M A) (f : A → M B) : M B :=
  λ pm, match m pm with
        | Ret a pm' => f a pm'
        | Throw => Throw
        end.
Definition gets {A} (f : PlanManager → A) : M A := λ pm, Ret (f pm) pm.
Definition modify (f : PlanManager → PlanManager) : M unit := λ pm, Ret () (f pm).
Definition throw {A} : M A := λ _, Throw.
(** A partial read: [None] is the [TypeError] of dereferencing [undefined]. *)
Definition orThrow {A} (o : option A) : M A :=
  match o with
  | Some a => ret a
  | None => throw
  end.

Notation "x ←' m ;; k" := (bind m (λ x, k))
  (at level 100, m at next level, right associativity,
   format "x  ←'  m  ;;  '/' k").
Notation "m ;;' k" := (bind m (λ _, k))
  (at level 100, right associativity).

(** Values interpolated into a translated message. *)
Inductive Param :=
| PStr (s : string)
| PNum (n : Z).

Record TableStatus := { current : Z; min : Z }.
Record SpecialRule := { label : string; sr_current : Z; sr_min : Z }.

Record Report := {
  totalCredits : Z;
  tables : gmap string TableStatus;
  specialRules : list SpecialRule;
  isValid : bool;
  messages : list string;
}.

(** [reduce((s, p) => s + p.cfu, 0)] *)
Definition sumCfu (l : list PlanItem) : Z := foldl (λ s p, s + cfu p) 0 l.

(** [newPlan.filter((p) => p.table === t).reduce(...)] *)
Definition creditsIn (t : string) (l : list PlanItem) : Z :=
  sumCfu (filter (λ p, table p = t) l).

(** [newPlan.filter((p) => p.table === "B" || p.table === "C").reduce(...)] *)
Definition creditsInBC (l : list PlanItem) : Z :=
  sumCfu (filter (λ p, table p = "B" ∨ table p = "C") l).

(** The first loop of [rebalanceBuckets]: the [limits] object and [minSumBC]. *)
Definition readLimits (progRules : list Rule) : gmap string Z * Z :=
  foldl (λ (acc : gmap string Z * Z) r,
           if decide (source r = "BC") then (acc.1, min_sumBC_credits r)
           else (<[source r := min_credits r]> acc.1, acc.2))
        (∅, 0) progRules.

(** [name.toLowerCase().replace(/\s+/g, "-")] *)
Fixpoint hyphenate (inSpace : bool) (s : string) : string :=
  match s with
  | EmptyString => EmptyString
  | String c s' =>
      if Ascii.is_space c
      then (if inSpace then hyphenate true s' else String "-" (hyphenate true s'))
      else String c (hyphenate false s')
  end.

Section PlanManager.

Variable allExams : list Exam.
Variable rules : Rules.
Variable t : string → list (string * Param) → string.

(** [this.allExams.find((e) => e.id === examId)] *)
Definition findExam (eid : option string) : option Exam :=
  snd <$> list_find (λ e, Some (exam_id e) = eid) allExams.

(** [this.year.split("/")[0]] parsed with [parseInt]. *)
Definition startOf (y : string) : option Z :=
  JS.parseInt (default "" (head (JS.split "/" y))).

Definition isExamAvailable (pm : PlanManager) (exam : Exam) : bool :=
  match JS.truthy (availability exam) with
  | None => true
  | Some avail =>
      if decide (JS.toLowerCase avail = "enabled") then true
      else if decide (JS.toLowerCase avail = "disabled") then false
      else if JS.startsWith "From " avail then
        let fromYear := JS.trim (JS.replace "From " "" avail) in
        let currentStart := startOf (year pm) in
        let fromStart := startOf fromYear in
        JS.ge currentStart fromStart
      else if JS.includes "Biennial" avail then
        let currentStart := startOf (year pm) in
        let isEvenYear := JS.isEven currentStart in
        if JS.includes "Even" avail then isEvenYear
        else if JS.includes "Odd" avail then negb isEvenYear
        else true
      else true
  end.

(** [None] is the [null] result. *)
Definition getNextAvailabilityInfo (pm : PlanManager) (exam : Exam)
  : option string :=
  match JS.truthy (availability exam) with
  | None => None
  | Some avail =>
      if decide (JS.toLowerCase avail = "enabled") then None
      else if JS.startsWith "From " avail then
        Some (t "available_from" [("date", PStr (JS.replace "From " "" avail))])
      else if JS.includes "Biennial" avail then
        let currentStart := startOf (year pm) in
        let isEvenYear := JS.isEven currentStart in
        if JS.includes "Even" avail && negb isEvenYear
        then Some (t "next_activation_even" [])
        else if JS.includes "Odd" avail && isEvenYear
        then Some (t "next_activation_odd" [])
        else Some avail
      else Some avail
  end.

(** *** rebalanceBuckets *)

(** The [for (const t of allowed)] loop: the table the entry is assigned
    to, if any. *)
Fixpoint tryTables (limits : gmap string Z) (minSumBC : Z)
    (newPlan : list PlanItem) (allowed : list string) : option string :=
  match allowed with
  | [] => None
  | tb :: rest =>
      let currentInT := creditsIn tb newPlan in
      let currentBCSum := creditsInBC newPlan in
      let underIndividualMin := currentInT <? default 0 (limits !! tb) in
      let isBCException :=
        bool_decide (tb = "B" ∨ tb = "C") && (currentBCSum <? minSumBC) in
      if underIndividualMin || isBCException then Some tb
      else tryTables limits minSumBC newPlan rest
  end.

(** The table one active entry receives, given what [newPlan] holds. *)
Definition assign (limits : gmap string Z) (minSumBC freeLimit : Z)
    (newPlan : list PlanItem) (allowed : list string) : string :=
  match tryTables limits minSumBC newPlan allowed with
  | Some tb => tb
  | None =>
      let currentInFac := creditsIn "Facoltativi" newPlan in
      if currentInFac <? freeLimit then "Facoltativi" else "Fuori Piano"
  end.

(** [item.isCustom ? [] : this.getAllowedTables(exam)]; reading
    [exam.rawTable] of a missing exam throws. *)
Definition allowedOf (c : Curriculum) (item : PlanItem) : option (list string) :=
  if isCustom item then Some []
  else getAllowedTables c <$> findExam (examId item).

(** The body of [activeExams.forEach], iterated. *)
Fixpoint forEachActive (c : Curriculum) (limits : gmap string Z)
    (minSumBC freeLimit : Z) (newPlan : list PlanItem)
    (activeExams : list PlanItem) : option (list PlanItem) :=
  match activeExams with
  | [] => Some newPlan
  | item :: rest =>
      match allowedOf c item with
      | None => None
      | Some allowed =>
          let tb := assign limits minSumBC freeLimit newPlan allowed in
          forEachActive c limits minSumBC freeLimit
            (newPlan ++ [setTable tb item]) rest
      end
  end.

Definition rebalanceBuckets : M unit := λ pm,
  let common := common_rules rules in
  let progRules := programs rules (curriculum pm) in
  let '(limits, minSumBC) := readLimits progRules in
  let freeLimit := free_exams_credits common in
  let mandatoryItems := filter (λ p, table p = "Obbligatori") (plan pm) in
  let activeExams := filter (λ p, table p ≠ "Obbligatori") (plan pm) in
  match forEachActive (curriculum pm) limits minSumBC freeLimit
          mandatoryItems activeExams with
  | Some newPlan => Ret () (withPlan newPlan pm)
  | None => Throw
  end.

(** *** The other mutators *)

Definition setYear (y : string) : M unit := modify (withYear y).

(** One iteration of the [for] loop of [migratePlan]; [None] is
    [continue] without a push. *)
Definition migrateItem (c : Curriculum) (item : PlanItem) : option PlanItem :=
  if decide (table item = "Obbligatori") then Some item
  else if isCustom item then Some item
  else match findExam (examId item) with
       | None => None
       | Some exam =>
           match getAllowedTables c exam with
           | tb :: _ => Some (setTable tb item)
           | [] => Some (setTable "Facoltativi" item)
           end
       end.

Definition migratePlan : M unit :=
  (pm ←' gets (λ pm, pm) ;;
   modify (withPlan (omap (migrateItem (curriculum pm)) (plan pm))) ;;'
   rebalanceBuckets).

Definition setCurriculum (c : Curriculum) : M unit :=
  (modify (withCurriculum c) ;;' migratePlan).

Definition addExam (exam : Exam) (targetTable : option string) : M bool := λ pm,
  if bool_decide (Exists (λ p, examId p = Some (exam_id exam)) (plan pm))
  then Ret false pm
  else
    let tb :=
      match JS.truthy targetTable with
      | Some tb => tb
      | None =>
          match getAllowedTables (curriculum pm) exam with
          | a :: _ => a
          | [] => "Facoltativi"
          end
      end in
    let item := {| item_id := exam_id exam; examId := Some (exam_id exam);
                   name := exam_name exam; cfu := exam_cfu exam;
                   table := tb; isCustom := false |} in
    (modify (withPlan (plan pm ++ [item])) ;;' rebalanceBuckets ;;' ret true) pm.

(** [now] is the rendering of [Date.now()]; [n] is [parseInt(cfu)]. *)
Definition addCustomExam (nm : string) (n : Z) (tb : string) (now : string)
  : M unit := λ pm,
  let item := {| item_id := "custom-" +:+ now; examId := None; name := nm;
                 cfu := n; table := tb; isCustom := true |} in
  (modify (withPlan (plan pm ++ [item])) ;;' rebalanceBuckets) pm.

Definition removeExam (planItemId : string) : M unit := λ pm,
  let item := snd <$> list_find (λ p, item_id p = planItemId) (plan pm) in
  if bool_decide (table <$> item = Some "Obbligatori")
  then Ret () pm
  else (modify (withPlan (filter (λ p, item_id p ≠ planItemId) (plan pm))) ;;'
        rebalanceBuckets) pm.

Definition moveExam (planItemId newTable : string) : M bool := λ pm,
  match list_find (λ p, item_id p = planItemId) (plan pm) with
  | Some (i, item) =>
      let write :=
        (modify (withPlan (<[i := setTable newTable item]> (plan pm))) ;;'
         rebalanceBuckets ;;' ret true) in
      if negb (isCustom item)
         && bool_decide (newTable ≠ "Facoltativi")
         && bool_decide (newTable ≠ "Obbligatori")
         && bool_decide (newTable ≠ "Fuori Piano")
      then
        match findExam (examId item) with
        | None => Throw
        | Some exam =>
            let allowed := getAllowedTables (curriculum pm) exam in
            if bool_decide (newTable ∈ allowed) then write pm
            else Ret false pm
        end
      else write pm
  | None => (rebalanceBuckets ;;' ret true) pm
  end.

Definition initDefaults : M unit := λ pm,
  let mandatory := mandatory_exams (common_rules rules) in
  let pushed :=
    (λ ex, {| item_id := hyphenate false (JS.toLowerCase (mand_name ex));
              examId := None; name := mand_name ex; cfu := credits ex;
              table := "Obbligatori"; isCustom := true |}) <$> mandatory in
  (modify (withPlan (plan pm ++ pushed)) ;;' rebalanceBuckets) pm.

Definition reset : M unit :=
  (modify (withPlan []) ;;' initDefaults).

(** *** validate *)

Definition schema (c : Curriculum) : list string :=
  match c with
  | FBA => ["Obbligatori"; "1"; "2"; "Facoltativi"; "Fuori Piano"]
  | F94 => ["Obbligatori"; "A"; "B"; "C"; "Facoltativi"; "Fuori Piano"]
  end.

(** [schema.forEach((t) => (report.tables[t] = { current: 0, min: 0 }))] *)
Definition emptyTables (c : Curriculum) : gmap string TableStatus :=
  foldl (λ tbs tb, <[tb := {| current := 0; min := 0 |}]> tbs) ∅ (schema c).

(** One iteration of [this.plan.forEach]: [report.tables[item.table]] is
    dereferenced, which throws when the table is not in the schema. *)
Definition countItem (acc : Z * gmap string TableStatus) (item : PlanItem)
  : option (Z * gmap string TableStatus) :=
  let total :=
    if decide (table item ≠ "Fuori Piano") then acc.1 + cfu item else acc.1 in
  st ← acc.2 !! table item;
  Some (total,
        <[table item := {| current := current st + cfu item; min := min st |}]> acc.2).

Fixpoint countPlan (acc : Z * gmap string TableStatus) (l : list PlanItem)
  : option (Z * gmap string TableStatus) :=
  match l with
  | [] => Some acc
  | item :: rest => acc' ← countItem acc item; countPlan acc' rest
  end.

(** [report.tables[tb].min = v] *)
Definition setMin (tb : string) (v : Z) (tbs : gmap string TableStatus)
  : option (gmap string TableStatus) :=
  st ← tbs !! tb;
  Some (<[tb := {| current := current st; min := v |}]> tbs).

Definition fail (msg : string) (r : Report) : Report :=
  {| totalCredits := totalCredits r; tables := tables r;
     specialRules := specialRules r; isValid := false;
     messages := messages r ++ [msg] |}.

(** One iteration of [progRules.forEach]. *)
Definition checkRule (r : Report) (rule : Rule) : option Report :=
  if decide (source rule = "BC") then
    b ← tables r !! "B";
    c ← tables r !! "C";
    let currentBC := current b + current c in
    let r1 :=
      {| totalCredits := totalCredits r; tables := tables r;
         specialRules := specialRules r ++
           [{| label := t "sum_bc_label" []; sr_current := currentBC;
               sr_min := min_sumBC_credits rule |}];
         isValid := isValid r; messages := messages r |} in
    if currentBC <? min_sumBC_credits rule
    then Some (fail (t "sum_bc_missing"
                       [("missing", PNum (min_sumBC_credits rule - currentBC))]) r1)
    else Some r1
  else
    let tb := source rule in
    match tables r !! tb with
    | Some st =>
        let r1 :=
          {| totalCredits := totalCredits r;
             tables := <[tb := {| current := current st; min := min_credits rule |}]>
                         (tables r);
             specialRules := specialRules r;
             isValid := isValid r; messages := messages r |} in
        if current st <? min_credits rule
        then Some (fail (t "table_missing_cfu"
                           [("table", PStr tb);
                            ("missing", PNum (min_credits rule - current st))]) r1)
        else Some r1
    | None => Some r
    end.

Fixpoint checkRules (r : Report) (progRules : list Rule) : option Report :=
  match progRules with
  | [] => Some r
  | rule :: rest => r' ← checkRule r rule; checkRules r' rest
  end.

(** [common.mandatory_exams.reduce((s, e) => s + e.credits, 0)] *)
Definition mandatoryCredits (common : CommonRules) : Z :=
  foldl (λ s e, s + credits e) 0 (mandatory_exams common).

Definition buildReport (pm : PlanManager) : option Report :=
  let common := common_rules rules in
  counted ← countPlan (0, emptyTables (curriculum pm)) (plan pm);
  tbs1 ← setMin "Obbligatori" (mandatoryCredits common) counted.2;
  tbs2 ← setMin "Facoltativi" (free_exams_credits common) tbs1;
  let report :=
    {| totalCredits := counted.1; tables := tbs2; specialRules := [];
       isValid := true; messages := [] |} in
  let progRules := programs rules (curriculum pm) in
  report ← checkRules report progRules;
  obb ← tables report !! "Obbligatori";
  let report :=
    if current obb <? min obb
    then fail (t "mandatory_incomplete" []) report else report in
  let report :=
    if totalCredits report <? total_credits common
    then fail (t "total_cfu_status"
                 [("current", PNum (totalCredits report));
                  ("min", PNum (total_credits common))]) report
    else report in
  Some report.

Definition validate : M Report :=
  (pm ←' gets (λ pm, pm) ;; orThrow (buildReport pm)).

End PlanManager.

(** ** The greedy pass as the specification words it *)

(** The minimum configured for a table: that of the last per-table rule
    naming it, 0 when there is none. *)
Definition configuredMin (progRules : list Rule) (tb : string) : Z :=
  default 0 (min_credits <$>
             last (filter (λ r, source r ≠ "BC" ∧ source r = tb) progRules)).

(** The aggregate B+C minimum, 0 when there is no aggregate rule. *)
Definition aggregateMin (progRules : list Rule) : Z :=
  default 0 (min_sumBC_credits <$>
             last (filter (λ r, source r = "BC") progRules)).

(** Table [tb] accepts an entry when the credits placed in it so far are
    below its minimum, or when it is B or C and the running B+C sum is below
    the aggregate minimum. *)
Definition accepts (progRules : list Rule) (placed : list PlanItem)
    (tb : string) : bool :=
  bool_decide (creditsIn tb placed < configuredMin progRules tb)
  || bool_decide ((tb = "B" ∨ tb = "C")
                  ∧ creditsIn "B" placed + creditsIn "C" placed
                    < aggregateMin progRules).

(** First accepting allowed table, else Optional while it is below the free
    target, else OutOfPlan. *)
Definition greedyTable (progRules : list Rule) (freeTarget : Z)
    (placed : list PlanItem) (allowed : list string) : string :=
  match List.find (accepts progRules placed) allowed with
  | Some tb => tb
  | None =>
      if bool_decide (creditsIn "Facoltativi" placed < freeTarget)
      then "Facoltativi" else "Fuori Piano"
  end.

(** One left-to-right pass; [placed] holds the entries already placed by
    this pass. *)
Fixpoint greedyPass (progRules : list Rule) (freeTarget : Z)
    (placed : list PlanItem) (todo : list (PlanItem * list string))
  : list PlanItem :=
  match todo with
  | [] => placed
  | (item, allowed) :: rest =>
      greedyPass progRules freeTarget
        (placed ++ [setTable (greedyTable progRules freeTarget placed allowed) item])
        rest
  end.

(** ** The pass entry by entry, in the words of the specification *)

(** "The sum of credits already placed (by entries processed so far in this
    pass) in that table": the credits of the entries of [earlier] whose
    table is [tb]. *)
Fixpoint placedIn (tb : string) (earlier : list PlanItem) : Z :=
  match earlier with
  | [] => 0
  | p :: rest => (if decide (table p = tb) then cfu p else 0) + placedIn tb rest
  end.

(** A table takes the entry when what is placed in it is below its minimum,
    or when it is B or C and what is placed in B and C together is below
    the aggregate minimum. *)
Definition takes (progRules : list Rule) (earlier : list PlanItem)
    (tb : string) : Prop :=
  placedIn tb earlier < configuredMin progRules tb
  ∨ ((tb = "B" ∨ tb = "C")
     ∧ placedIn "B" earlier + placedIn "C" earlier < aggregateMin progRules).

Global Instance takes_dec (progRules : list Rule) (earlier : list PlanItem)
    (tb : string) : Decision (takes progRules earlier tb).
Proof. unfold takes. apply _. Defined.

(** The first allowed table that takes the entry. *)
Fixpoint firstTaking (progRules : list Rule) (earlier : list PlanItem)
    (allowed : list string) : option string :=
  match allowed with
  | [] => None
  | tb :: rest =>
      if decide (takes progRules earlier tb) then Some tb
      else firstTaking progRules earlier rest
  end.

(** The table of an entry: the first allowed table that takes it; failing
    that Facoltativi while what is placed there is below the free-credit
    target, and Fuori Piano otherwise. *)
Definition chosenTable (progRules : list Rule) (freeTarget : Z)
    (earlier : list PlanItem) (allowed : list string) : string :=
  match firstTaking progRules earlier allowed with
  | Some tb => tb
  | None =>
      if decide (placedIn "Facoltativi" earlier < freeTarget)
      then "Facoltativi" else "Fuori Piano"
  end.

(** [q] is the entry [p], its table apart. *)
Definition sameEntry (p q : PlanItem) : Prop :=
  item_id q = item_id p ∧ examId q = examId p ∧ name q = name p
  ∧ cfu q = cfu p ∧ isCustom q = isCustom p.

(** The allowed tables of an entry: none for a custom entry, those of its
    exam under the curriculum for a catalogue entry. *)
Definition allowedFor (allExams : list Exam) (c : Curriculum) (p : PlanItem)
    (allowed : list string) : Prop :=
  (isCustom p = true ∧ allowed = [])
  ∨ (isCustom p = false
     ∧ ∃ exam, findExam allExams (examId p) = Some exam
               ∧ allowed = getAllowedTables c exam).

(** ** Entries up to their table, and plans compared up to tables *)

(** An entry with its table assignment blanked: what identifies the entry
    whatever bucket it sits in. *)
Definition erase (p : PlanItem) : PlanItem := setTable "" p.

Definition mandatoryOf (l : list PlanItem) : list PlanItem :=
  filter (λ p, table p = "Obbligatori") l.
Definition activeOf (l : list PlanItem) : list PlanItem :=
  filter (λ p, table p ≠ "Obbligatori") l.

(** Entry by entry, the two plans are equal, or both entries are active and
    equal up to their table. *)
Definition agreeUpToActiveTables (l1 l2 : list PlanItem) : Prop :=
  Forall2 (λ p q, p = q
                  ∨ (erase p = erase q
                     ∧ table p ≠ "Obbligatori" ∧ table q ≠ "Obbligatori"))
          l1 l2.

(** Every active catalogue entry refers to an exam of the catalogue. *)
Definition resolves (allExams : list Exam) (l : list PlanItem) : Prop :=
  Forall (λ p, table p ≠ "Obbligatori" → isCustom p = false →
               is_Some (findExam allExams (examId p))) l.

(** The number of entries that refer to an exam id. *)
Definition countRefs (eid : string) (l : list PlanItem) : nat :=
  length (filter (λ p, examId p = Some eid) l).

(** No exam is referred to by two entries. *)
Definition uniqueRefs (l : list PlanItem) : Prop :=
  ∀ eid, (countRefs eid l ≤ 1)%nat.

(** The table [addExam] writes on the new entry before the pass runs. *)
Definition initialTable (c : Curriculum) (exam : Exam)
    (targetTable : option string) : string :=
  match JS.truthy targetTable with
  | Some tb => tb
  | None =>
      match getAllowedTables c exam with
      | a :: _ => a
      | [] => "Facoltativi"
      end
  end.

(** Every entry sits in a table of the schema of the active curriculum, and
    the Mandatory entries come before all others. *)
Definition balanced (pm : PlanManager) : Prop :=
  Forall (λ p, table p ∈ schema (curriculum pm)) (plan pm)
  ∧ plan pm = mandatoryOf (plan pm) ++ activeOf (plan pm).

(** ** The checks of validate as the specification words them *)

(** The credits that count towards the total: every entry that is not in
    Fuori Piano. *)
Definition countedCredits (l : list PlanItem) : Z :=
  sumCfu (filter (λ p, table p ≠ "Fuori Piano") l).

(** A curriculum rule fails on a plan: the aggregate rule when B+C is below
    its minimum, a per-table rule when its table belongs to the schema and
    holds less than its minimum. *)
Definition ruleFails (c : Curriculum) (l : list PlanItem) (r : Rule) : bool :=
  if decide (source r = "BC")
  then creditsIn "B" l + creditsIn "C" l <? min_sumBC_credits r
  else bool_decide (source r ∈ schema c)
       && (creditsIn (source r) l <? min_credits r).

(** The per-table view a report gives of a plan: for each table of the
    schema its credits and some minimum, nothing for any other key. *)
Definition viewOf (c : Curriculum) (l : list PlanItem) (m : string → Z)
    (tbs : gmap string TableStatus) : Prop :=
  ∀ k, tbs !! k
       = if decide (k ∈ schema c)
         then Some {| current := creditsIn k l; min := m k |}
         else None.

(** A method that only reads the state. *)
Definition readOnly {A} (m : M A) : Prop :=
  ∀ pm a pm', m pm = Ret a pm' → pm' = pm.

(** ** Calls and reachable states *)

(** The calls a host can make on the engine. *)
Inductive Call :=
| CallSetYear (y : string)
| CallSetCurriculum (c : Curriculum)
| CallMigratePlan
| CallAddExam (exam : Exam) (targetTable : option string)
| CallAddCustomExam (nm : string) (n : Z) (tb : string) (now : string)
| CallRemoveExam (planItemId : string)
| CallMoveExam (planItemId newTable : string)
| CallRebalanceBuckets
| CallValidate
| CallReset
| CallInitDefaults.

Section Driver.

Variable allExams : list Exam.
Variable rules : Rules.
Variable t : string → list (string * Param) → string.

(** A call, its result dropped. *)
Definition run (call : Call) : M unit :=
  match call with
  | CallSetYear y => setYear y
  | CallSetCurriculum c => setCurriculum allExams rules c
  | CallMigratePlan => migratePlan allExams rules
  | CallAddExam exam target => (addExam allExams rules exam target ;;' ret ())
  | CallAddCustomExam nm n tb now => addCustomExam allExams rules nm n tb now
  | CallRemoveExam i => removeExam allExams rules i
  | CallMoveExam i tb => (moveExam allExams rules i tb ;;' ret ())
  | CallRebalanceBuckets => rebalanceBuckets allExams rules
  | CallValidate => (validate rules t ;;' ret ())
  | CallReset => reset allExams rules
  | CallInitDefaults => initDefaults allExams rules
  end.

(** The states of an engine that was constructed and then only driven
    through calls that returned. *)
Inductive reachable : PlanManager → Prop :=
| reachable_new : reachable constructor
| reachable_call (pm pm' : PlanManager) (call : Call) :
    reachable pm → run call pm = Ret () pm' → reachable pm'.

Definition ruleMessage (l : list PlanItem) (r : Rule) : string :=
  if decide (source r = "BC")
  then t "sum_bc_missing"
         [("missing",
           PNum (min_sumBC_credits r - (creditsIn "B" l + creditsIn "C" l)))]
  else t "table_missing_cfu"
         [("table", PStr (source r));
          ("missing", PNum (min_credits r - creditsIn (source r) l))].

Definition totalFails (l : list PlanItem) : bool :=
  countedCredits l <? total_credits (common_rules rules).

Definition totalMessage (l : list PlanItem) : string :=
  t "total_cfu_status"
    [("current", PNum (countedCredits l));
     ("min", PNum (total_credits (common_rules rules)))].

End Driver.

(** ** A concrete catalogue and rule document used in the examples *)

Module Sample.

Definition rules : Rules :=
  {| common_rules :=
       {| mandatory_exams := [ {| mand_name := "Final Thesis"; credits := 12 |} ];
          free_exams_credits := 12;
          total_credits := 120 |};
     programs := λ c,
       match c with
       | FBA => [ {| source := "1"; min_credits := 12; min_sumBC_credits := 0 |};
                  {| source := "2"; min_credits := 54; min_sumBC_credits := 0 |} ]
       | F94 => [ {| source := "A"; min_credits := 18; min_sumBC_credits := 0 |};
                  {| source := "B"; min_credits := 30; min_sumBC_credits := 0 |};
                  {| source := "C"; min_credits := 12; min_sumBC_credits := 0 |};
                  {| source := "BC"; min_credits := 0; min_sumBC_credits := 48 |} ]
       end |}.

Definition exams : list Exam :=
  [ mkExam "e1" 6 "1|A"; mkExam "e2" 6 "1|B"; mkExam "e3" 6 "1|B|C";
    mkExam "e4" 6 "2|C"; mkExam "b30" 30 "B"; mkExam "c12" 12 "C";
    mkExam "bc6" 6 "C|B" ].

Definition entry (i : string) (n : Z) (tb : string) : PlanItem :=
  {| item_id := i; examId := Some i; name := i; cfu := n; table := tb;
     isCustom := false |}.

Definition thesis : PlanItem :=
  {| item_id := "final-thesis"; examId := None; name := "Final Thesis";
     cfu := 12; table := "Obbligatori"; isCustom := true |}.

(** The state right after [initDefaults] on a fresh engine. *)
Definition fresh : PlanManager :=
  {| year := "2025/2026"; curriculum := FBA; plan := [thesis] |}.

(** An F94 plan in which B and C have reached their own minimums (30 and
    12) while B+C is still below 48. *)
Definition f94 : PlanManager :=
  {| year := "2024/2025"; curriculum := F94;
     plan := [thesis; entry "b30" 30 "B"; entry "c12" 12 "C"] |}.

(** The translation function when no dictionary is loaded: the key. *)
Definition t (k : string) (_ : list (string * Param)) : string := k.

(** A rule document that also configures the aggregate B+C rule for FBA,
    whose schema has neither table. *)
Definition aggregateUnderFBA : Rules :=
  {| common_rules := common_rules rules;
     programs := λ _, programs rules F94 |}.

End Sample.

Definition examWith (avail : option string) : Exam :=
  {| exam_id := "x"; exam_name := "x"; exam_cfu := 6;
     rawTable := None; availability := avail |}.

Definition inYear (y : string) : PlanManager := withYear y constructor.

(** A plan that the pass would change: the entry sits in Facoltativi while
    Table 1 is below its minimum. *)
Definition unbalanced : PlanManager :=
  withPlan [Sample.entry "e1" 6 "Facoltativi"; Sample.thesis] Sample.fresh.

(** The plan after [initDefaults] and [addExam] on e1, e2 and e3 under
    FBA: e1 and e2 fill Table 1, so that e3, which is allowed there only,
    is parked in Facoltativi. *)
Definition parkedPlan : PlanManager :=
  withPlan [Sample.thesis; Sample.entry "e1" 6 "1"; Sample.entry "e2" 6 "1";
            Sample.entry "e3" 6 "Facoltativi"] Sample.fresh.

(** An F94 plan in disorder: the Mandatory entry is not first and no
    active entry sits where the pass puts it. *)
Definition scrambled : PlanManager :=
  withPlan [Sample.entry "e1" 6 "Fuori Piano"; Sample.thesis;
            Sample.entry "b30" 30 "C"; Sample.entry "c12" 12 "Facoltativi";
            Sample.entry "bc6" 6 "Fuori Piano"; Sample.entry "e3" 6 "A";
            Sample.entry "e2" 6 "A"; Sample.entry "e4" 6 "B"] Sample.f94.

(** The same entries as the pass leaves them: e1 in A; b30 and c12 fill B
    and C; bc6 goes to B on the aggregate rule; e3 and e2 fill Facoltativi;
    e4 is left to Fuori Piano. *)
Definition rebalanced : PlanManager :=
  withPlan [Sample.thesis; Sample.entry "e1" 6 "A";
            Sample.entry "b30" 30 "B"; Sample.entry "c12" 12 "C";
            Sample.entry "bc6" 6 "B"; Sample.entry "e3" 6 "Facoltativi";
            Sample.entry "e2" 6 "Facoltativi";
            Sample.entry "e4" 6 "Fuori Piano"] Sample.f94.

(** ** Placement of an entry *)

(** Where the pass may leave an entry: one of the three fixed tables, or,
    for a catalogue entry, one of the tables its exam allows under the
    curriculum. *)
Definition wellPlaced (allExams : list Exam) (c : Curriculum) (q : PlanItem)
  : Prop :=
  table q = "Obbligatori" ∨ table q = "Facoltativi" ∨ table q = "Fuori Piano"
  ∨ (isCustom q = false
     ∧ ∃ exam, findExam allExams (examId q) = Some exam
               ∧ table q ∈ getAllowedTables c exam).

(** The entry sits in Facoltativi or Fuori Piano. *)
Definition parked (q : PlanItem) : Prop :=
  table q = "Facoltativi" ∨ table q = "Fuori Piano".

(** What the loop guarantees for each entry it writes, in terms of the
    plan it returns. *)
Definition placedWell (allExams : list Exam) (c : Curriculum) (limits : gmap string Z)
    (minSumBC freeLimit : Z) (result : list PlanItem) (q : PlanItem) : Prop :=
  ∃ al, allowedOf allExams c q = Some al
        ∧ (table q ∈ al
           ∨ (parked q
              ∧ (∀ tb, tb ∈ al →
                   default 0 (limits !! tb) ≤ creditsIn tb result
                   ∧ (tb = "B" ∨ tb = "C" → minSumBC ≤ creditsInBC result))
              ∧ (table q = "Fuori Piano" →
                 freeLimit ≤ creditsIn "Facoltativi" result))).

(** An entry that [migratePlan] keeps: it is Mandatory, custom, or its exam
    is in the catalogue. *)
Definition survivesMigration (allExams : list Exam) (p : PlanItem) : Prop :=
  table p = "Obbligatori" ∨ isCustom p = true
  ∨ is_Some (findExam allExams (examId p)).

Global Instance survivesMigration_dec (allExams : list Exam) (p : PlanItem) :
  Decision (survivesMigration allExams p).
Proof. unfold survivesMigration. apply _. Defined.

(** The entries [initDefaults] pushes: one custom Mandatory entry per
    configured mandatory exam. *)
Definition mandatoryDefaults (rules : Rules) : list PlanItem :=
  (λ ex, {| item_id := hyphenate false (JS.toLowerCase (mand_name ex));
            examId := None; name := mand_name ex; cfu := credits ex;
            table := "Obbligatori"; isCustom := true |})
  <$> mandatory_exams (common_rules rules).

(** The entry [addExam] pushes for an exam, with a given table. *)
Definition examEntry (exam : Exam) (tb : string) : PlanItem :=
  {| item_id := exam_id exam; examId := Some (exam_id exam);
     name := exam_name exam; cfu := exam_cfu exam; table := tb;
     isCustom := false |}.

(** The entry [addCustomExam] pushes, with a given table. *)
Definition customEntry (nm : string) (n : Z) (now tb : string) : PlanItem :=
  {| item_id := "custom-" +:+ now; examId := None; name := nm; cfu := n;
     table := tb; isCustom := true |}.

(** The plan of [parkedPlan] after two calls of [addCustomExam]: the first
    custom exam fills Facoltativi, the second is left to Fuori Piano. *)
Definition overfull : PlanManager :=
  withPlan (plan parkedPlan
            ++ [customEntry "Seminar" 6 "1700000000000" "Facoltativi";
                customEntry "Workshop" 3 "1700000000001" "Fuori Piano"])
    Sample.fresh.

(** The credits a report shows for a table, 0 for a table it does not
    list. *)
Definition shown (r : Report) (tb : string) : Z :=
  default 0 (current <$> tables r !! tb).

(** The sum of a quantity over a list of tables. *)
Definition sumTables (tbs : list string) (f : string → Z) : Z :=
  foldr (λ tb acc, f tb + acc) 0 tbs.

(** ** String primitives of the loader, the translator and the page *)

Module Text.

Definition LF : ascii := "010"%char.
Definition CR : ascii := "013"%char.
Definition quote : ascii := "034"%char.
Definition dollar : ascii := "$"%char.
Definition open : ascii := "{"%char.
Definition close : ascii := "}"%char.

(** The character [c] is put in front of the first piece. *)
Definition pushChar (c : ascii) (pieces : list string) : list string :=
  match pieces with
  | h :: tl => String c h :: tl
  | [] => [String c EmptyString]
  end.

(** [s.split(/\r?\n/)]: a line ends at a line feed, which takes a carriage
    return right before it along. *)
Fixpoint splitLines (s : string) : list string :=
  match s with
  | EmptyString => [EmptyString]
  | String c s' =>
      if decide (c = LF) then EmptyString :: splitLines s'
      else if decide (c = CR) then
        match s' with
        | String c' s'' =>
            if decide (c' = LF) then EmptyString :: splitLines s''
            else pushChar c (splitLines s')
        | EmptyString => pushChar c (splitLines s')
        end
      else pushChar c (splitLines s')
  end.

(** [l.join(sep)] on an array of strings. *)
Fixpoint join (sep : string) (l : list string) : string :=
  match l with
  | [] => EmptyString
  | x :: rest =>
      match rest with
      | [] => x
      | _ :: _ => x +:+ sep +:+ join sep rest
      end
  end.

(** The text a replacement string stands for when the pattern is a string,
    so that there are no captures: [$$] is a dollar sign, [$&] the matched
    text, [$`] the text before the match and [$'] the text after it; any
    other [$] stands for itself. *)
Fixpoint getSubstitution (matched before after r : string) : string :=
  match r with
  | EmptyString => EmptyString
  | String c r' =>
      if decide (c = dollar) then
        match r' with
        | String d r'' =>
            if decide (d = dollar)
            then String dollar (getSubstitution matched before after r'')
            else if decide (d = "&"%char)
            then matched +:+ getSubstitution matched before after r''
            else if decide (d = "`"%char)
            then before +:+ getSubstitution matched before after r''
            else if decide (d = "'"%char)
            then after +:+ getSubstitution matched before after r''
            else String c (getSubstitution matched before after r')
        | EmptyString => String c EmptyString
        end
      else String c (getSubstitution matched before after r')
  end.

(** The scan of [s.replace(p, r)]: [before] is the text already passed. *)
Fixpoint replaceFrom (p r before s : string) : string :=
  if JS.startsWith p s
  then let after := JS.drop (String.length p) s in
       before +:+ getSubstitution p before after r +:+ after
  else match s with
       | EmptyString => before
       | String c s' => replaceFrom p r (before +:+ String c EmptyString) s'
       end.

(** [s.replace(p, r)] for a string pattern [p] and a string [r]: the first
    occurrence only, with the dollar patterns of [r] expanded. *)
Definition replace (p r s : string) : string := replaceFrom p r EmptyString s.

(** [String(n)] for an integer. *)
Definition ofNumber (n : Z) : string := pretty n.

End Text.

(** ** The catalogue loader (data.js) *)

(** The object [processExamRow] returns.  A field read from a column the
    row does not have is [undefined], here [None]. *)
Record ExamRow := {
  row_id : option string;
  row_name : option string;
  row_link : option string;
  row_cfu : Z;
  row_language : option string;
  row_period : Z;
  row_ordinamento : list string;
  row_rawTable : option string;
  row_ssd : option string;
  row_pillar : option string;
  row_subpillar : option string;
  row_availability : option string;
}.

(** [parseInt(v)] of a possibly missing value: [undefined] is first turned
    into the string [undefined]. *)
Definition parseIntOf (v : option string) : option Z :=
  JS.parseInt (default "undefined" v).

(** [n || d] on numbers: [NaN] and 0 are falsy. *)
Definition orNumber (n : option Z) (d : Z) : Z :=
  match n with
  | Some 0 | None => d
  | Some v => v
  end.

Definition processExamRow (row : gmap string string) : ExamRow :=
  {| row_id := row !! "Exams";
     row_name := row !! "Exams";
     row_link := row !! "link";
     row_cfu := orNumber (parseIntOf (row !! "CFU")) 6;
     row_language := row !! "Language";
     row_period := orNumber (parseIntOf (row !! "Period")) 1;
     row_ordinamento :=
       match JS.truthy (row !! "ordinamento") with
       | Some o => JS.trim <$> JS.split "|" o
       | None => []
       end;
     row_rawTable := row !! "table";
     row_ssd := row !! "SSD";
     row_pillar := row !! "Pillar";
     row_subpillar := row !! "Subpillar";
     row_availability := row !! "avaiability" |}.

(** The character loop of [minimalCSVParse] over one line, followed by the
    last [row.push(current)]. *)
Fixpoint splitRow (inQuote : bool) (current : string) (row : list string)
    (line : string) : list string :=
  match line with
  | EmptyString => row ++ [current]
  | String char rest =>
      if decide (char = Text.quote) then splitRow (negb inQuote) current row rest
      else if bool_decide (char = ","%char) && negb inQuote
      then splitRow inQuote EmptyString (row ++ [current]) rest
      else splitRow inQuote (current +:+ String char EmptyString) row rest
  end.

(** [row[index] ? row[index].trim() : ''] *)
Definition cell (v : string) : string :=
  match JS.truthy (Some v) with
  | Some v' => JS.trim v'
  | None => EmptyString
  end.

(** The object built by [headers.forEach] for a row that has as many fields
    as there are headers; a header that occurs twice keeps the later
    field. *)
Definition rowObject (headers row : list string) : gmap string string :=
  foldl (λ obj hv, <[hv.1 := cell hv.2]> obj) ∅ (zip headers row).

(** The lines [minimalCSVParse] works on. *)
Definition csvLines (text : string) : list string :=
  filter (λ l, (0 < String.length (JS.trim l))%nat) (Text.splitLines text).

(** One iteration of the loop over the data lines: [None] when the row is
    skipped. *)
Definition parseLine (headers : list string) (line : string) : option ExamRow :=
  let row := splitRow false EmptyString [] line in
  if decide (length row = length headers)
  then Some (processExamRow (rowObject headers row))
  else None.

(** [None] is the [TypeError] of [lines[0].split] when there is no line. *)
Definition minimalCSVParse (text : string) : option (list ExamRow) :=
  match csvLines text with
  | [] => None
  | first :: rest =>
      let headers := JS.trim <$> JS.split ","%char first in
      Some (omap (parseLine headers) rest)
  end.

(** [Papa] is the PapaParse library when the page has loaded it: called
    with the header option, it returns one object per record. *)
Definition parseExams (Papa : option (string → list (gmap string string)))
    (csvText : string) : option (list ExamRow) :=
  match Papa with
  | None => minimalCSVParse csvText
  | Some parse => Some (processExamRow <$> parse csvText)
  end.

(** A field as a CSV writer renders it: as it is, or wrapped in quotes. *)
Definition rendered (f : bool * string) : string :=
  if f.1 then String Text.quote (f.2 +:+ String Text.quote EmptyString) else f.2.

(** No character of the string is [c]. *)
Fixpoint without (c : ascii) (s : string) : Prop :=
  match s with
  | EmptyString => True
  | String a s' => a ≠ c ∧ without c s'
  end.

(** ** The translator (i18n.js) *)

Module I18n.

(** The text [replace] receives for a parameter value. *)
Definition paramText (v : Param) : string :=
  match v with
  | PStr s => s
  | PNum n => Text.ofNumber n
  end.

Definition placeholder (k : string) : string :=
  String Text.open (k +:+ String Text.close EmptyString).

(** [t(key, params)]; [dictionary] is [messages[currentLang.value]] and
    [params] lists [Object.entries(params)]. *)
Definition t (dictionary : gmap string string) (key : string)
    (params : list (string * Param)) : string :=
  match dictionary !! key with
  | None => key
  | Some text =>
      foldl (λ text kv, Text.replace (placeholder kv.1) (paramText kv.2) text)
        text params
  end.

(** A message template as a sequence of plain text and placeholders. *)
Inductive Segment :=
| Lit (s : string)
| Hole (k : string).

Definition segmentText (seg : Segment) : string :=
  match seg with
  | Lit s => s
  | Hole k => placeholder k
  end.

Definition templateText (segs : list Segment) : string :=
  foldr (λ seg acc, segmentText seg +:+ acc) EmptyString segs.

(** The first placeholder for [k] becomes the text [v]. *)
Fixpoint fillFirst (k v : string) (segs : list Segment) : list Segment :=
  match segs with
  | [] => []
  | Hole k' :: rest =>
      if decide (k' = k) then Lit v :: rest else Hole k' :: fillFirst k v rest
  | Lit s :: rest => Lit s :: fillFirst k v rest
  end.

Definition fill (params : list (string * Param)) (segs : list Segment)
  : list Segment :=
  foldl (λ segs kv, fillFirst kv.1 (paramText kv.2) segs) segs params.

(** Plain text holds no opening brace, a placeholder name no brace. *)
Definition wellFormed (seg : Segment) : Prop :=
  match seg with
  | Lit s => without Text.open s
  | Hole k => without Text.open k ∧ without Text.close k
  end.

(** A parameter whose name holds no brace and whose value is a number, or a
    string with neither an opening brace nor a dollar sign. *)
Definition plainParam (kv : string * Param) : Prop :=
  without Text.open kv.1 ∧ without Text.close kv.1
  ∧ match kv.2 with
    | PStr s => without Text.open s ∧ without Text.dollar s
    | PNum _ => True
    end.

End I18n.

(** ** The page (app.js) *)

(** The functions of the Vue component that drive the engine.  [state.plan]
    is the copy of [pm.plan] that [refreshState] takes after every action,
    and [state.curriculum] the curriculum last passed to [setCurriculum]. *)
Section App.

Variable allExams : list Exam.
Variable rules : Rules.
Variable t : string → list (string * Param) → string.

Definition sortedTables (c : Curriculum) : list string :=
  match c with
  | FBA => ["Obbligatori"; "1"; "2"; "Facoltativi"; "Fuori Piano"]
  | F94 => ["Obbligatori"; "A"; "B"; "C"; "Facoltativi"; "Fuori Piano"]
  end.

(** The names every plain object inherits from [Object.prototype].  Read
    from an object that does not define them they give a function (the
    prototype itself for [__proto__]): a value that is truthy and has no
    [push]. *)
Definition objectPrototype : list string :=
  ["constructor"; "__defineGetter__"; "__defineSetter__"; "hasOwnProperty";
   "__lookupGetter__"; "__lookupSetter__"; "isPrototypeOf";
   "propertyIsEnumerable"; "toString"; "valueOf"; "__proto__";
   "toLocaleString"].

(** One iteration of [state.plan.forEach] in [groupedPlan]; [groups] holds
    the properties the object defines itself.  A group is created when
    [groups[item.table]] is falsy, which an inherited member is not; the
    [push] that follows throws a [TypeError], here [None], when what is
    read is not a group. *)
Definition groupItem (groups : gmap string (list PlanItem)) (item : PlanItem)
  : option (gmap string (list PlanItem)) :=
  let groups' :=
    match groups !! table item with
    | Some _ => groups
    | None =>
        if decide (table item ∈ objectPrototype) then groups
        else <[table item := []]> groups
    end in
  match groups' !! table item with
  | Some g => Some (<[table item := g ++ [item]]> groups')
  | None => None
  end.

Definition groupedPlan (c : Curriculum) (statePlan : list PlanItem)
  : option (gmap string (list PlanItem)) :=
  foldl (λ groups item, groups ≫= λ g, groupItem g item)
    (Some (foldl (λ groups tb, <[tb := []]> groups) ∅ (sortedTables c)))
    statePlan.

(** [refreshState]: the plan is copied, the report computed and the state
    saved; only a throwing [validate] shows in the engine. *)
Definition refreshState : M unit := (validate rules t ;;' ret ()).

Definition toggleExam (exam : Exam) : M unit := λ pm,
  match list_find (λ p, examId p = Some (exam_id exam)) (plan pm) with
  | Some (_, inPlan) =>
      (removeExam allExams rules (item_id inPlan) ;;' refreshState) pm
  | None => (addExam allExams rules exam None ;;' refreshState) pm
  end.

Definition getDisplayTables (c : Curriculum) (exam : Exam) : string :=
  match JS.truthy (rawTable exam) with
  | None => t "Facoltativi" []
  | Some raw =>
      let allTables := JS.trim <$> JS.split "|" raw in
      match c with
      | F94 =>
          let f94Tables := filter (λ tb, tb ∈ ["A"; "B"; "C"]) allTables in
          if decide (0 < length f94Tables)%nat
          then Text.join " | " f94Tables else t "Facoltativi" []
      | FBA =>
          let fbaTables := filter (λ tb, tb ∈ ["1"; "2"]) allTables in
          if decide (0 < length fbaTables)%nat
          then Text.join " | " fbaTables else t "Facoltativi" []
      end
  end.

(** The [try] block of [onMounted]: the saved year and curriculum go
    through the setters, the saved plan is put in place as it is. *)
Definition restore (parsed : PlanManager) : M unit :=
  (setYear (year parsed) ;;'
   setCurriculum allExams rules (curriculum parsed) ;;'
   modify (withPlan (plan parsed))).

(** [onMounted] once the data is loaded, on the engine it has just
    constructed; [saved] is the parsed content of local storage, [None]
    when there is none or it does not parse.  On the new engine [restore]
    returns, so the [catch] branch is taken for unparsable content only. *)
Definition onMounted (saved : option PlanManager) : Result unit :=
  (match saved with
   | Some parsed => restore parsed
   | None => initDefaults allExams rules
   end ;;' refreshState) constructor.

End App.

(** * Properties *)

(** ** getAllowedTables *)

Example getAllowedTables_f94 :
  getAllowedTables F94 (mkExam "x" 6 " C | A|Z|B |A") = ["A"; "A"; "B"; "C"].
Proof. vm_compute. reflexivity. Qed.

Example getAllowedTables_fba :
  getAllowedTables FBA (mkExam "x" 6 "2|A| 1 |2") = ["2"; "1"; "2"].
Proof. vm_compute. reflexivity. Qed.

Global Instance byPriority_total : Total byPriority.
Proof. intros a b. unfold byPriority. lia. Qed.

Global Instance byPriority_trans : Transitive byPriority.
Proof. intros a b c. unfold byPriority. lia. Qed.

Lemma getAllowedTables_subset (c : Curriculum) (exam : Exam) :
  Forall (λ tb, tb ∈ tableSet c) (getAllowedTables c exam).
Proof.
  apply Forall_forall. intros tb Hin. destruct c; simpl in *.
  - by apply list_elem_of_filter in Hin as [? _].
  - rewrite merge_sort_Permutation in Hin.
    by apply list_elem_of_filter in Hin as [? _].
Qed.



(** ** isExamAvailable and getNextAvailabilityInfo *)

Lemma isEven_even (x : Z) : JS.isEven (Some x) = Z.even x.
Proof.
  unfold JS.isEven. symmetry. apply Zeven_rem.
Qed.

Lemma startsWith_app (p s : string) : JS.startsWith p (p +:+ s) = true.
Proof. induction p as [|a p IH]; simpl; [done|]. by rewrite decide_True. Qed.

Lemma replace_prefix (p r s : string) : JS.replace p r (p +:+ s) = r +:+ s.
Proof.
  assert (Hd : JS.drop (String.length p) (p +:+ s) = s)
    by (induction p; simpl; done).
  destruct p as [|a p]; simpl.
  - destruct s; done.
  - rewrite decide_True by done. rewrite startsWith_app.
    simpl in Hd. by rewrite Hd.
Qed.

Lemma truthy_Some (s : string) : s ≠ "" → JS.truthy (Some s) = Some s.
Proof. by destruct s. Qed.

(** C5. The descriptor table of [isExamAvailable], for every exam and every
    year token.  A missing or empty descriptor is available.  [enabled] and
    [disabled] are recognised whatever their letter case and give true and
    false.  [From <year>] gives true exactly when the integer that starts the
    active year is at least the integer that starts the descriptor's year.
    A descriptor that contains [Biennial] and [Even] follows the parity of
    the integer that starts the active year, one that contains [Biennial] and
    [Odd] (and not [Even]) follows the opposite parity.  Every other text is
    available. *)
Theorem isExamAvailable_descriptor (pm : PlanManager) (exam : Exam) :
  (JS.truthy (availability exam) = None → isExamAvailable pm exam = true)
  ∧ ∀ avail : string, availability exam = Some avail →
      (JS.toLowerCase avail = "enabled" → isExamAvailable pm exam = true)
    ∧ (JS.toLowerCase avail = "disabled" → isExamAvailable pm exam = false)
    ∧ (∀ (y : string) (cur from : Z),
         avail = "From " +:+ y →
         startOf (year pm) = Some cur →
         startOf (JS.trim y) = Some from →
         isExamAvailable pm exam = bool_decide (from ≤ cur))
    ∧ (JS.toLowerCase avail ≠ "enabled" →
       JS.toLowerCase avail ≠ "disabled" →
       JS.startsWith "From " avail = false →
         (∀ cur : Z,
            JS.includes "Biennial" avail = true →
            startOf (year pm) = Some cur →
              (JS.includes "Even" avail = true →
               isExamAvailable pm exam = Z.even cur)
            ∧ (JS.includes "Even" avail = false →
               JS.includes "Odd" avail = true →
               isExamAvailable pm exam = Z.odd cur))
         ∧ (JS.includes "Biennial" avail = false
            ∨ (JS.includes "Even" avail = false
               ∧ JS.includes "Odd" avail = false) →
            isExamAvailable pm exam = true)).
Proof.
  unfold isExamAvailable. split; [by intros ->|].
  intros avail ->.
  split; [|split; [|split]].
  - intros He. rewrite truthy_Some by (by intros ->).
    by rewrite decide_True.
  - intros Hd. rewrite truthy_Some by (by intros ->).
    rewrite decide_False by (by rewrite Hd). by rewrite decide_True.
  - intros y cur from -> Hcur Hfrom.
    rewrite truthy_Some by done.
    rewrite decide_False by done. rewrite decide_False by done.
    rewrite startsWith_app, replace_prefix.
    change ("" +:+ y) with y. rewrite Hcur, Hfrom. simpl.
    destruct (Z.leb_spec from cur);
      [rewrite bool_decide_true | rewrite bool_decide_false]; lia.
  - intros Hne Hnd Hfrom.
    destruct (decide (avail = "")) as [-> | Hnonempty]; [by split|].
    rewrite truthy_Some, decide_False, decide_False, Hfrom by done.
    split.
    + intros cur -> Hcur. rewrite Hcur, isEven_even. split.
      * by intros ->.
      * intros -> ->. by rewrite Z.negb_even.
    + intros [-> | [-> ->]]; [done|]. by destruct (JS.includes "Biennial" avail).
Qed.

(** The keywords other than [enabled] and [disabled] are matched as
    written: in another letter case, or with text around [disabled], the
    descriptor is just another text, and the exam is available. *)
Example isExamAvailable_exact_keywords :
  isExamAvailable (inYear "2025/2026") (examWith (Some "from 2030")) = true
  ∧ isExamAvailable (inYear "2025/2026") (examWith (Some "BIENNIAL EVEN")) = true
  ∧ isExamAvailable (inYear "2025/2026") (examWith (Some "disabled ")) = true
  ∧ isExamAvailable (inYear "2025/2026") (examWith (Some "Biennial Even Odd"))
    = false.
Proof. repeat split. Qed.

(** C5 as the specification words it does not hold.  The descriptor is
    not read case-insensitively, nor by substring for every keyword: in
    2025/2026 the descriptor [From 2030/2031] is not yet
    available, while [from 2030/2031], which differs from it by letter case
    only, is; [Biennial Even] is unavailable in a year that starts odd,
    while [BIENNIAL EVEN] is available; and a descriptor that merely
    contains [disabled] is available. *)
Lemma isExamAvailable_descriptor_counterexample :
  JS.toLowerCase "from 2030/2031" = JS.toLowerCase "From 2030/2031"
  ∧ isExamAvailable (inYear "2025/2026") (examWith (Some "From 2030/2031"))
    = false
  ∧ isExamAvailable (inYear "2025/2026") (examWith (Some "from 2030/2031"))
    = true
  ∧ JS.toLowerCase "BIENNIAL EVEN" = JS.toLowerCase "Biennial Even"
  ∧ isExamAvailable (inYear "2025/2026") (examWith (Some "Biennial Even"))
    = false
  ∧ isExamAvailable (inYear "2025/2026") (examWith (Some "BIENNIAL EVEN"))
    = true
  ∧ JS.includes "disabled" "disabled until 2030" = true
  ∧ isExamAvailable (inYear "2025/2026")
      (examWith (Some "disabled until 2030"))
    = true.
Proof. repeat split. Qed.

Lemma isExamAvailable_descriptor_witness :
  isExamAvailable (inYear "2018/2019") (examWith (Some "From 2020")) = false
  ∧ isExamAvailable (inYear "2021/2022") (examWith (Some "From 2020/2021")) = true
  ∧ isExamAvailable (inYear "2024/2025") (examWith (Some "Biennial Even")) = true
  ∧ isExamAvailable (inYear "2024/2025") (examWith (Some "Biennial Odd")) = false
  ∧ isExamAvailable (inYear "2024/2025") (examWith (Some "DISABLED")) = false
  ∧ isExamAvailable (inYear "2024/2025") (examWith (Some "on request")) = true.
Proof.
  split; [|split; [|split; [|split; [|split]]]].
  - apply (proj1 (proj2 (proj2 (proj2
            (isExamAvailable_descriptor (inYear "2018/2019")
               (examWith (Some "From 2020"))) "From 2020" eq_refl)))
            "2020" 2018 2020); reflexivity.
  - apply (proj1 (proj2 (proj2 (proj2
            (isExamAvailable_descriptor (inYear "2021/2022")
               (examWith (Some "From 2020/2021"))) "From 2020/2021" eq_refl)))
            "2020/2021" 2021 2020); reflexivity.
  - apply (proj1 (proj1 (proj2 (proj2 (proj2 (proj2
            (isExamAvailable_descriptor (inYear "2024/2025")
               (examWith (Some "Biennial Even"))) "Biennial Even" eq_refl)))
            ltac:(vm_compute; discriminate) ltac:(vm_compute; discriminate)
            eq_refl) 2024 eq_refl eq_refl)); reflexivity.
  - apply (proj2 (proj1 (proj2 (proj2 (proj2 (proj2
            (isExamAvailable_descriptor (inYear "2024/2025")
               (examWith (Some "Biennial Odd"))) "Biennial Odd" eq_refl)))
            ltac:(vm_compute; discriminate) ltac:(vm_compute; discriminate)
            eq_refl) 2024 eq_refl eq_refl)); reflexivity.
  - apply (proj1 (proj2 (proj2
            (isExamAvailable_descriptor (inYear "2024/2025")
               (examWith (Some "DISABLED"))) "DISABLED" eq_refl)));
      reflexivity.
  - apply (proj2 (proj2 (proj2 (proj2 (proj2
            (isExamAvailable_descriptor (inYear "2024/2025")
               (examWith (Some "on request"))) "on request" eq_refl)))
            ltac:(vm_compute; discriminate) ltac:(vm_compute; discriminate)
            eq_refl)).
    left. reflexivity.
Defined.

Section AvailabilityInfo.

Variable t : string → list (string * Param) → string.

(** The result is [null] exactly for a missing, empty or [enabled]
    descriptor: the active year plays no part in it. *)
Lemma getNextAvailabilityInfo_null (pm : PlanManager) (exam : Exam) :
  getNextAvailabilityInfo t pm exam = None
  ↔ JS.truthy (availability exam) = None
    ∨ ∃ avail, availability exam = Some avail
               ∧ JS.toLowerCase avail = "enabled".
Proof.
  unfold getNextAvailabilityInfo.
  destruct (availability exam) as [avail|] eqn:Ha; [|by split; [left|]].
  destruct (decide (avail = "")) as [-> | Hne]; [by split; [left|]|].
  rewrite truthy_Some by done.
  destruct (decide (JS.toLowerCase avail = "enabled")) as [He | He].
  - split; [|done]. intros _. right. by exists avail.
  - split.
    + repeat case_match; done.
    + intros [? | (a & [= <-] & ?)]; done.
Qed.

(** C4, evaluated on the scenario of the specification.  With
    availability [From 2020] the exam is unavailable in 2018/2019 and the
    method returns the [available_from] message for 2020; after
    [setYear("2021/2022")] the exam is available, and the method still
    returns that message instead of [null]. *)
Theorem getNextAvailabilityInfo_after_start_year :
  let exam := examWith (Some "From 2020") in
  let before := inYear "2018/2019" in
  let after := inYear "2021/2022" in
  setYear "2021/2022" before = Ret () after
  ∧ isExamAvailable before exam = false
  ∧ getNextAvailabilityInfo t before exam
    = Some (t "available_from" [("date", PStr "2020")])
  ∧ isExamAvailable after exam = true
  ∧ getNextAvailabilityInfo t after exam
    = Some (t "available_from" [("date", PStr "2020")]).
Proof. repeat split. Qed.

End AvailabilityInfo.

(** ** Credit sums *)

Lemma foldl_cfu (a : Z) (l : list PlanItem) :
  foldl (λ s p, s + cfu p) a l = a + sumCfu l.
Proof.
  unfold sumCfu. revert a. induction l as [|p l IH]; intros a; simpl; [lia|].
  rewrite (IH (a + cfu p)), (IH (0 + cfu p)). lia.
Qed.

Lemma sumCfu_cons (p : PlanItem) (l : list PlanItem) :
  sumCfu (p :: l) = cfu p + sumCfu l.
Proof. unfold sumCfu at 1. simpl. by rewrite foldl_cfu. Qed.

Lemma sumCfu_app (l1 l2 : list PlanItem) :
  sumCfu (l1 ++ l2) = sumCfu l1 + sumCfu l2.
Proof.
  induction l1 as [|p l1 IH]; simpl; [done|].
  rewrite !sumCfu_cons, IH. lia.
Qed.

Lemma creditsIn_app (tb : string) (l1 l2 : list PlanItem) :
  creditsIn tb (l1 ++ l2) = creditsIn tb l1 + creditsIn tb l2.
Proof. unfold creditsIn. by rewrite filter_app, sumCfu_app. Qed.

Lemma creditsIn_cons (tb : string) (p : PlanItem) (l : list PlanItem) :
  creditsIn tb (p :: l)
  = (if decide (table p = tb) then cfu p else 0) + creditsIn tb l.
Proof.
  unfold creditsIn. rewrite filter_cons.
  destruct (decide (table p = tb)); [by rewrite sumCfu_cons|done].
Qed.

Lemma creditsInBC_split (l : list PlanItem) :
  creditsInBC l = creditsIn "B" l + creditsIn "C" l.
Proof.
  unfold creditsInBC. induction l as [|p l IH]; [done|].
  rewrite !creditsIn_cons, filter_cons.
  destruct (decide (table p = "B" ∨ table p = "C")) as [[Hb | Hc] | Hn].
  - rewrite sumCfu_cons, IH, Hb. simpl. lia.
  - rewrite sumCfu_cons, IH, Hc. simpl. lia.
  - rewrite IH, !decide_False by tauto. lia.
Qed.

Lemma creditsIn_other (tb : string) (l : list PlanItem) :
  Forall (λ p, table p ≠ tb) l → creditsIn tb l = 0.
Proof.
  induction 1 as [|p l Hp _ IH]; [done|].
  by rewrite creditsIn_cons, decide_False, IH.
Qed.

(** ** The limits read from the rule list *)

Lemma readLimits_snoc (rs : list Rule) (r : Rule) :
  readLimits (rs ++ [r])
  = if decide (source r = "BC")
    then ((readLimits rs).1, min_sumBC_credits r)
    else (<[source r := min_credits r]> (readLimits rs).1, (readLimits rs).2).
Proof. unfold readLimits. by rewrite foldl_app. Qed.

Lemma readLimits_spec (rs : list Rule) (tb : string) :
  default 0 ((readLimits rs).1 !! tb) = configuredMin rs tb
  ∧ (readLimits rs).2 = aggregateMin rs.
Proof.
  unfold configuredMin, aggregateMin.
  induction rs as [|r rs [IH1 IH2]] using rev_ind; [done|].
  rewrite readLimits_snoc, !filter_app, !filter_cons, !filter_nil.
  destruct (decide (source r = "BC")) as [Hbc | Hbc]; simpl.
  - rewrite decide_False by tauto. rewrite !app_nil_r, last_snoc. done.
  - rewrite app_nil_r, IH2. split; [|done].
    destruct (decide (source r = tb)) as [Heq | Hne].
    + rewrite Heq, lookup_insert_eq, decide_True, last_snoc by (by subst).
      done.
    + rewrite lookup_insert_ne, decide_False, app_nil_r by tauto. done.
Qed.

(** ** Entries up to their table *)

Lemma setTable_erase (tb : string) (p q : PlanItem) :
  erase p = erase q → setTable tb p = setTable tb q.
Proof. intros [= Hid Hex Hname Hcfu Hcustom]. unfold setTable. congruence. Qed.

Lemma erase_setTable (tb : string) (p : PlanItem) : erase (setTable tb p) = erase p.
Proof. done. Qed.

Lemma setTable_table (p : PlanItem) : setTable (table p) p = p.
Proof. by destruct p. Qed.

(** ** rebalanceBuckets *)

Lemma tableSet_not_mandatory (c : Curriculum) (tb : string) :
  tb ∈ tableSet c → tb ≠ "Obbligatori".
Proof.
  intros Hin ->.
  destruct c; simpl in Hin;
    repeat (apply elem_of_cons in Hin as [Hin | Hin]; [done|]);
    by apply elem_of_nil in Hin.
Qed.

Section Rebalance.

Variable allExams : list Exam.
Variable rules : Rules.

Lemma allowedOf_subset (c : Curriculum) (item : PlanItem) (al : list string) :
  allowedOf allExams c item = Some al → Forall (λ tb, tb ∈ tableSet c) al.
Proof.
  unfold allowedOf. destruct (isCustom item).
  - intros [= <-]. constructor.
  - destruct (findExam allExams (examId item)) as [exam|]; [|done].
    intros [= <-]. apply getAllowedTables_subset.
Qed.

Section Pass.

Variable c : Curriculum.
Variable progRules : list Rule.
Variable freeLimit : Z.
Variable limits : gmap string Z.
Variable minSumBC : Z.
Hypothesis limits_ok : ∀ tb, default 0 (limits !! tb) = configuredMin progRules tb.
Hypothesis minSumBC_ok : minSumBC = aggregateMin progRules.

Variable mandatoryItems : list PlanItem.
Hypothesis mandatory_ok : Forall (λ p, table p = "Obbligatori") mandatoryItems.

Lemma creditsIn_mandatory (tb : string) (placed : list PlanItem) :
  tb ≠ "Obbligatori" →
  creditsIn tb (mandatoryItems ++ placed) = creditsIn tb placed.
Proof.
  intros Hne. rewrite creditsIn_app, creditsIn_other; [lia|].
  eapply Forall_impl; [exact mandatory_ok|]. simpl. congruence.
Qed.

Lemma tryTables_find (placed : list PlanItem) (allowed : list string) :
  Forall (λ tb, tb ≠ "Obbligatori") allowed →
  tryTables limits minSumBC (mandatoryItems ++ placed) allowed
  = List.find (accepts progRules placed) allowed.
Proof.
  induction 1 as [|tb allowed Htb _ IH]; [done|]. simpl.
  rewrite IH, creditsInBC_split, !creditsIn_mandatory, limits_ok, minSumBC_ok
    by done.
  unfold accepts.
  assert (Hl : (creditsIn tb placed <? configuredMin progRules tb)
               = bool_decide (creditsIn tb placed < configuredMin progRules tb)).
  { destruct (Z.ltb_spec (creditsIn tb placed) (configuredMin progRules tb));
      [by rewrite bool_decide_true | rewrite bool_decide_false; [done|lia]]. }
  assert (Hr : bool_decide (tb = "B" ∨ tb = "C")
                 && (creditsIn "B" placed + creditsIn "C" placed
                     <? aggregateMin progRules)
               = bool_decide ((tb = "B" ∨ tb = "C")
                   ∧ creditsIn "B" placed + creditsIn "C" placed
                     < aggregateMin progRules)).
  { destruct (Z.ltb_spec (creditsIn "B" placed + creditsIn "C" placed)
                (aggregateMin progRules));
      destruct (decide (tb = "B" ∨ tb = "C"));
      rewrite ?(bool_decide_true (tb = "B" ∨ _)),
              ?(bool_decide_false (tb = "B" ∨ _)) by done; simpl;
      [by rewrite bool_decide_true | | |];
      rewrite bool_decide_false; tauto || lia. }
  by rewrite Hl, Hr.
Qed.

Lemma assign_greedy (placed : list PlanItem) (allowed : list string) :
  Forall (λ tb, tb ≠ "Obbligatori") allowed →
  assign limits minSumBC freeLimit (mandatoryItems ++ placed) allowed
  = greedyTable progRules freeLimit placed allowed.
Proof.
  intros Hal. unfold assign, greedyTable.
  rewrite tryTables_find, creditsIn_mandatory by done.
  destruct (List.find _ allowed); [done|].
  destruct (Z.ltb_spec (creditsIn "Facoltativi" placed) freeLimit);
    [by rewrite bool_decide_true | rewrite bool_decide_false; [done|lia]].
Qed.

Lemma forEachActive_greedy (placed activeExams : list PlanItem) :
  forEachActive allExams c limits minSumBC freeLimit (mandatoryItems ++ placed) activeExams
  = (als ← mapM (allowedOf allExams c) activeExams;
     Some (mandatoryItems
           ++ greedyPass progRules freeLimit placed (zip activeExams als))).
Proof.
  revert placed. induction activeExams as [|item rest IH]; intros placed; [done|].
  simpl. destruct (allowedOf allExams c item) as [al|] eqn:Hal; [|done]. simpl.
  rewrite assign_greedy.
  - rewrite <- (assoc_L (++)), IH.
    by destruct (mapM (allowedOf allExams c) rest).
  - eapply Forall_impl; [by eapply allowedOf_subset|].
    intros tb. apply tableSet_not_mandatory.
Qed.

End Pass.

(** The pass, as [rebalanceBuckets] runs it. *)
Lemma rebalanceBuckets_greedy (pm : PlanManager) :
  let progRules := programs rules (curriculum pm) in
  let freeTarget := free_exams_credits (common_rules rules) in
  let mandatory := filter (λ p, table p = "Obbligatori") (plan pm) in
  let active := filter (λ p, table p ≠ "Obbligatori") (plan pm) in
  rebalanceBuckets allExams rules pm
  = match mapM (allowedOf allExams (curriculum pm)) active with
    | Some alloweds =>
        Ret () (withPlan (mandatory
                          ++ greedyPass progRules freeTarget [] (zip active alloweds))
                  pm)
    | None => Throw
    end.
Proof.
  intros progRules freeTarget mandatory active.
  unfold rebalanceBuckets.
  fold progRules. fold mandatory. fold active.
  destruct (readLimits progRules) as [limits minSumBC] eqn:Hrl.
  rewrite <- (app_nil_r mandatory) at 1.
  rewrite (forEachActive_greedy (curriculum pm) progRules).
  - fold freeTarget. by destruct (mapM _ active).
  - intros tb. pose proof (readLimits_spec progRules tb) as [H _].
    by rewrite Hrl in H.
  - pose proof (readLimits_spec progRules "") as [_ H]. by rewrite Hrl in H.
  - apply Forall_forall. intros p Hp.
    by apply list_elem_of_filter in Hp as [? _].
Qed.

(** *** What a run of the pass keeps and what it writes *)

Lemma tryTables_elem (limits : gmap string Z) (minSumBC : Z)
    (newPlan : list PlanItem) (allowed : list string) (tb : string) :
  tryTables limits minSumBC newPlan allowed = Some tb → tb ∈ allowed.
Proof.
  induction allowed as [|a allowed IH]; simpl; [done|].
  case_match.
  - intros [= ->]. apply elem_of_cons. by left.
  - intros H'. apply elem_of_cons. right. auto.
Qed.

Lemma assign_cases (limits : gmap string Z) (minSumBC freeLimit : Z)
    (newPlan : list PlanItem) (allowed : list string) :
  let tb := assign limits minSumBC freeLimit newPlan allowed in
  tb ∈ allowed ∨ tb = "Facoltativi" ∨ tb = "Fuori Piano".
Proof.
  unfold assign.
  destruct (tryTables limits minSumBC newPlan allowed) eqn:Htry; simpl.
  - left. by eapply tryTables_elem.
  - case_match; auto.
Qed.

Lemma allowedOf_erase (c : Curriculum) (p q : PlanItem) :
  erase p = erase q → allowedOf allExams c p = allowedOf allExams c q.
Proof.
  intros [= Hid Hex Hname Hcfu Hcustom]. unfold allowedOf.
  by rewrite Hex, Hcustom.
Qed.

Lemma forEachActive_Some (c : Curriculum) (limits : gmap string Z)
    (minSumBC freeLimit : Z) (activeExams newPlan result : list PlanItem) :
  forEachActive allExams c limits minSumBC freeLimit newPlan activeExams
  = Some result →
  ∃ placed,
    result = newPlan ++ placed
    ∧ erase <$> placed = erase <$> activeExams
    ∧ Forall (λ q, table q ∈ tableSet c ∨ table q = "Facoltativi"
                   ∨ table q = "Fuori Piano") placed.
Proof.
  revert newPlan. induction activeExams as [|item rest IH]; intros newPlan; simpl.
  - intros [= <-]. exists []. by rewrite app_nil_r.
  - destruct (allowedOf allExams c item) as [al|] eqn:Hal; [|done].
    intros (placed & -> & Her & Htb)%IH.
    eexists (_ :: placed). rewrite <- (assoc_L (++)). split; [done|].
    split; [by rewrite !fmap_cons, Her|].
    constructor; [|done]. simpl.
    destruct (assign_cases limits minSumBC freeLimit newPlan al) as [Hin | H'];
      [left | by right].
    apply allowedOf_subset in Hal. by eapply Forall_forall in Hal.
Qed.

(** The pass never reads the table an active entry comes with. *)
Lemma forEachActive_erase (c : Curriculum) (limits : gmap string Z)
    (minSumBC freeLimit : Z) (act1 act2 newPlan : list PlanItem) :
  erase <$> act1 = erase <$> act2 →
  forEachActive allExams c limits minSumBC freeLimit newPlan act1
  = forEachActive allExams c limits minSumBC freeLimit newPlan act2.
Proof.
  revert act2 newPlan.
  induction act1 as [|p act1 IH]; intros [|q act2] newPlan; try done.
  rewrite !fmap_cons. intros Heq.
  assert (Hpq : erase p = erase q) by congruence.
  assert (Hrest : erase <$> act1 = erase <$> act2) by congruence.
  simpl. rewrite (allowedOf_erase c p q) by done.
  destruct (allowedOf allExams c q); [|done].
  rewrite (setTable_erase _ p q) by done. by apply IH.
Qed.

Lemma rebalanceBuckets_Ret (pm pm' : PlanManager) (u : unit) :
  rebalanceBuckets allExams rules pm = Ret u pm' →
  ∃ placed,
    pm' = withPlan (mandatoryOf (plan pm) ++ placed) pm
    ∧ erase <$> placed = erase <$> activeOf (plan pm)
    ∧ Forall (λ q, table q ∈ tableSet (curriculum pm) ∨ table q = "Facoltativi"
                   ∨ table q = "Fuori Piano") placed.
Proof.
  unfold rebalanceBuckets.
  destruct (readLimits _) as [limits minSumBC].
  destruct (forEachActive _ _ _ _ _ _ _) as [newPlan|] eqn:Hloop; [|done].
  intros [= _ <-].
  apply forEachActive_Some in Hloop as (placed & -> & ? & ?). by exists placed.
Qed.

Lemma placed_active (c : Curriculum) (placed : list PlanItem) :
  Forall (λ q, table q ∈ tableSet c ∨ table q = "Facoltativi"
               ∨ table q = "Fuori Piano") placed →
  Forall (λ q, table q ≠ "Obbligatori") placed.
Proof.
  intros H. eapply Forall_impl; [exact H|].
  intros q [Hin | [-> | ->]]; [|done..].
  by eapply tableSet_not_mandatory.
Qed.

Lemma mandatoryOf_app_placed (mand placed : list PlanItem) :
  Forall (λ q, table q ≠ "Obbligatori") placed →
  mandatoryOf (mandatoryOf mand ++ placed) = mandatoryOf mand
  ∧ activeOf (mandatoryOf mand ++ placed) = placed.
Proof.
  intros Hpl. unfold mandatoryOf, activeOf. rewrite !filter_app.
  rewrite (list_filter_filter _ _ mand).
  assert (H1 : filter (λ p, table p = "Obbligatori") placed = []).
  { clear -Hpl. induction Hpl as [|q l Hq _ IH]; [done|].
    by rewrite filter_cons, decide_False. }
  assert (H2 : filter (λ p, table p ≠ "Obbligatori") placed = placed).
  { clear -Hpl. induction Hpl as [|q l Hq _ IH]; [done|].
    by rewrite filter_cons, decide_True, IH. }
  assert (H3 : filter (λ p, table p ≠ "Obbligatori")
                 (filter (λ p, table p = "Obbligatori") mand) = []).
  { clear. induction mand as [|q l IH]; [done|].
    rewrite filter_cons. case_decide; [|done].
    by rewrite filter_cons, decide_False by tauto. }
  rewrite H1, H2, H3, app_nil_r. split; [|done].
  clear. induction mand as [|q l IH]; [done|].
  rewrite !filter_cons. case_decide.
  - rewrite decide_True by tauto. by f_equal.
  - by rewrite decide_False by tauto.
Qed.

Lemma split_mandatory_active (l : list PlanItem) :
  mandatoryOf l ++ activeOf l ≡ₚ l.
Proof. apply filter_app_complement. Qed.

Lemma rebalanceBuckets_keeps (pm pm' : PlanManager) (u : unit) :
  rebalanceBuckets allExams rules pm = Ret u pm' →
  year pm' = year pm
  ∧ curriculum pm' = curriculum pm
  ∧ mandatoryOf (plan pm') = mandatoryOf (plan pm)
  ∧ erase <$> activeOf (plan pm') = erase <$> activeOf (plan pm)
  ∧ plan pm' = mandatoryOf (plan pm') ++ activeOf (plan pm')
  ∧ erase <$> plan pm' ≡ₚ erase <$> plan pm
  ∧ length (plan pm') = length (plan pm).
Proof.
  intros (placed & -> & Her & Htb)%rebalanceBuckets_Ret. simpl.
  destruct (mandatoryOf_app_placed (plan pm) placed) as [Hm Ha];
    [by eapply placed_active|].
  rewrite Hm, Ha.
  assert (Hperm : erase <$> mandatoryOf (plan pm) ++ placed ≡ₚ erase <$> plan pm).
  { rewrite fmap_app, Her, <- fmap_app. by rewrite split_mandatory_active. }
  repeat split; try done.
  by rewrite <- (length_fmap erase), Hperm, length_fmap.
Qed.

End Rebalance.

(** ** Plans that differ only in the buckets of active entries *)

Lemma agree_split (l1 l2 : list PlanItem) :
  agreeUpToActiveTables l1 l2 →
  mandatoryOf l1 = mandatoryOf l2
  ∧ erase <$> activeOf l1 = erase <$> activeOf l2.
Proof.
  unfold mandatoryOf, activeOf.
  induction 1 as [|p q l1 l2 Hpq _ [IHm IHa]]; [done|].
  rewrite !filter_cons.
  destruct Hpq as [<- | (Her & Hp & Hq)].
  - rewrite IHm. split; [done|].
    destruct (decide (table p ≠ "Obbligatori")); [|done].
    by rewrite !fmap_cons, IHa.
  - rewrite (decide_False (P := table p = "Obbligatori")) by done.
    rewrite (decide_False (P := table q = "Obbligatori")) by done.
    rewrite (decide_True (P := table p ≠ "Obbligatori")) by done.
    rewrite (decide_True (P := table q ≠ "Obbligatori")) by done.
    by rewrite IHm, !fmap_cons, IHa, Her.
Qed.

Lemma countRefs_erase (eid : string) (l : list PlanItem) :
  countRefs eid (erase <$> l) = countRefs eid l.
Proof.
  unfold countRefs. induction l as [|p l IH]; [done|].
  rewrite fmap_cons, !filter_cons. simpl.
  case_decide; simpl; by rewrite IH.
Qed.

Lemma countRefs_perm (eid : string) (l1 l2 : list PlanItem) :
  erase <$> l1 ≡ₚ erase <$> l2 → countRefs eid l1 = countRefs eid l2.
Proof.
  intros Hp. rewrite <- (countRefs_erase eid l1), <- (countRefs_erase eid l2).
  unfold countRefs. by rewrite Hp.
Qed.

Lemma countRefs_zero (eid : string) (l : list PlanItem) :
  countRefs eid l = 0%nat ↔ ¬ Exists (λ p, examId p = Some eid) l.
Proof.
  unfold countRefs. rewrite <- Forall_Exists_neg.
  induction l as [|p l IH]; [by split; [constructor|]|].
  rewrite filter_cons, Forall_cons. case_decide; simpl; [|tauto].
  split; [done|tauto].
Qed.

Section Operations.

Variable allExams : list Exam.
Variable rules : Rules.

Lemma withPlan_same (l : list PlanItem) (pm1 pm2 : PlanManager) :
  year pm1 = year pm2 → curriculum pm1 = curriculum pm2 →
  withPlan l pm1 = withPlan l pm2.
Proof. unfold withPlan. congruence. Qed.

Lemma rebalanceBuckets_ext (pm1 pm2 : PlanManager) :
  year pm1 = year pm2 →
  curriculum pm1 = curriculum pm2 →
  mandatoryOf (plan pm1) = mandatoryOf (plan pm2) →
  erase <$> activeOf (plan pm1) = erase <$> activeOf (plan pm2) →
  rebalanceBuckets allExams rules pm1 = rebalanceBuckets allExams rules pm2.
Proof.
  intros Hy Hc Hm Ha. unfold rebalanceBuckets.
  rewrite Hc. destruct (readLimits _) as [limits minSumBC].
  change (filter (λ p, table p = "Obbligatori") (plan pm1))
    with (mandatoryOf (plan pm1)).
  change (filter (λ p, table p ≠ "Obbligatori") (plan pm1))
    with (activeOf (plan pm1)).
  rewrite Hm.
  rewrite (forEachActive_erase allExams (curriculum pm2) limits minSumBC _
             (activeOf (plan pm1)) (activeOf (plan pm2))) by done.
  unfold mandatoryOf, activeOf.
  destruct (forEachActive _ _ _ _ _ _ _); [|done].
  by rewrite (withPlan_same _ pm1 pm2).
Qed.

Lemma rebalanceBuckets_agree (pm1 pm2 : PlanManager) :
  year pm1 = year pm2 →
  curriculum pm1 = curriculum pm2 →
  agreeUpToActiveTables (plan pm1) (plan pm2) →
  rebalanceBuckets allExams rules pm1 = rebalanceBuckets allExams rules pm2.
Proof.
  intros Hy Hc [Hm Ha]%agree_split. by apply rebalanceBuckets_ext.
Qed.

Lemma rebalanceBuckets_idempotent (pm pm' : PlanManager) (u : unit) :
  rebalanceBuckets allExams rules pm = Ret u pm' →
  rebalanceBuckets allExams rules pm' = Ret u pm'.
Proof.
  intros H.
  pose proof (rebalanceBuckets_keeps _ _ _ _ _ H) as (Hy & Hc & Hm & Ha & _).
  by rewrite (rebalanceBuckets_ext pm' pm).
Qed.

Lemma rebalanceBuckets_total (pm : PlanManager) :
  resolves allExams (plan pm) →
  ∃ pm', rebalanceBuckets allExams rules pm = Ret () pm'.
Proof.
  intros Hres. rewrite rebalanceBuckets_greedy. cbv zeta.
  destruct (mapM _ _) as [als|] eqn:Hals; [by eexists|].
  apply mapM_None in Hals. apply Exists_exists in Hals as (p & Hin & Hp).
  apply list_elem_of_filter in Hin as [Hact Hin].
  eapply Forall_forall in Hres; [|exact Hin].
  unfold allowedOf in Hp. destruct (isCustom p) eqn:Hcustom; [done|].
  destruct (Hres Hact eq_refl) as [exam Hexam]. by rewrite Hexam in Hp.
Qed.

Lemma resolves_snoc (l : list PlanItem) (p : PlanItem) :
  resolves allExams l →
  (table p ≠ "Obbligatori" → isCustom p = false →
   is_Some (findExam allExams (examId p))) →
  resolves allExams (l ++ [p]).
Proof. intros Hl Hp. apply Forall_app. split; [done|]. by constructor. Qed.

Lemma findExam_catalog (exam : Exam) :
  exam ∈ allExams → is_Some (findExam allExams (Some (exam_id exam))).
Proof.
  intros Hin. unfold findExam.
  destruct (list_find_elem_of (λ e, Some (exam_id e) = Some (exam_id exam))
              allExams exam Hin eq_refl) as [[i e] ->].
  by eexists.
Qed.

Lemma initialTable_active (c : Curriculum) (exam : Exam) (tt : option string) :
  tt ≠ Some "Obbligatori" → initialTable c exam tt ≠ "Obbligatori".
Proof.
  intros Htt. unfold initialTable.
  destruct tt as [[|a s]|]; simpl; [|congruence|].
  all: pose proof (getAllowedTables_subset c exam) as Hsub.
  all: destruct (getAllowedTables c exam) as [|tb l]; [done|].
  all: apply Forall_cons in Hsub as [Hsub _].
  all: by eapply tableSet_not_mandatory.
Qed.

Lemma addExam_unfold (exam : Exam) (tt : option string) (pm : PlanManager) :
  addExam allExams rules exam tt pm
  = if bool_decide (Exists (λ p, examId p = Some (exam_id exam)) (plan pm))
    then Ret false pm
    else
      let item := {| item_id := exam_id exam; examId := Some (exam_id exam);
                     name := exam_name exam; cfu := exam_cfu exam;
                     table := initialTable (curriculum pm) exam tt;
                     isCustom := false |} in
      match rebalanceBuckets allExams rules (withPlan (plan pm ++ [item]) pm) with
      | Ret _ pm' => Ret true pm'
      | Throw => Throw
      end.
Proof. unfold addExam. by case_bool_decide. Qed.

Lemma countRefs_snoc (eid : string) (l : list PlanItem) (p : PlanItem) :
  countRefs eid (l ++ [p])
  = (countRefs eid l + if decide (examId p = Some eid) then 1 else 0)%nat.
Proof.
  unfold countRefs. rewrite filter_app, length_app, filter_cons, filter_nil.
  by case_decide.
Qed.

(** C8. [rebalanceBuckets] never reads the table of an active entry: on two
    states with the same year and curriculum whose plans agree entry by
    entry except for the tables of entries that are active in both, it
    gives the same outcome.  Hence the [targetTable] of [addExam], as long
    as it is not Obbligatori, has no effect on the outcome of the call, and
    a second run of [rebalanceBuckets] right after a first leaves the state
    as it is. *)
Theorem rebalanceBuckets_ignores_active_tables :
  (∀ pm1 pm2 : PlanManager,
     year pm1 = year pm2 →
     curriculum pm1 = curriculum pm2 →
     agreeUpToActiveTables (plan pm1) (plan pm2) →
     rebalanceBuckets allExams rules pm1 = rebalanceBuckets allExams rules pm2)
  ∧ (∀ (pm : PlanManager) (exam : Exam) (tt1 tt2 : option string),
       tt1 ≠ Some "Obbligatori" →
       tt2 ≠ Some "Obbligatori" →
       addExam allExams rules exam tt1 pm = addExam allExams rules exam tt2 pm)
  ∧ (∀ pm pm' : PlanManager,
       rebalanceBuckets allExams rules pm = Ret () pm' →
       rebalanceBuckets allExams rules pm' = Ret () pm').
Proof.
  split; [exact rebalanceBuckets_agree|].
  split; [|intros pm pm'; apply rebalanceBuckets_idempotent].
  intros pm exam tt1 tt2 H1 H2. rewrite !addExam_unfold.
  case_bool_decide; [done|]. cbv zeta.
  match goal with
  | |- match rebalanceBuckets _ _ ?a with _ => _ end
       = match rebalanceBuckets _ _ ?b with _ => _ end =>
      rewrite (rebalanceBuckets_agree a b)
  end; try done.
  simpl. apply Forall2_app.
  - apply Forall_Forall2_diag, Forall_forall. by left.
  - constructor; [|constructor]. right.
    split; [done|]. split; simpl; by apply initialTable_active.
Qed.

Lemma forEachActive_app (c : Curriculum) (limits : gmap string Z)
    (minSumBC freeLimit : Z) (act1 act2 newPlan : list PlanItem) :
  forEachActive allExams c limits minSumBC freeLimit newPlan (act1 ++ act2)
  = (np ← forEachActive allExams c limits minSumBC freeLimit newPlan act1;
     forEachActive allExams c limits minSumBC freeLimit np act2).
Proof.
  revert newPlan. induction act1 as [|p act1 IH]; intros newPlan; [done|].
  simpl. destruct (allowedOf allExams c p); [|done]. apply IH.
Qed.

Lemma filter_snoc_mandatory (l : list PlanItem) (p : PlanItem) :
  table p ≠ "Obbligatori" →
  filter (λ p, table p = "Obbligatori") (l ++ [p])
  = filter (λ p, table p = "Obbligatori") l
  ∧ filter (λ p, table p ≠ "Obbligatori") (l ++ [p])
    = filter (λ p, table p ≠ "Obbligatori") l ++ [p].
Proof.
  intros Hp. rewrite !filter_app, !filter_cons, !filter_nil.
  rewrite decide_False, decide_True by done. by rewrite app_nil_r.
Qed.

End Operations.

(** ** Reachable states *)

Section Reachable.

Variable allExams : list Exam.
Variable rules : Rules.
Variable t : string → list (string * Param) → string.

Lemma tableSet_schema (c : Curriculum) (tb : string) :
  tb ∈ tableSet c ∨ tb = "Obbligatori" ∨ tb = "Facoltativi" ∨ tb = "Fuori Piano" →
  tb ∈ schema c.
Proof.
  intros H. destruct c; simpl in *;
    rewrite !elem_of_cons in H; rewrite elem_of_nil in H;
    rewrite !elem_of_cons; tauto.
Qed.

Lemma rebalanceBuckets_balanced (pm pm' : PlanManager) (u : unit) :
  rebalanceBuckets allExams rules pm = Ret u pm' → balanced pm'.
Proof.
  intros H. split.
  - apply rebalanceBuckets_Ret in H as (placed & -> & _ & Htb). simpl.
    apply Forall_app. split.
    + apply Forall_forall. intros p [Hp _]%list_elem_of_filter.
      apply tableSet_schema. tauto.
    + eapply Forall_impl; [exact Htb|]. intros p Hp.
      apply tableSet_schema. simpl in *. tauto.
  - by apply rebalanceBuckets_keeps in H as (_ & _ & _ & _ & H & _).
Qed.

(** A call that returns either leaves plan and curriculum alone or ends
    with a run of [rebalanceBuckets]. *)
Lemma run_cases (call : Call) (pm pm' : PlanManager) :
  run allExams rules t call pm = Ret () pm' →
  (plan pm' = plan pm ∧ curriculum pm' = curriculum pm)
  ∨ ∃ pm0 u, rebalanceBuckets allExams rules pm0 = Ret u pm'.
Proof.
  destruct call; unfold run.
  - intros [= <-]. by left.
  - unfold setCurriculum, migratePlan, bind, modify, gets. eauto.
  - unfold migratePlan, bind, modify, gets. eauto.
  - unfold bind, ret. rewrite addExam_unfold. case_bool_decide.
    + intros [= <-]. by left.
    + cbv zeta. destruct (rebalanceBuckets _ _ _) eqn:Hreb; [|done].
      intros [= <-]. eauto.
  - unfold addCustomExam, bind, modify. eauto.
  - unfold removeExam, bind, modify. case_bool_decide.
    + intros [= <-]. by left.
    + eauto.
  - unfold moveExam, bind, modify, ret.
    destruct (list_find _ _) as [[i item]|].
    + destruct (_ && _).
      * destruct (findExam _ _); [|done]. case_bool_decide.
        -- destruct (rebalanceBuckets _ _ _) eqn:Hreb; [|done].
           intros [= <-]. eauto.
        -- intros [= <-]. by left.
      * destruct (rebalanceBuckets _ _ _) eqn:Hreb; [|done].
        intros [= <-]. eauto.
    + destruct (rebalanceBuckets _ _ _) eqn:Hreb; [|done].
      intros [= <-]. eauto.
  - eauto.
  - unfold validate, bind, gets, orThrow, ret.
    destruct (buildReport _ _ _); [|done]. intros [= <-]. by left.
  - unfold reset, initDefaults, bind, modify. eauto.
  - unfold initDefaults, bind, modify. eauto.
Qed.

Lemma reachable_balanced (pm : PlanManager) : reachable allExams rules t pm → balanced pm.
Proof.
  induction 1 as [|pm pm' call _ IH Hrun].
  - split; [constructor|done].
  - apply run_cases in Hrun as [[Hp Hc] | (pm0 & u & Hreb)].
    + unfold balanced. by rewrite Hp, Hc.
    + by eapply rebalanceBuckets_balanced.
Qed.

(** On a balanced plan the first entry that carries the id of a Mandatory
    entry is itself Mandatory. *)
Lemma find_mandatory_first (pm : PlanManager) (p : PlanItem) :
  balanced pm → p ∈ plan pm → table p = "Obbligatori" →
  table <$> (snd <$> list_find (λ q, item_id q = item_id p) (plan pm))
  = Some "Obbligatori".
Proof.
  intros [_ Hsplit] Hin Hp.
  assert (Hm : p ∈ mandatoryOf (plan pm)) by (by apply list_elem_of_filter).
  destruct (list_find_elem_of (λ q, item_id q = item_id p) _ p Hm eq_refl)
    as [[i q] Hfind].
  assert (Hfind' : list_find (λ q, item_id q = item_id p)
                     (mandatoryOf (plan pm) ++ activeOf (plan pm)) = Some (i, q))
    by (by apply list_find_app_l).
  rewrite <- Hsplit in Hfind'. rewrite Hfind'. simpl.
  apply list_find_Some in Hfind as (Hq%list_elem_of_lookup_2 & _).
  apply list_elem_of_filter in Hq as [Hq _]. by rewrite Hq.
Qed.

(** On a balanced plan, [removeExam] with the id of a Mandatory entry does
    nothing. *)
Lemma removeExam_mandatory (pm : PlanManager) (p : PlanItem) :
  balanced pm → p ∈ plan pm → table p = "Obbligatori" →
  removeExam allExams rules (item_id p) pm = Ret () pm.
Proof.
  intros Hbal Hin Hp. unfold removeExam.
  by rewrite bool_decide_true by (by apply find_mandatory_first).
Qed.

Lemma mandatoryOf_filter (P : PlanItem → Prop) `{∀ p, Decision (P p)}
    (l : list PlanItem) :
  (∀ p, p ∈ l → table p = "Obbligatori" → P p) →
  mandatoryOf (filter P l) = mandatoryOf l.
Proof.
  unfold mandatoryOf. induction l as [|p l IH]; intros HP; [done|].
  rewrite !filter_cons.
  assert (IH' : filter (λ p, table p = "Obbligatori") (filter P l)
                = filter (λ p, table p = "Obbligatori") l).
  { apply IH. intros q Hq. apply HP. by apply elem_of_cons; right. }
  destruct (decide (P p)) as [Hp | Hp].
  - rewrite filter_cons. by rewrite IH'.
  - rewrite decide_False, IH'; [done|].
    intros Hm. apply Hp, HP; [apply elem_of_cons; by left|done].
Qed.

Lemma mandatoryOf_migrate (c : Curriculum) (l : list PlanItem) :
  mandatoryOf (omap (migrateItem allExams c) l) = mandatoryOf l.
Proof.
  unfold mandatoryOf. induction l as [|p l IH]; [done|]. simpl.
  change (list_omap PlanItem PlanItem (migrateItem allExams c) l)
    with (omap (migrateItem allExams c) l).
  rewrite filter_cons. unfold migrateItem at 1.
  destruct (decide (table p = "Obbligatori")) as [Hp | Hp].
  - by rewrite filter_cons, decide_True, IH.
  - destruct (isCustom p); [by rewrite filter_cons, decide_False, IH|].
    destruct (findExam allExams (examId p)) as [exam|]; [|done].
    pose proof (getAllowedTables_subset c exam) as Hsub.
    destruct (getAllowedTables c exam) as [|tb al];
      [by rewrite filter_cons, decide_False, IH|].
    apply Forall_cons in Hsub as [Htb%tableSet_not_mandatory _].
    by rewrite filter_cons, decide_False, IH.
Qed.

(** On a balanced plan, [removeExam], [migratePlan], [setCurriculum] and
    [rebalanceBuckets] all leave the Mandatory entries as they are: none is
    removed, none changes table, and their order is kept. *)
Lemma guarded_calls_keep_mandatory (pm pm' : PlanManager) :
  balanced pm →
  (∃ i, removeExam allExams rules i pm = Ret () pm')
  ∨ migratePlan allExams rules pm = Ret () pm'
  ∨ (∃ c, setCurriculum allExams rules c pm = Ret () pm')
  ∨ rebalanceBuckets allExams rules pm = Ret () pm' →
  mandatoryOf (plan pm') = mandatoryOf (plan pm).
Proof.
  intros Hbal [[i Hrun] | [Hrun | [[c Hrun] | Hrun]]].
  - unfold removeExam in Hrun. case_bool_decide as Hguard.
    + by injection Hrun as <-.
    + unfold bind, modify in Hrun.
      apply rebalanceBuckets_keeps in Hrun as (_ & _ & -> & _). simpl.
      apply mandatoryOf_filter. intros p Hin Hp Hid. apply Hguard.
      rewrite <- Hid. by apply find_mandatory_first.
  - unfold migratePlan, bind, modify, gets in Hrun.
    apply rebalanceBuckets_keeps in Hrun as (_ & _ & -> & _). simpl.
    apply mandatoryOf_migrate.
  - unfold setCurriculum, migratePlan, bind, modify, gets in Hrun.
    apply rebalanceBuckets_keeps in Hrun as (_ & _ & -> & _). simpl.
    apply mandatoryOf_migrate.
  - by apply rebalanceBuckets_keeps in Hrun as (_ & _ & -> & _).
Qed.

(** A run of the pass that returns has resolved every active entry. *)
Lemma rebalanceBuckets_resolves (pm pm' : PlanManager) (u : unit) :
  rebalanceBuckets allExams rules pm = Ret u pm' →
  resolves allExams (plan pm').
Proof.
  intros Hreb%rebalanceBuckets_idempotent.
  rewrite rebalanceBuckets_greedy in Hreb. cbv zeta in Hreb.
  destruct (mapM _ _) as [als|] eqn:Hals; [|done].
  assert (Hsome : is_Some (mapM (allowedOf allExams (curriculum pm'))
                             (activeOf (plan pm')))) by (by eexists).
  apply mapM_is_Some_1 in Hsome.
  apply Forall_forall. intros p Hin Hact Hcustom.
  eapply Forall_forall in Hsome; [|by apply list_elem_of_filter].
  simpl in Hsome. unfold allowedOf in Hsome. rewrite Hcustom in Hsome.
  by apply fmap_is_Some in Hsome.
Qed.

Lemma reachable_resolves (pm : PlanManager) :
  reachable allExams rules t pm → resolves allExams (plan pm).
Proof.
  induction 1 as [|pm pm' call _ IH Hrun].
  - constructor.
  - apply run_cases in Hrun as [[Hp Hc] | (pm0 & u & Hreb)].
    + by rewrite Hp.
    + by eapply rebalanceBuckets_resolves.
Qed.

Lemma countRefs_app (eid : string) (l1 l2 : list PlanItem) :
  countRefs eid (l1 ++ l2) = (countRefs eid l1 + countRefs eid l2)%nat.
Proof. unfold countRefs. by rewrite filter_app, length_app. Qed.

Lemma countRefs_cons (eid : string) (p : PlanItem) (l : list PlanItem) :
  countRefs eid (p :: l)
  = ((if decide (examId p = Some eid) then 1 else 0) + countRefs eid l)%nat.
Proof. unfold countRefs. rewrite filter_cons. by case_decide. Qed.

Lemma countRefs_filter (eid : string) (P : PlanItem → Prop)
    `{∀ p, Decision (P p)} (l : list PlanItem) :
  (countRefs eid (filter P l) ≤ countRefs eid l)%nat.
Proof.
  induction l as [|p l IH]; [done|].
  rewrite filter_cons. case_decide; rewrite !countRefs_cons; lia.
Qed.

Lemma migrateItem_examId (c : Curriculum) (p q : PlanItem) :
  migrateItem allExams c p = Some q → examId q = examId p.
Proof.
  unfold migrateItem. repeat case_match; intros [= <-]; done.
Qed.

Lemma countRefs_migrate (eid : string) (c : Curriculum) (l : list PlanItem) :
  (countRefs eid (omap (migrateItem allExams c) l) ≤ countRefs eid l)%nat.
Proof.
  induction l as [|p l IH]; [done|]. simpl.
  change (list_omap PlanItem PlanItem (migrateItem allExams c) l)
    with (omap (migrateItem allExams c) l).
  destruct (migrateItem allExams c p) as [q|] eqn:Hq.
  - apply migrateItem_examId in Hq. rewrite !countRefs_cons, Hq. lia.
  - rewrite countRefs_cons. lia.
Qed.

Lemma countRefs_insert (eid : string) (l : list PlanItem) (i : nat)
    (p q : PlanItem) :
  l !! i = Some p → examId q = examId p →
  countRefs eid (<[i := q]> l) = countRefs eid l.
Proof.
  revert i. induction l as [|x l IH]; intros [|i] Hl Hq; simplify_eq/=.
  - by rewrite !countRefs_cons, Hq.
  - rewrite !countRefs_cons. by rewrite (IH i).
Qed.

Lemma countRefs_custom (eid : string) (l : list PlanItem) :
  Forall (λ p, examId p = None) l → countRefs eid l = 0%nat.
Proof.
  induction 1 as [|p l Hp _ IH]; [done|].
  by rewrite countRefs_cons, decide_False, IH by (by rewrite Hp).
Qed.

Lemma rebalanceBuckets_unique (pm pm' : PlanManager) (u : unit) :
  rebalanceBuckets allExams rules pm = Ret u pm' →
  uniqueRefs (plan pm) → uniqueRefs (plan pm').
Proof.
  intros (_ & _ & _ & _ & _ & Hperm & _)%rebalanceBuckets_keeps Huniq eid.
  by rewrite (countRefs_perm eid _ _ Hperm).
Qed.

(** Every call keeps the plan free of double references. *)
Lemma run_unique (call : Call) (pm pm' : PlanManager) :
  run allExams rules t call pm = Ret () pm' →
  uniqueRefs (plan pm) → uniqueRefs (plan pm').
Proof.
  intros Hrun Huniq. destruct call; unfold run in Hrun.
  - by injection Hrun as <-.
  - unfold setCurriculum, migratePlan, bind, modify, gets in Hrun. simpl in Hrun.
    eapply rebalanceBuckets_unique; [exact Hrun|]. simpl.
    intros eid. etrans; [apply countRefs_migrate|apply Huniq].
  - unfold migratePlan, bind, modify, gets in Hrun. simpl in Hrun.
    eapply rebalanceBuckets_unique; [exact Hrun|]. simpl.
    intros eid. etrans; [apply countRefs_migrate|apply Huniq].
  - unfold bind, ret in Hrun. rewrite addExam_unfold in Hrun.
    case_bool_decide as Hex; [by injection Hrun as <-|]. cbv zeta in Hrun.
    destruct (rebalanceBuckets _ _ _) as [u pm1|] eqn:Hreb; [|done].
    injection Hrun as <-.
    eapply rebalanceBuckets_unique; [exact Hreb|]. simpl.
    intros eid. rewrite countRefs_snoc. simpl.
    case_decide as Heq; [|specialize (Huniq eid); lia].
    injection Heq as <-. apply countRefs_zero in Hex. lia.
  - unfold addCustomExam, bind, modify in Hrun.
    eapply rebalanceBuckets_unique; [exact Hrun|]. simpl.
    intros eid. rewrite countRefs_snoc. simpl. specialize (Huniq eid). lia.
  - unfold removeExam, bind, modify in Hrun.
    case_bool_decide; [by injection Hrun as <-|].
    eapply rebalanceBuckets_unique; [exact Hrun|]. simpl.
    intros eid. etrans; [apply countRefs_filter|apply Huniq].
  - unfold moveExam, bind, modify, ret in Hrun.
    destruct (list_find _ _) as [[i item]|] eqn:Hfind.
    + assert (Hwrite : uniqueRefs (<[i := setTable newTable item]> (plan pm))).
      { intros eid. apply list_find_Some in Hfind as (Hi & _).
        by rewrite (countRefs_insert eid _ i item). }
      destruct (_ && _).
      * destruct (findExam _ _); [|done]. case_bool_decide.
        -- destruct (rebalanceBuckets _ _ _) as [u pm1|] eqn:Hreb; [|done].
           injection Hrun as <-. by eapply rebalanceBuckets_unique.
        -- by injection Hrun as <-.
      * destruct (rebalanceBuckets _ _ _) as [u pm1|] eqn:Hreb; [|done].
        injection Hrun as <-. by eapply rebalanceBuckets_unique.
    + destruct (rebalanceBuckets _ _ _) as [u pm1|] eqn:Hreb; [|done].
      injection Hrun as <-. by eapply rebalanceBuckets_unique.
  - by eapply rebalanceBuckets_unique.
  - unfold validate, bind, gets, orThrow, ret in Hrun.
    destruct (buildReport _ _ _); [|done]. by injection Hrun as <-.
  - unfold reset, initDefaults, bind, modify in Hrun. simpl in Hrun.
    eapply rebalanceBuckets_unique; [exact Hrun|]. simpl.
    intros eid. rewrite countRefs_custom; [lia|].
    apply Forall_fmap, Forall_forall. done.
  - unfold initDefaults, bind, modify in Hrun.
    eapply rebalanceBuckets_unique; [exact Hrun|]. simpl.
    intros eid. rewrite countRefs_app, (countRefs_custom eid (_ <$> _)).
    + specialize (Huniq eid). lia.
    + apply Forall_fmap, Forall_forall. done.
Qed.

Lemma reachable_unique (pm : PlanManager) :
  reachable allExams rules t pm → uniqueRefs (plan pm).
Proof.
  induction 1 as [|pm pm' call _ IH Hrun].
  - intros eid. vm_compute. lia.
  - by eapply run_unique.
Qed.

(** C9. When no entry has the given id, [moveExam] does what a bare
    [rebalanceBuckets] followed by [return true] does, whatever the
    destination table: the value returned is [true], the plan afterwards
    holds the same entries (up to their tables) as before, and the call
    returns as soon as every active catalogue entry refers to an exam of the
    catalogue, which is the case in every reachable state. *)
Theorem moveExam_unknown_id (pm : PlanManager) (planItemId newTable : string) :
  Forall (λ p, item_id p ≠ planItemId) (plan pm) →
  moveExam allExams rules planItemId newTable pm
  = (rebalanceBuckets allExams rules ;;' ret true) pm
  ∧ (∀ (r : bool) (pm' : PlanManager),
       moveExam allExams rules planItemId newTable pm = Ret r pm' →
       r = true
       ∧ length (plan pm') = length (plan pm)
       ∧ erase <$> plan pm' ≡ₚ erase <$> plan pm)
  ∧ (resolves allExams (plan pm) ∨ reachable allExams rules t pm →
     ∃ pm', moveExam allExams rules planItemId newTable pm = Ret true pm').
Proof.
  intros Hno.
  assert (Hfind : list_find (λ p, item_id p = planItemId) (plan pm) = None)
    by (by apply list_find_None).
  assert (Hmove : moveExam allExams rules planItemId newTable pm
                  = (rebalanceBuckets allExams rules ;;' ret true) pm)
    by (unfold moveExam; by rewrite Hfind).
  split; [done|]. rewrite Hmove. unfold bind, ret. split.
  - intros r pm'.
    destruct (rebalanceBuckets allExams rules pm) as [u pm1|] eqn:Hreb; [|done].
    intros [= <- <-].
    apply rebalanceBuckets_keeps in Hreb as (_ & _ & _ & _ & _ & Hperm & Hlen).
    done.
  - intros Hres.
    assert (Hres' : resolves allExams (plan pm))
      by (destruct Hres as [?|?%reachable_resolves]; done).
    destruct (rebalanceBuckets_total allExams rules pm Hres') as (pm' & ->).
    by exists pm'.
Qed.

(** C6. [addExam] on an exam that some entry already refers to returns
    [false] and leaves the state as it is; a call that returns [true] has
    made the plan exactly one entry longer; and on a plan whose active
    catalogue entries all refer to the catalogue and which refers to the
    exam at most once (every reachable state is such a plan), two calls in
    a row with the same catalogue exam both return, the second returns
    [false] without any change, and exactly one entry refers to the exam
    afterwards. *)
Theorem addExam_at_most_once (pm : PlanManager) (exam : Exam) :
  (∀ tt : option string,
     Exists (λ p, examId p = Some (exam_id exam)) (plan pm) →
     addExam allExams rules exam tt pm = Ret false pm)
  ∧ (∀ (tt : option string) (pm' : PlanManager),
       addExam allExams rules exam tt pm = Ret true pm' →
       length (plan pm') = S (length (plan pm)))
  ∧ (∀ tt1 tt2 : option string,
       exam ∈ allExams →
       (resolves allExams (plan pm)
        ∧ (countRefs (exam_id exam) (plan pm) ≤ 1)%nat)
       ∨ reachable allExams rules t pm →
       ∃ (r1 : bool) (pm1 : PlanManager),
         addExam allExams rules exam tt1 pm = Ret r1 pm1
         ∧ addExam allExams rules exam tt2 pm1 = Ret false pm1
         ∧ countRefs (exam_id exam) (plan pm1) = 1%nat).
Proof.
  split; [|split].
  - intros tt Hex. rewrite addExam_unfold. by rewrite bool_decide_true.
  - intros tt pm'. rewrite addExam_unfold. case_bool_decide; [done|]. cbv zeta.
    destruct (rebalanceBuckets _ _ _) as [u pm1|] eqn:Hreb; [|done].
    intros [= <-].
    apply rebalanceBuckets_keeps in Hreb as (_ & _ & _ & _ & _ & _ & ->).
    simpl. rewrite length_app. simpl. lia.
  - intros tt1 tt2 Hcat Hpm.
    assert (resolves allExams (plan pm)
            ∧ (countRefs (exam_id exam) (plan pm) ≤ 1)%nat) as [Hres Hcount].
    { destruct Hpm as [?|Hreach]; [done|]. split.
      - by apply reachable_resolves.
      - by apply reachable_unique. }
    destruct (decide (Exists (λ p, examId p = Some (exam_id exam)) (plan pm)))
      as [Hex | Hex].
    + exists false, pm. rewrite !addExam_unfold, !bool_decide_true by done.
      split; [done|]. split; [done|].
      pose proof (countRefs_zero (exam_id exam) (plan pm)).
      destruct (countRefs (exam_id exam) (plan pm)) as [|[|n]]; [tauto|done|lia].
    + rewrite addExam_unfold, bool_decide_false by done. cbv zeta.
      match goal with
      | |- context [rebalanceBuckets _ _ ?a] =>
          destruct (rebalanceBuckets_total allExams rules a) as [pm1 Hreb]
      end.
      { simpl. apply resolves_snoc; [done|]. intros _ _. simpl.
        by apply findExam_catalog. }
      rewrite Hreb. exists true, pm1. split; [done|].
      apply rebalanceBuckets_keeps in Hreb as (_ & _ & _ & _ & _ & Hperm & _).
      assert (Hone : countRefs (exam_id exam) (plan pm1) = 1%nat).
      { rewrite (countRefs_perm _ _ _ Hperm). simpl.
        rewrite countRefs_snoc. simpl. rewrite decide_True by done.
        apply countRefs_zero in Hex. lia. }
      split; [|done].
      rewrite addExam_unfold, bool_decide_true; [done|].
      destruct (decide (Exists (λ p, examId p = Some (exam_id exam)) (plan pm1)))
        as [|Hno]; [done|].
      apply countRefs_zero in Hno. lia.
Qed.

End Reachable.

(** ** validate *)

Section Validate.

Variable rules : Rules.
Variable t : string → list (string * Param) → string.

Lemma emptyTables_view (c : Curriculum) :
  viewOf c [] (λ _, 0) (emptyTables c).
Proof.
  intros k. destruct (decide (k ∈ schema c)) as [Hin | Hnot].
  - destruct c; simpl in Hin;
      repeat (apply elem_of_cons in Hin as [-> | Hin]; [by vm_compute|]);
      by apply elem_of_nil in Hin.
  - unfold emptyTables.
    destruct c; simpl in *;
      rewrite !lookup_insert_ne by (intros <-; apply Hnot; repeat constructor);
      apply lookup_empty.
Qed.

Lemma countPlan_view (c : Curriculum) (m : string → Z) (l : list PlanItem) :
  ∀ (acc : Z * gmap string TableStatus) (seen : list PlanItem),
    viewOf c seen m acc.2 →
    Forall (λ p, table p ∈ schema c) l →
    ∃ tbs, countPlan acc l = Some (acc.1 + countedCredits l, tbs)
           ∧ viewOf c (seen ++ l) m tbs.
Proof.
  induction l as [|item rest IH]; intros acc seen Hview Hall.
  - exists acc.2. rewrite app_nil_r. split; [|done].
    change (countedCredits []) with 0. rewrite Z.add_0_r. by destruct acc.
  - apply Forall_cons in Hall as [Hitem Hrest].
    pose proof (Hview (table item)) as Hlook. rewrite decide_True in Hlook by done.
    simpl. unfold countItem at 1. rewrite Hlook. simpl.
    match goal with
    | |- context [countPlan ?a rest] =>
        destruct (IH a (seen ++ [item])) as (tbs & -> & Hview');
          [|exact Hrest|]
    end.
    + simpl. intros k. rewrite lookup_insert.
      rewrite creditsIn_app, creditsIn_cons.
      destruct (decide (table item = k)) as [<- | Hne].
      * rewrite decide_True by done.
        change (creditsIn (table item) []) with 0. do 2 f_equal. lia.
      * rewrite Hview. change (creditsIn k []) with 0.
        case_decide; [|done]. do 2 f_equal. lia.
    + exists tbs. rewrite <- (assoc_L (++)) in Hview'. split; [|done].
      simpl. do 2 f_equal. unfold countedCredits. rewrite filter_cons.
      case_decide; [rewrite sumCfu_cons|]; lia.
Qed.

Lemma setMin_view (c : Curriculum) (l : list PlanItem) (m : string → Z)
    (tbs : gmap string TableStatus) (tb : string) (v : Z) :
  viewOf c l m tbs → tb ∈ schema c →
  ∃ tbs', setMin tb v tbs = Some tbs'
          ∧ viewOf c l (λ k, if decide (k = tb) then v else m k) tbs'.
Proof.
  intros Hview Htb. unfold setMin.
  pose proof (Hview tb) as Hlook. rewrite decide_True in Hlook by done.
  rewrite Hlook. simpl. eexists. split; [done|].
  intros k. rewrite lookup_insert.
  destruct (decide (tb = k)) as [<- | Hne].
  - by rewrite !decide_True.
  - rewrite Hview. by rewrite (decide_False (P := k = tb)).
Qed.

Lemma schema_B_C : "B" ∈ schema F94 ∧ "C" ∈ schema F94.
Proof. split; repeat constructor. Qed.

Lemma checkRule_spec (c : Curriculum) (l : list PlanItem) (m : string → Z)
    (r : Report) (rule : Rule) :
  viewOf c l m (tables r) →
  (source rule = "BC" → c = F94) →
  ∃ r' m',
    checkRule t r rule = Some r'
    ∧ viewOf c l m' (tables r')
    ∧ (∀ k, source rule ≠ k → m' k = m k)
    ∧ totalCredits r' = totalCredits r
    ∧ isValid r' = isValid r && negb (ruleFails c l rule)
    ∧ messages r' = messages r
                    ++ (if ruleFails c l rule then [ruleMessage t l rule] else []).
Proof.
  intros Hview Hbc. unfold checkRule, ruleFails, ruleMessage.
  destruct (decide (source rule = "BC")) as [Hs | Hs].
  - specialize (Hbc Hs) as ->. destruct schema_B_C as [HB HC].
    rewrite (Hview "B"), (Hview "C"), !decide_True by done. simpl.
    destruct (_ <? _); eexists _, m; simpl;
      rewrite ?andb_true_r, ?andb_false_r, ?app_nil_r; done.
  - rewrite (Hview (source rule)).
    destruct (decide (source rule ∈ schema c)) as [Hin | Hout].
    + rewrite bool_decide_true by done. simpl.
      assert (Hview' : viewOf c l
                (λ k, if decide (k = source rule) then min_credits rule else m k)
                (<[source rule := {| current := creditsIn (source rule) l;
                                     min := min_credits rule |}]> (tables r))).
      { intros k. rewrite lookup_insert.
        destruct (decide (source rule = k)) as [<- | Hne].
        - by rewrite !decide_True.
        - rewrite Hview. by rewrite (decide_False (P := k = source rule)). }
      destruct (_ <? _); eexists _, _; simpl;
        (split; [done|]); (split; [exact Hview'|]);
        rewrite ?andb_true_r, ?andb_false_r, ?app_nil_r;
        (split; [intros k Hk; by rewrite decide_False|done]).
    + rewrite bool_decide_false by done. simpl. exists r, m.
      by rewrite andb_true_r, app_nil_r.
Qed.

Lemma checkRules_spec (c : Curriculum) (l : list PlanItem) (rs : list Rule) :
  ∀ (r : Report) (m : string → Z),
    viewOf c l m (tables r) →
    Forall (λ rule, source rule = "BC" → c = F94) rs →
    ∃ r' m',
      checkRules t r rs = Some r'
      ∧ viewOf c l m' (tables r')
      ∧ (∀ k, Forall (λ rule, source rule ≠ k) rs → m' k = m k)
      ∧ totalCredits r' = totalCredits r
      ∧ isValid r' = isValid r && negb (existsb (ruleFails c l) rs)
      ∧ messages r' = messages r
                      ++ (ruleMessage t l <$>
                          filter (λ rule, ruleFails c l rule = true) rs).
Proof.
  induction rs as [|rule rs IH]; intros r m Hview Hbc.
  - exists r, m. simpl. by rewrite andb_true_r, app_nil_r.
  - apply Forall_cons in Hbc as [Hbc1 Hbc].
    destruct (checkRule_spec c l m r rule Hview Hbc1)
      as (r1 & m1 & Hstep & Hview1 & Hm1 & Htot1 & Hval1 & Hmsg1).
    destruct (IH r1 m1 Hview1 Hbc)
      as (r' & m' & Hrun & Hview' & Hm' & Htot' & Hval' & Hmsg').
    exists r', m'. simpl. rewrite Hstep. simpl.
    split; [done|]. split; [done|]. split.
    { intros k [Hk Hks]%Forall_cons. rewrite Hm' by done. by apply Hm1. }
    split; [congruence|].
    rewrite Hval', Hval1, Hmsg', Hmsg1, filter_cons.
    destruct (ruleFails c l rule); simpl.
    + split; [by rewrite andb_false_r|by rewrite <- (assoc_L (++))].
    + by rewrite app_nil_r, andb_true_r.
Qed.

Lemma schema_fixed (c : Curriculum) :
  "Obbligatori" ∈ schema c ∧ "Facoltativi" ∈ schema c ∧ "Fuori Piano" ∈ schema c.
Proof. destruct c; repeat split; repeat constructor. Qed.

(** What [buildReport] computes on a plan whose tables all belong to the
    schema, when the aggregate rule is configured for F94 only. *)
Lemma buildReport_spec (pm : PlanManager) :
  let l := plan pm in
  let c := curriculum pm in
  let progRules := programs rules c in
  Forall (λ p, table p ∈ schema c) l →
  Forall (λ rule, source rule = "BC" → c = F94) progRules →
  ∃ report obb,
    buildReport rules t pm = Some report
    ∧ totalCredits report = countedCredits l
    ∧ (∀ tb, tb ∈ schema c →
         current <$> tables report !! tb = Some (creditsIn tb l))
    ∧ tables report !! "Obbligatori" = Some obb
    ∧ (Forall (λ rule, source rule ≠ "Obbligatori") progRules →
       min obb = mandatoryCredits (common_rules rules))
    ∧ messages report
      = (ruleMessage t l <$> filter (λ rule, ruleFails c l rule = true) progRules)
        ++ (if current obb <? min obb then [t "mandatory_incomplete" []] else [])
        ++ (if totalFails rules l then [totalMessage rules t l] else [])
    ∧ isValid report
      = negb (existsb (ruleFails c l) progRules
              || (current obb <? min obb) || totalFails rules l).
Proof.
  intros l c progRules Htables Hbc. unfold buildReport.
  destruct (schema_fixed c) as (Hobb & Hfac & _).
  destruct (countPlan_view c (λ _, 0) l (0, emptyTables c) [])
    as (tbs0 & Hcount & Hview0); [apply emptyTables_view|done|].
  simpl in Hcount. rewrite Z.add_0_l in Hcount.
  fold c l. rewrite Hcount. simpl.
  destruct (setMin_view c l _ tbs0 "Obbligatori"
              (mandatoryCredits (common_rules rules)) Hview0 Hobb)
    as (tbs1 & -> & Hview1). simpl.
  destruct (setMin_view c l _ tbs1 "Facoltativi"
              (free_exams_credits (common_rules rules)) Hview1 Hfac)
    as (tbs2 & -> & Hview2). simpl.
  fold progRules.
  match goal with
  | |- context [checkRules t ?r0 progRules] =>
      destruct (checkRules_spec c l progRules r0 _ Hview2 Hbc)
        as (r' & m' & -> & Hview' & Hm' & Htot & Hval & Hmsg)
  end.
  simpl in *.
  pose proof (Hview' "Obbligatori") as Hlook.
  rewrite decide_True in Hlook by done. rewrite Hlook. simpl.
  exists
    (let report :=
       if creditsIn "Obbligatori" l <? m' "Obbligatori"
       then fail (t "mandatory_incomplete" []) r' else r' in
     if totalCredits report <? total_credits (common_rules rules)
     then fail (t "total_cfu_status"
                  [("current", PNum (totalCredits report));
                   ("min", PNum (total_credits (common_rules rules)))]) report
     else report),
    {| current := creditsIn "Obbligatori" l; min := m' "Obbligatori" |}.
  split; [done|]. unfold totalFails, totalMessage. simpl.
  destruct (creditsIn "Obbligatori" l <? m' "Obbligatori") eqn:Hmand;
    simpl; rewrite Htot;
    destruct (countedCredits l <? total_credits (common_rules rules)) eqn:Htotal;
    simpl; rewrite ?Htot, ?Hval, ?Hmsg, ?Hlook;
    (split; [done|]);
    (split; [intros tb Htb; rewrite Hview', decide_True by done; done|]);
    (split; [done|]);
    (split; [intros Hno; by rewrite Hm'|]);
    rewrite ?orb_true_r, ?orb_false_r, ?app_nil_r, <- ?(assoc_L (++));
    done.
Qed.

End Validate.

(** With the aggregate rule configured under FBA, [validate] throws on the
    very first state: [report.tables["B"]] is undefined. *)
Example validate_aggregate_under_FBA :
  validate Sample.aggregateUnderFBA Sample.t constructor = Throw.
Proof. vm_compute. reflexivity. Qed.

(** C3 as the specification words it does not hold.  [validate] does
    throw on a reachable state: with the aggregate rule among the rules of
    FBA, right after [initDefaults] on a new engine. *)
Lemma validate_reachable_counterexample :
  reachable Sample.exams Sample.aggregateUnderFBA Sample.t Sample.fresh
  ∧ validate Sample.aggregateUnderFBA Sample.t Sample.fresh = Throw.
Proof.
  split; [|by vm_compute].
  apply (reachable_call _ _ _ constructor Sample.fresh CallInitDefaults).
  - apply reachable_new.
  - by vm_compute.
Qed.

(** ** The report of a reachable state; the frame of validate *)

Section Reports.

Variable allExams : list Exam.
Variable rules : Rules.
Variable t : string → list (string * Param) → string.

(** C3. On every state reached through the calls of the engine, with the
    aggregate B+C rule configured for F94 only, [validate] returns a report
    and leaves the state as it is.  The total of the report is the sum of
    the credits of the entries outside Fuori Piano, while every table of the
    schema, Fuori Piano included, shows the sum of the credits of its
    entries.  The messages are those of all the failed checks, in the order
    the checks are made: one per failed curriculum rule (a table minimum or
    the aggregate rule), then the Mandatory minimum, then the total-credit
    target.  [isValid] is false exactly when at least one of these checks
    failed. *)
Theorem validate_reachable (pm : PlanManager) :
  reachable allExams rules t pm →
  Forall (λ rule, source rule ≠ "BC") (programs rules FBA) →
  let l := plan pm in
  let c := curriculum pm in
  let progRules := programs rules c in
  ∃ report obb,
    validate rules t pm = Ret report pm
    ∧ totalCredits report = countedCredits l
    ∧ (∀ tb, tb ∈ schema c →
         current <$> tables report !! tb = Some (creditsIn tb l))
    ∧ tables report !! "Obbligatori" = Some obb
    ∧ (Forall (λ rule, source rule ≠ "Obbligatori") progRules →
       min obb = mandatoryCredits (common_rules rules))
    ∧ messages report
      = (ruleMessage t l <$> filter (λ rule, ruleFails c l rule = true) progRules)
        ++ (if current obb <? min obb then [t "mandatory_incomplete" []] else [])
        ++ (if totalFails rules l then [totalMessage rules t l] else [])
    ∧ isValid report
      = negb (existsb (ruleFails c l) progRules
              || (current obb <? min obb) || totalFails rules l).
Proof.
  intros [Htables _]%reachable_balanced Hagg l c progRules.
  destruct (buildReport_spec rules t pm Htables) as (report & obb & Hbuild & H).
  - apply Forall_forall. intros rule Hin Hbc. fold c. fold c in Hin.
    destruct c; [|done].
    eapply Forall_forall in Hagg; [|exact Hin]. done.
  - exists report, obb. split; [|exact H].
    unfold validate, bind, gets, orThrow, ret. by rewrite Hbuild.
Qed.

Lemma readOnly_gets {A} (f : PlanManager → A) : readOnly (gets f).
Proof. intros pm a pm'. unfold gets. congruence. Qed.

Lemma readOnly_orThrow {A} (o : option A) : readOnly (orThrow o).
Proof. intros pm a pm'. destruct o; simpl; unfold ret, throw; congruence. Qed.

Lemma readOnly_bind {A B} (m : M A) (f : A → M B) :
  readOnly m → (∀ a, readOnly (f a)) → readOnly (bind m f).
Proof.
  intros Hm Hf pm b pm'. unfold bind.
  destruct (m pm) as [a pm1|] eqn:Hrun; [|done].
  intros Hk. apply Hf in Hk. apply Hm in Hrun. congruence.
Qed.

(** C10. [validate] is read-only: when it returns, the engine is in the
    state it was called in, with the same plan (same entries, tables and
    credits, in the same order), the same active year and the same
    curriculum; no bucket is reassigned. *)
Theorem validate_read_only (pm pm' : PlanManager) (report : Report) :
  validate rules t pm = Ret report pm' →
  pm' = pm
  ∧ plan pm' = plan pm ∧ year pm' = year pm ∧ curriculum pm' = curriculum pm.
Proof.
  intros Hrun.
  assert (Hro : readOnly (validate rules t)).
  { apply readOnly_bind; [apply readOnly_gets|].
    intros a. apply readOnly_orThrow. }
  apply Hro in Hrun. by subst.
Qed.

End Reports.

(** ** The scenarios of the specification, evaluated *)

(** C2, evaluated on a fresh engine whose only entry is the Mandatory
    thesis.  [moveExam] towards Fuori Piano returns [true] and the entry,
    no longer Mandatory, is handed to the pass, which puts it into
    Facoltativi; [removeExam] then deletes it.  [removeExam] alone would
    have left it in place. *)
Theorem moveExam_reassigns_mandatory :
  initDefaults Sample.exams Sample.rules constructor = Ret () Sample.fresh
  ∧ removeExam Sample.exams Sample.rules "final-thesis" Sample.fresh
    = Ret () Sample.fresh
  ∧ moveExam Sample.exams Sample.rules "final-thesis" "Fuori Piano" Sample.fresh
    = Ret true (withPlan [setTable "Facoltativi" Sample.thesis] Sample.fresh)
  ∧ removeExam Sample.exams Sample.rules "final-thesis"
      (withPlan [setTable "Facoltativi" Sample.thesis] Sample.fresh)
    = Ret () (withPlan [] Sample.fresh).
Proof. repeat split; vm_compute; reflexivity. Qed.

Lemma addExam_at_most_once_witness :
  ∃ (r1 : bool) (pm1 : PlanManager),
    addExam Sample.exams Sample.rules (mkExam "e1" 6 "1|A") None Sample.fresh
    = Ret r1 pm1
    ∧ addExam Sample.exams Sample.rules (mkExam "e1" 6 "1|A") (Some "2") pm1
      = Ret false pm1
    ∧ countRefs "e1" (plan pm1) = 1%nat.
Proof.
  apply (proj2 (proj2 (addExam_at_most_once Sample.exams Sample.rules Sample.t
                         Sample.fresh (mkExam "e1" 6 "1|A")))
           None (Some "2")).
  - apply elem_of_cons. left. reflexivity.
  - left. split.
    + repeat constructor. intros H. exfalso. apply H. reflexivity.
    + vm_compute. lia.
Defined.

Lemma rebalanceBuckets_ignores_active_tables_witness :
  rebalanceBuckets Sample.exams Sample.rules
    (withPlan [Sample.thesis; Sample.entry "e1" 6 "Fuori Piano"] Sample.fresh)
  = rebalanceBuckets Sample.exams Sample.rules
      (withPlan [Sample.thesis; Sample.entry "e1" 6 "2"] Sample.fresh)
  ∧ addExam Sample.exams Sample.rules (mkExam "e1" 6 "1|A") (Some "Fuori Piano")
      Sample.fresh
    = addExam Sample.exams Sample.rules (mkExam "e1" 6 "1|A") None Sample.fresh
  ∧ rebalanceBuckets Sample.exams Sample.rules
      (withPlan [Sample.thesis; Sample.entry "e1" 6 "1"] Sample.fresh)
    = Ret () (withPlan [Sample.thesis; Sample.entry "e1" 6 "1"] Sample.fresh).
Proof.
  destruct (rebalanceBuckets_ignores_active_tables Sample.exams Sample.rules)
    as (Hagree & Htarget & Hidem).
  split; [|split].
  - apply Hagree; [reflexivity | reflexivity |].
    constructor; [left; reflexivity|].
    constructor; [|constructor].
    right. split; [reflexivity|]. split; discriminate.
  - apply Htarget; discriminate.
  - apply (Hidem (withPlan [Sample.entry "e1" 6 "Fuori Piano"; Sample.thesis]
                    Sample.fresh)).
    vm_compute. reflexivity.
Defined.

Lemma moveExam_unknown_id_witness :
  moveExam Sample.exams Sample.rules "no-such-entry" "A" Sample.fresh
  = Ret true Sample.fresh.
Proof.
  rewrite (proj1 (moveExam_unknown_id Sample.exams Sample.rules Sample.t
                    Sample.fresh "no-such-entry" "A"
                    ltac:(repeat constructor; discriminate))).
  vm_compute. reflexivity.
Defined.

Lemma validate_read_only_witness :
  (∃ report, validate Sample.rules Sample.t unbalanced = Ret report unbalanced)
  ∧ rebalanceBuckets Sample.exams Sample.rules unbalanced
    = Ret () (withPlan [Sample.thesis; Sample.entry "e1" 6 "1"] Sample.fresh).
Proof.
  split; [|vm_compute; reflexivity].
  destruct (validate Sample.rules Sample.t unbalanced) as [report pm'|] eqn:Hrun.
  - exists report.
    destruct (validate_read_only Sample.rules Sample.t _ _ _ Hrun) as [-> _].
    reflexivity.
  - vm_compute in Hrun. discriminate Hrun.
Defined.

(** * Further properties of the engine *)

(** ** Every reachable state is a fixed point of the pass *)

Section FixedPoint.

Variable allExams : list Exam.
Variable rules : Rules.
Variable t : string → list (string * Param) → string.

(** The pass reads the curriculum and the plan, never the year. *)
Lemma rebalanceBuckets_year (y : string) (pm : PlanManager) :
  rebalanceBuckets allExams rules (withYear y pm)
  = match rebalanceBuckets allExams rules pm with
    | Ret u pm' => Ret u (withYear y pm')
    | Throw => Throw
    end.
Proof.
  unfold rebalanceBuckets. simpl.
  destruct (readLimits _) as [limits minSumBC].
  by destruct (forEachActive _ _ _ _ _ _ _).
Qed.

Lemma same_plan_curriculum (pm pm' : PlanManager) :
  plan pm' = plan pm → curriculum pm' = curriculum pm →
  pm' = withYear (year pm') pm.
Proof. destruct pm, pm'. simpl. by intros -> ->. Qed.

Lemma reachable_fixed (pm : PlanManager) :
  reachable allExams rules t pm →
  rebalanceBuckets allExams rules pm = Ret () pm.
Proof.
  induction 1 as [|pm pm' call _ IH Hrun].
  - unfold rebalanceBuckets. simpl. by destruct (readLimits _).
  - apply run_cases in Hrun as [[Hp Hc] | (pm0 & [] & Hreb)].
    + rewrite (same_plan_curriculum pm pm' Hp Hc), rebalanceBuckets_year.
      by rewrite IH.
    + by eapply rebalanceBuckets_idempotent.
Qed.

(** A fixed point is the Mandatory entries followed by what the loop wrote
    from them. *)
Lemma fixed_loop (pm : PlanManager) :
  rebalanceBuckets allExams rules pm = Ret () pm →
  forEachActive allExams (curriculum pm)
    (readLimits (programs rules (curriculum pm))).1
    (readLimits (programs rules (curriculum pm))).2
    (free_exams_credits (common_rules rules))
    (mandatoryOf (plan pm)) (activeOf (plan pm))
  = Some (plan pm).
Proof.
  unfold rebalanceBuckets.
  destruct (readLimits _) as [limits minSumBC]. simpl.
  unfold mandatoryOf, activeOf.
  destruct (forEachActive _ _ _ _ _ _ _) as [newPlan|]; [|done].
  intros [= Hpm]. f_equal. destruct pm. by injection Hpm.
Qed.

End FixedPoint.

(** ** Where the pass leaves the entries *)

Section Placement.

Variable allExams : list Exam.
Variable rules : Rules.
Variable t : string → list (string * Param) → string.

Lemma creditsIn_mono (tb : string) (l1 l2 : list PlanItem) :
  Forall (λ p, 0 ≤ cfu p) l2 → creditsIn tb l1 ≤ creditsIn tb (l1 ++ l2).
Proof.
  intros Hpos. rewrite creditsIn_app.
  assert (0 ≤ creditsIn tb l2); [|lia].
  induction Hpos as [|p l Hp _ IH]; [done|].
  rewrite creditsIn_cons. case_decide; lia.
Qed.

Lemma tryTables_None (limits : gmap string Z) (minSumBC : Z)
    (newPlan : list PlanItem) (allowed : list string) :
  tryTables limits minSumBC newPlan allowed = None →
  ∀ tb, tb ∈ allowed →
    default 0 (limits !! tb) ≤ creditsIn tb newPlan
    ∧ (tb = "B" ∨ tb = "C" → minSumBC ≤ creditsInBC newPlan).
Proof.
  induction allowed as [|a allowed IH]; simpl.
  - intros _ tb Hin. by apply elem_of_nil in Hin.
  - destruct (_ || _) eqn:Hacc; [done|]. intros Hrest tb Hin.
    apply elem_of_cons in Hin as [-> | Hin]; [|by apply IH].
    apply orb_false_iff in Hacc as [Hmin Hbc].
    apply Z.ltb_ge in Hmin. split; [done|]. intros Hbc'.
    rewrite bool_decide_true in Hbc by done. simpl in Hbc.
    by apply Z.ltb_ge in Hbc.
Qed.

Lemma placedWell_mono (c : Curriculum) (limits : gmap string Z)
    (minSumBC freeLimit : Z) (l1 l2 : list PlanItem) (q : PlanItem) :
  Forall (λ p, 0 ≤ cfu p) l2 →
  placedWell allExams c limits minSumBC freeLimit l1 q →
  placedWell allExams c limits minSumBC freeLimit (l1 ++ l2) q.
Proof.
  intros Hpos (al & Hal & [Hin | (Hpark & Htabs & Hfree)]);
    exists al; (split; [done|]); [by left|right].
  split; [done|]. split.
  - intros tb Htb. destruct (Htabs tb Htb) as [Hmin Hbc].
    pose proof (creditsIn_mono tb l1 l2 Hpos).
    pose proof (creditsIn_mono "B" l1 l2 Hpos).
    pose proof (creditsIn_mono "C" l1 l2 Hpos).
    split; [lia|]. intros Hbc'%Hbc. rewrite creditsInBC_split in *. lia.
  - intros Hfp%Hfree.
    pose proof (creditsIn_mono "Facoltativi" l1 l2 Hpos). lia.
Qed.

Lemma forEachActive_placed (c : Curriculum) (limits : gmap string Z)
    (minSumBC freeLimit : Z) (activeExams : list PlanItem) :
  ∀ newPlan result,
    Forall (λ p, 0 ≤ cfu p) activeExams →
    forEachActive allExams c limits minSumBC freeLimit newPlan activeExams
    = Some result →
    ∃ placed,
      result = newPlan ++ placed
      ∧ Forall (λ p, 0 ≤ cfu p) placed
      ∧ Forall (placedWell allExams c limits minSumBC freeLimit result) placed.
Proof.
  induction activeExams as [|item rest IH]; intros newPlan result Hpos; simpl.
  - intros [= <-]. exists []. by rewrite app_nil_r.
  - apply Forall_cons in Hpos as [Hitem Hrest].
    destruct (allowedOf allExams c item) as [al|] eqn:Hal; [|done].
    intros (placed & -> & Hpos' & Hwell)%IH; [|done].
    eexists (_ :: placed). split; [by rewrite <- (assoc_L (++))|].
    split; [constructor; [exact Hitem|exact Hpos']|]. constructor; [|done].
    apply placedWell_mono; [done|].
    exists al. split; [by rewrite <- Hal; apply allowedOf_erase|].
    unfold assign. simpl.
    destruct (tryTables limits minSumBC newPlan al) as [tb|] eqn:Htry.
    + left. by eapply tryTables_elem.
    + right.
      pose proof (tryTables_None _ _ _ _ Htry) as Hnone.
      pose proof (creditsIn_mono "B" newPlan [setTable "Facoltativi" item]) as HB.
      assert (Hmono : ∀ tb x, tb ∈ al →
                creditsIn tb newPlan
                ≤ creditsIn tb (newPlan ++ [setTable x item])).
      { intros tb x _. apply creditsIn_mono. by constructor. }
      assert (HmonoBC : ∀ x, creditsInBC newPlan
                             ≤ creditsInBC (newPlan ++ [setTable x item])).
      { intros x. rewrite !creditsInBC_split.
        pose proof (creditsIn_mono "B" newPlan [setTable x item]).
        pose proof (creditsIn_mono "C" newPlan [setTable x item]).
        assert (Forall (λ p, 0 ≤ cfu p) [setTable x item]) by (by constructor).
        intuition lia. }
      destruct (creditsIn "Facoltativi" newPlan <? freeLimit) eqn:Hfac.
      * split; [by left|]. split; [|done].
        intros tb Htb. destruct (Hnone tb Htb) as [Hmin Hbc].
        specialize (Hmono tb "Facoltativi" Htb).
        specialize (HmonoBC "Facoltativi"). split; [lia|].
        intros Hbc'%Hbc. lia.
      * split; [by right|]. split.
        -- intros tb Htb. destruct (Hnone tb Htb) as [Hmin Hbc].
           specialize (Hmono tb "Fuori Piano" Htb).
           specialize (HmonoBC "Fuori Piano"). split; [lia|].
           intros Hbc'%Hbc. lia.
        -- intros _. apply Z.ltb_ge in Hfac.
           pose proof (creditsIn_mono "Facoltativi" newPlan
                         [setTable "Fuori Piano" item]
                         ltac:(by constructor)). lia.
Qed.

Lemma allowed_not_parked (c : Curriculum) (q : PlanItem) (al : list string) :
  allowedOf allExams c q = Some al → table q ∈ al → ¬ parked q.
Proof.
  intros Hal Hin [Hp | Hp].
  all: apply allowedOf_subset in Hal.
  all: eapply Forall_forall in Hal; [|exact Hin].
  all: rewrite Hp in Hal.
  all: destruct c; simpl in Hal;
    repeat (apply elem_of_cons in Hal as [Hal | Hal]; [done|]);
    by apply elem_of_nil in Hal.
Qed.

Lemma forEachActive_allowed (c : Curriculum) (limits : gmap string Z)
    (minSumBC freeLimit : Z) (activeExams : list PlanItem) :
  ∀ newPlan result,
    forEachActive allExams c limits minSumBC freeLimit newPlan activeExams
    = Some result →
    ∃ placed,
      result = newPlan ++ placed
      ∧ Forall (λ q, ∃ al, allowedOf allExams c q = Some al
                           ∧ (table q ∈ al ∨ parked q)) placed.
Proof.
  induction activeExams as [|item rest IH]; intros newPlan result; simpl.
  - intros [= <-]. exists []. by rewrite app_nil_r.
  - destruct (allowedOf allExams c item) as [al|] eqn:Hal; [|done].
    intros (placed & -> & Hall)%IH.
    eexists (_ :: placed). split; [by rewrite <- (assoc_L (++))|].
    constructor; [|done].
    exists al. split; [by rewrite <- Hal; apply allowedOf_erase|].
    destruct (assign_cases limits minSumBC freeLimit newPlan al)
      as [? | ?]; [by left|by right].
Qed.

(** On a reachable state every entry sits in Obbligatori, in Facoltativi,
    in Fuori Piano, or in a table its own exam allows under the active
    curriculum; a custom entry is never in a curriculum table. *)
Theorem reachable_wellPlaced (pm : PlanManager) :
  reachable allExams rules t pm →
  Forall (wellPlaced allExams (curriculum pm)) (plan pm)
  ∧ Forall (λ q, isCustom q = true → table q = "Obbligatori" ∨ parked q)
      (plan pm).
Proof.
  intros Hreach.
  pose proof (reachable_fixed allExams rules t pm Hreach) as Hfix.
  apply fixed_loop in Hfix.
  apply forEachActive_allowed in Hfix as (placed & Hplan & Hplaced).
  assert (Hmand : Forall (λ q, table q = "Obbligatori") (mandatoryOf (plan pm))).
  { apply Forall_forall. by intros q [Hq _]%list_elem_of_filter. }
  revert Hmand Hplan. generalize (mandatoryOf (plan pm)). intros mand Hmand ->.
  split; apply Forall_app; split.
  - eapply Forall_impl; [exact Hmand|]. intros q Hq. by left.
  - eapply Forall_impl; [exact Hplaced|]. simpl.
    intros q (al & Hal & [Hin | [Hp | Hp]]); [|by right; left|by right; right; left].
    right. right. right. unfold allowedOf in Hal.
    destruct (isCustom q); [injection Hal as <-; by apply elem_of_nil in Hin|].
    split; [done|].
    destruct (findExam allExams (examId q)) as [exam|]; [|done].
    injection Hal as <-. by exists exam.
  - eapply Forall_impl; [exact Hmand|]. intros q Hq _. by left.
  - eapply Forall_impl; [exact Hplaced|]. simpl.
    intros q (al & Hal & Hcases) Hcustom. right.
    unfold allowedOf in Hal. rewrite Hcustom in Hal. injection Hal as <-.
    destruct Hcases as [Hin | ?]; [by apply elem_of_nil in Hin|done].
Qed.

(** On a reachable state whose credits are not negative, no catalogue
    entry is parked in Facoltativi or Fuori Piano while one of the tables
    its exam allows is below its minimum, or while that table is B or C and
    B+C is below the aggregate minimum; and no entry at all is in Fuori
    Piano while Facoltativi is below the free-credit target. *)
Theorem reachable_parked_only_when_full (pm : PlanManager) (q : PlanItem) :
  reachable allExams rules t pm →
  Forall (λ p, 0 ≤ cfu p) (plan pm) →
  q ∈ plan pm →
  let progRules := programs rules (curriculum pm) in
  (table q = "Fuori Piano" →
   free_exams_credits (common_rules rules) ≤ creditsIn "Facoltativi" (plan pm))
  ∧ (parked q → isCustom q = false →
     ∀ exam tb,
       findExam allExams (examId q) = Some exam →
       tb ∈ getAllowedTables (curriculum pm) exam →
       configuredMin progRules tb ≤ creditsIn tb (plan pm)
       ∧ (tb = "B" ∨ tb = "C" →
          aggregateMin progRules
          ≤ creditsIn "B" (plan pm) + creditsIn "C" (plan pm))).
Proof.
  intros Hreach Hpos Hq progRules.
  pose proof (reachable_fixed allExams rules t pm Hreach) as Hfix.
  apply fixed_loop in Hfix.
  apply forEachActive_placed in Hfix as (placed & Hplan & _ & Hwell).
  2:{ apply Forall_forall. intros p [_ Hp]%list_elem_of_filter.
      by eapply Forall_forall in Hpos. }
  assert (Hcases : table q = "Obbligatori"
                   ∨ placedWell allExams (curriculum pm)
                       (readLimits progRules).1 (readLimits progRules).2
                       (free_exams_credits (common_rules rules)) (plan pm) q).
  { rewrite Hplan in Hq. apply elem_of_app in Hq as [Hq | Hq].
    - left. by apply list_elem_of_filter in Hq as [? _].
    - right. by eapply Forall_forall in Hwell. }
  destruct Hcases as [Hobb | (al & Hal & Hcases)].
  { split; [by rewrite Hobb|]. intros [Hp | Hp]; by rewrite Hobb in Hp. }
  destruct Hcases as [Hin | (_ & Htabs & Hfree)].
  { pose proof (allowed_not_parked _ _ _ Hal Hin) as Hnp.
    split; [intros Hfp; destruct Hnp; by right|]. intros Hp. by destruct Hnp. }
  split; [done|]. intros _ Hcustom exam tb Hexam Htb.
  unfold allowedOf in Hal. rewrite Hcustom, Hexam in Hal. injection Hal as <-.
  destruct (Htabs tb Htb) as [Hmin Hbc].
  destruct (readLimits_spec progRules tb) as [Hlim Hagg].
  rewrite <- Hlim, <- Hagg, <- creditsInBC_split. done.
Qed.

End Placement.

(** ** Changing the curriculum *)

Section Migration.

Variable allExams : list Exam.
Variable rules : Rules.
Variable t : string → list (string * Param) → string.

Lemma migrateItem_cases (c : Curriculum) (p : PlanItem) :
  (survivesMigration allExams p
   ∧ ∃ q, migrateItem allExams c p = Some q
          ∧ erase q = erase p
          ∧ (table q = "Obbligatori" ↔ table p = "Obbligatori"))
  ∨ (¬ survivesMigration allExams p ∧ migrateItem allExams c p = None).
Proof.
  unfold migrateItem, survivesMigration.
  destruct (decide (table p = "Obbligatori")) as [Hp | Hp];
    [left; split; [by left|by exists p]|].
  destruct (isCustom p) eqn:Hcustom;
    [left; split; [by right; left|by exists p]|].
  destruct (findExam allExams (examId p)) as [exam|] eqn:Hexam.
  - left. split; [right; right; by eexists|].
    pose proof (getAllowedTables_subset c exam) as Hsub.
    destruct (getAllowedTables c exam) as [|tb al]; eexists; (split; [done|]).
    + split; [done|]. simpl. split; [done|tauto].
    + apply Forall_cons in Hsub as [Htb%tableSet_not_mandatory _].
      split; [done|]. simpl. tauto.
  - right. split; [|done]. intros [? | [? | [? ?]]]; done.
Qed.

Lemma migrate_shape (c : Curriculum) (l : list PlanItem) :
  mandatoryOf (omap (migrateItem allExams c) l) = mandatoryOf l
  ∧ erase <$> activeOf (omap (migrateItem allExams c) l)
    = erase <$> filter (survivesMigration allExams) (activeOf l)
  ∧ resolves allExams (omap (migrateItem allExams c) l).
Proof.
  split; [apply mandatoryOf_migrate|].
  unfold activeOf, resolves. induction l as [|p l [IHa IHr]]; [by split|].
  simpl.
  change (list_omap PlanItem PlanItem (migrateItem allExams c) l)
    with (omap (migrateItem allExams c) l).
  destruct (migrateItem_cases c p)
    as [(Hkeep & q & -> & Her & Hobb) | (Hdrop & ->)].
  - rewrite !filter_cons.
    destruct (decide (table p ≠ "Obbligatori")) as [Hp | Hp].
    + rewrite decide_True by tauto. rewrite filter_cons, decide_True by done.
      rewrite !fmap_cons, IHa, Her. split; [done|].
      constructor; [|done]. intros _ Hcustom.
      injection Her as _ Hex _ _ Hcu. rewrite Hex.
      destruct Hkeep as [? | [Hk | ?]]; [done| |done].
      rewrite Hcu in Hcustom. congruence.
    + rewrite decide_False by tauto. split; [done|].
      constructor; [|done]. intros Hq. tauto.
  - rewrite filter_cons.
    destruct (decide (table p ≠ "Obbligatori")) as [Hp | Hp].
    + by rewrite filter_cons, decide_False.
    + destruct Hdrop. left.
      by destruct (decide (table p = "Obbligatori")).
Qed.

Lemma filter_all {A} (P : A → Prop) `{∀ x, Decision (P x)} (l : list A) :
  Forall P l → filter P l = l.
Proof.
  induction 1 as [|x l Hx _ IH]; [done|].
  by rewrite filter_cons, decide_True, IH.
Qed.

(** On a plan whose active catalogue entries all refer to the catalogue,
    [setCurriculum] is a change of curriculum followed by the pass. *)
Lemma setCurriculum_resolved (c : Curriculum) (pm : PlanManager) :
  resolves allExams (plan pm) →
  setCurriculum allExams rules c pm
  = rebalanceBuckets allExams rules (withCurriculum c pm).
Proof.
  intros Hres. unfold setCurriculum, migratePlan, bind, modify, gets. simpl.
  destruct (migrate_shape c (plan pm)) as (Hm & Ha & _).
  apply rebalanceBuckets_ext; try done. simpl. rewrite Ha.
  f_equal. apply filter_all.
  apply Forall_forall. intros p [Hact Hin]%list_elem_of_filter.
  eapply Forall_forall in Hres; [|exact Hin].
  unfold survivesMigration. destruct (isCustom p) eqn:Hc; [by right; left|].
  right. right. by apply Hres.
Qed.

Lemma migratePlan_setCurriculum (pm : PlanManager) :
  migratePlan allExams rules pm
  = setCurriculum allExams rules (curriculum pm) pm.
Proof. by destruct pm. Qed.

(** [setCurriculum] (and [migratePlan], which is [setCurriculum] on the
    active curriculum) returns in every state, even one on which the pass
    alone throws: entries whose exam is missing from the catalogue are
    dropped first.  Afterwards the curriculum is the requested one, the year
    is unchanged, the Mandatory entries are those of before, and the active
    entries are, in order and up to their tables, the active entries of
    before that are custom or whose exam is in the catalogue. *)
Theorem setCurriculum_total (c : Curriculum) (pm : PlanManager) :
  migratePlan allExams rules pm
  = setCurriculum allExams rules (curriculum pm) pm
  ∧ ∃ pm',
      setCurriculum allExams rules c pm = Ret () pm'
      ∧ curriculum pm' = c
      ∧ year pm' = year pm
      ∧ mandatoryOf (plan pm') = mandatoryOf (plan pm)
      ∧ erase <$> activeOf (plan pm')
        = erase <$> filter (survivesMigration allExams) (activeOf (plan pm)).
Proof.
  split; [apply migratePlan_setCurriculum|].
  unfold setCurriculum, migratePlan, bind, modify, gets. simpl.
  destruct (migrate_shape c (plan pm)) as (Hm & Ha & Hres).
  match goal with
  | |- context [rebalanceBuckets _ _ ?a] =>
      destruct (rebalanceBuckets_total allExams rules a Hres) as [pm' Hreb]
  end.
  exists pm'. split; [done|].
  apply rebalanceBuckets_keeps in Hreb as (Hy & Hc & Hm' & Ha' & _).
  simpl in *. by rewrite Hm', Ha', Hm, Ha.
Qed.

(** On a reachable state the pass has nothing left to do:
    [rebalanceBuckets], [migratePlan] and [setCurriculum] on the active
    curriculum all return and leave the state exactly as it is. *)
Theorem reachable_is_fixed_point (pm : PlanManager) :
  reachable allExams rules t pm →
  rebalanceBuckets allExams rules pm = Ret () pm
  ∧ migratePlan allExams rules pm = Ret () pm
  ∧ setCurriculum allExams rules (curriculum pm) pm = Ret () pm.
Proof.
  intros Hreach.
  pose proof (reachable_fixed allExams rules t pm Hreach) as Hfix.
  pose proof (reachable_resolves allExams rules t pm Hreach) as Hres.
  assert (Hset : setCurriculum allExams rules (curriculum pm) pm = Ret () pm).
  { rewrite setCurriculum_resolved by done.
    by replace (withCurriculum (curriculum pm) pm) with pm by (by destruct pm). }
  split; [done|]. split; [|done].
  by rewrite migratePlan_setCurriculum.
Qed.

(** Switching a reachable state to any curriculum and back to its own
    restores it: both calls return and the second yields the original
    state, table assignments included. *)
Theorem setCurriculum_round_trip (c : Curriculum) (pm : PlanManager) :
  reachable allExams rules t pm →
  ∃ pm1,
    setCurriculum allExams rules c pm = Ret () pm1
    ∧ curriculum pm1 = c
    ∧ setCurriculum allExams rules (curriculum pm) pm1 = Ret () pm.
Proof.
  intros Hreach.
  pose proof (reachable_fixed allExams rules t pm Hreach) as Hfix.
  pose proof (reachable_resolves allExams rules t pm Hreach) as Hres.
  rewrite setCurriculum_resolved by done.
  destruct (rebalanceBuckets_total allExams rules (withCurriculum c pm) Hres)
    as [pm1 Hreb].
  exists pm1. split; [done|].
  pose proof (rebalanceBuckets_resolves _ _ _ _ _ Hreb) as Hres1.
  apply rebalanceBuckets_keeps in Hreb as (Hy & Hc & Hm & Ha & _).
  simpl in *. split; [done|].
  rewrite setCurriculum_resolved by done.
  by rewrite (rebalanceBuckets_ext allExams rules
                (withCurriculum (curriculum pm) pm1) pm).
Qed.

End Migration.

(** ** Adding, removing and moving entries on a reachable state *)

Section Editing.

Variable allExams : list Exam.
Variable rules : Rules.
Variable t : string → list (string * Param) → string.

Lemma greedyTable_cases (progRules : list Rule) (freeTarget : Z)
    (placed : list PlanItem) (allowed : list string) :
  let tb := greedyTable progRules freeTarget placed allowed in
  tb ∈ allowed ∨ tb = "Facoltativi" ∨ tb = "Fuori Piano".
Proof.
  unfold greedyTable.
  destruct (List.find _ allowed) as [tb|] eqn:Hfind; simpl.
  - left. apply find_some in Hfind as [Hin _]. by apply list_elem_of_In.
  - case_bool_decide; auto.
Qed.

Lemma greedyTable_active (c : Curriculum) (progRules : list Rule)
    (freeTarget : Z) (placed : list PlanItem) (allowed : list string) :
  Forall (λ tb, tb ∈ tableSet c) allowed →
  greedyTable progRules freeTarget placed allowed ≠ "Obbligatori".
Proof.
  intros Hal.
  destruct (greedyTable_cases progRules freeTarget placed allowed)
    as [Hin | [-> | ->]]; [|done..].
  eapply Forall_forall in Hal; [|exact Hin]. by eapply tableSet_not_mandatory.
Qed.

Lemma fixed_balanced (pm : PlanManager) :
  rebalanceBuckets allExams rules pm = Ret () pm →
  plan pm = mandatoryOf (plan pm) ++ activeOf (plan pm).
Proof. by intros (_ & _ & _ & _ & H & _)%rebalanceBuckets_keeps. Qed.

(** On a fixed point, the pass run on the plan extended by one active
    entry leaves the old entries alone and places the new one last. *)
Lemma rebalanceBuckets_append (pm : PlanManager) (item : PlanItem)
    (al : list string) :
  rebalanceBuckets allExams rules pm = Ret () pm →
  table item ≠ "Obbligatori" →
  allowedOf allExams (curriculum pm) item = Some al →
  rebalanceBuckets allExams rules (withPlan (plan pm ++ [item]) pm)
  = Ret ()
      (withPlan
         (plan pm
          ++ [setTable
                (greedyTable (programs rules (curriculum pm))
                   (free_exams_credits (common_rules rules))
                   (activeOf (plan pm)) al)
                item])
         pm).
Proof.
  intros Hfix Hitem Hal.
  pose proof (fixed_balanced pm Hfix) as Hsplit.
  pose proof (fixed_loop allExams rules pm Hfix) as Hloop.
  unfold rebalanceBuckets. simpl.
  pose proof (readLimits_spec (programs rules (curriculum pm))) as Hspec.
  destruct (readLimits (programs rules (curriculum pm))) as [limits minSumBC].
  simpl in *.
  destruct (filter_snoc_mandatory (plan pm) item Hitem) as [-> ->].
  rewrite forEachActive_app. unfold mandatoryOf, activeOf in Hloop.
  rewrite Hloop. simpl. rewrite Hal.
  rewrite Hsplit at 2.
  rewrite (assign_greedy (programs rules (curriculum pm))
             (free_exams_credits (common_rules rules)) limits minSumBC).
  - done.
  - intros tb. apply Hspec.
  - apply (Hspec "").
  - apply Forall_forall. by intros p [Hp _]%list_elem_of_filter.
  - eapply Forall_impl; [by eapply allowedOf_subset|].
    intros tb. apply tableSet_not_mandatory.
Qed.

(** [addExam] on a fixed point of the pass, for an exam that is not yet
    referred to. *)
Lemma addExam_fixed (pm : PlanManager) (exam cat : Exam)
    (target : option string) :
  rebalanceBuckets allExams rules pm = Ret () pm →
  ¬ Exists (λ p, examId p = Some (exam_id exam)) (plan pm) →
  target ≠ Some "Obbligatori" →
  findExam allExams (Some (exam_id exam)) = Some cat →
  addExam allExams rules exam target pm
  = Ret true
      (withPlan
         (plan pm
          ++ [examEntry exam
                (greedyTable (programs rules (curriculum pm))
                   (free_exams_credits (common_rules rules))
                   (activeOf (plan pm))
                   (getAllowedTables (curriculum pm) cat))])
         pm).
Proof.
  intros Hfix Hnew Htarget Hcat.
  rewrite addExam_unfold, bool_decide_false by done. cbv zeta.
  rewrite (rebalanceBuckets_append pm _ (getAllowedTables (curriculum pm) cat));
    [done|done|by apply initialTable_active|].
  unfold allowedOf. simpl. by rewrite Hcat.
Qed.

(** On a reachable state, [addExam] with an exam no entry refers to, and a
    target other than Obbligatori, returns [true] and only appends: every
    entry already in the plan keeps its place and its table.  The new entry
    takes its name and credits from the argument and its table from the
    greedy rule, applied to the tables the catalogue row with the same id
    allows. *)
Theorem addExam_appends (pm : PlanManager) (exam cat : Exam)
    (target : option string) :
  reachable allExams rules t pm →
  ¬ Exists (λ p, examId p = Some (exam_id exam)) (plan pm) →
  target ≠ Some "Obbligatori" →
  findExam allExams (Some (exam_id exam)) = Some cat →
  addExam allExams rules exam target pm
  = Ret true
      (withPlan
         (plan pm
          ++ [examEntry exam
                (greedyTable (programs rules (curriculum pm))
                   (free_exams_credits (common_rules rules))
                   (activeOf (plan pm))
                   (getAllowedTables (curriculum pm) cat))])
         pm).
Proof.
  intros Hreach Hnew Htarget Hcat.
  apply addExam_fixed; [|done..].
  by apply (reachable_fixed allExams rules t).
Qed.

(** On a reachable state, [addCustomExam] with a table other than
    Obbligatori returns and only appends: the existing entries are
    untouched, and the custom entry goes to Facoltativi while Facoltativi
    is below the free-credit target, to Fuori Piano otherwise, whatever
    table was asked for. *)
Theorem addCustomExam_appends (pm : PlanManager) (nm : string) (n : Z)
    (tb now : string) :
  reachable allExams rules t pm →
  tb ≠ "Obbligatori" →
  addCustomExam allExams rules nm n tb now pm
  = Ret ()
      (withPlan
         (plan pm
          ++ [customEntry nm n now
                (if bool_decide (creditsIn "Facoltativi" (plan pm)
                                 < free_exams_credits (common_rules rules))
                 then "Facoltativi" else "Fuori Piano")])
         pm).
Proof.
  intros Hreach Htb.
  pose proof (reachable_fixed allExams rules t pm Hreach) as Hfix.
  unfold addCustomExam, bind, modify.
  rewrite (rebalanceBuckets_append pm _ []); [|done|done|done].
  unfold greedyTable. simpl.
  assert (Hcred : creditsIn "Facoltativi" (plan pm)
                  = creditsIn "Facoltativi" (activeOf (plan pm))).
  { transitivity (creditsIn "Facoltativi"
                    (mandatoryOf (plan pm) ++ activeOf (plan pm)));
      [by rewrite <- (fixed_balanced pm Hfix)|].
    rewrite creditsIn_app, creditsIn_other; [done|].
    apply Forall_forall. intros p [Hp _]%list_elem_of_filter. by rewrite Hp. }
  by rewrite Hcred.
Qed.

Lemma filter_id_snoc (i : string) (l : list PlanItem) (q : PlanItem) :
  Forall (λ p, item_id p ≠ i) l → item_id q = i →
  filter (λ p, item_id p ≠ i) (l ++ [q]) = l
  ∧ list_find (λ p, item_id p = i) (l ++ [q]) = Some (length l, q).
Proof.
  intros Hl Hq. split.
  - rewrite filter_app, filter_cons, decide_False, filter_nil, app_nil_r by tauto.
    by apply filter_all.
  - apply list_find_Some. split; [|split; [done|]].
    + by rewrite lookup_app_r, Nat.sub_diag by lia.
    + intros j p Hj Hlt. rewrite lookup_app_l in Hj by done.
      apply list_elem_of_lookup_2 in Hj. by eapply Forall_forall in Hl.
Qed.

(** [addExam] followed by [removeExam] on a fixed point of the pass. *)
Lemma addExam_removeExam_fixed (pm : PlanManager) (exam cat : Exam)
    (target : option string) :
  rebalanceBuckets allExams rules pm = Ret () pm →
  Forall (λ p, item_id p ≠ exam_id exam) (plan pm) →
  ¬ Exists (λ p, examId p = Some (exam_id exam)) (plan pm) →
  target ≠ Some "Obbligatori" →
  findExam allExams (Some (exam_id exam)) = Some cat →
  ∃ q,
    addExam allExams rules exam target pm
    = Ret true (withPlan (plan pm ++ [q]) pm)
    ∧ item_id q = exam_id exam
    ∧ examId q = Some (exam_id exam)
    ∧ removeExam allExams rules (exam_id exam) (withPlan (plan pm ++ [q]) pm)
      = Ret () pm.
Proof.
  intros Hfix Hids Hnew Htarget Hcat.
  rewrite (addExam_fixed pm exam cat) by done.
  eexists. split; [done|]. split; [done|]. split; [done|].
  unfold removeExam, bind, modify. simpl.
  match goal with
  | |- context [plan pm ++ [?q]] =>
      destruct (filter_id_snoc (exam_id exam) (plan pm) q Hids eq_refl)
        as [-> ->]
  end.
  simpl. rewrite bool_decide_false.
  - by replace (withPlan (plan pm) (withPlan _ pm)) with pm by (by destruct pm).
  - intros [= Hobb]. revert Hobb. apply (greedyTable_active (curriculum pm)).
    apply getAllowedTables_subset.
Qed.

(** Adding an exam and removing it again restores a reachable state: when
    no entry carries the exam's id, neither as its own id nor as a
    reference, [addExam] followed by [removeExam] on that id gives back the
    state, table assignments included. *)
Theorem addExam_removeExam (pm : PlanManager) (exam cat : Exam)
    (target : option string) :
  reachable allExams rules t pm →
  Forall (λ p, item_id p ≠ exam_id exam) (plan pm) →
  ¬ Exists (λ p, examId p = Some (exam_id exam)) (plan pm) →
  target ≠ Some "Obbligatori" →
  findExam allExams (Some (exam_id exam)) = Some cat →
  ∃ pm1,
    addExam allExams rules exam target pm = Ret true pm1
    ∧ length (plan pm1) = S (length (plan pm))
    ∧ removeExam allExams rules (exam_id exam) pm1 = Ret () pm.
Proof.
  intros Hreach Hids Hnew Htarget Hcat.
  pose proof (reachable_fixed allExams rules t pm Hreach) as Hfix.
  destruct (addExam_removeExam_fixed pm exam cat target)
    as (q & Hadd & _ & _ & Hrem); [done..|].
  eexists. split; [exact Hadd|]. simpl.
  split; [rewrite length_app; simpl; lia|done].
Qed.

Lemma agree_insert (l : list PlanItem) (k : nat) (item : PlanItem)
    (tb : string) :
  l !! k = Some item → table item ≠ "Obbligatori" → tb ≠ "Obbligatori" →
  agreeUpToActiveTables (<[k := setTable tb item]> l) l.
Proof.
  revert k. induction l as [|p l IH]; intros [|k] Hk Hitem Htb; simplify_eq/=.
  - constructor.
    + right. by split.
    + apply Forall_Forall2_diag, Forall_forall. by left.
  - constructor; [by left|]. by apply IH.
Qed.

(** On a reachable state, [moveExam] on an entry that is not Mandatory,
    towards any table other than Obbligatori, never changes the state: it
    returns [false] when the entry is a catalogue entry and the destination
    is neither Facoltativi, Fuori Piano nor one of its allowed tables, and
    [true] otherwise, but the pass then decides the table again, as
    before. *)
Theorem moveExam_active_keeps_state (pm : PlanManager)
    (planItemId newTable : string) (k : nat) (item : PlanItem) :
  reachable allExams rules t pm →
  list_find (λ p, item_id p = planItemId) (plan pm) = Some (k, item) →
  table item ≠ "Obbligatori" →
  newTable ≠ "Obbligatori" →
  ∃ r : bool,
    moveExam allExams rules planItemId newTable pm = Ret r pm
    ∧ (r = false ↔
       isCustom item = false
       ∧ newTable ≠ "Facoltativi" ∧ newTable ≠ "Fuori Piano"
       ∧ ∃ exam, findExam allExams (examId item) = Some exam
                 ∧ newTable ∉ getAllowedTables (curriculum pm) exam).
Proof.
  intros Hreach Hfind Hitem Hnew.
  pose proof (reachable_fixed allExams rules t pm Hreach) as Hfix.
  pose proof (reachable_resolves allExams rules t pm Hreach) as Hres.
  pose proof (proj1 (list_find_Some _ _ _ _) Hfind) as (Hk & _ & _).
  assert (Hwrite : (modify (withPlan (<[k := setTable newTable item]> (plan pm))) ;;'
                    rebalanceBuckets allExams rules ;;' ret true) pm
                   = Ret true pm).
  { unfold bind, modify, ret.
    rewrite (rebalanceBuckets_agree allExams rules _ pm), Hfix; try done.
    simpl. by apply agree_insert. }
  unfold moveExam. rewrite Hfind.
  destruct (isCustom item) eqn:Hcustom; simpl.
  { exists true. split; [exact Hwrite|]. split; [done|]. by intros [? _]. }
  eapply Forall_forall in Hres; [|by eapply list_elem_of_lookup_2].
  destruct (Hres Hitem Hcustom) as [exam Hexam].
  rewrite (bool_decide_true (newTable ≠ "Obbligatori")) by done.
  rewrite andb_true_r.
  destruct (decide (newTable = "Facoltativi")) as [-> | Hfac].
  { exists true. split; [exact Hwrite|]. split; [done|]. by intros (_ & ? & _). }
  destruct (decide (newTable = "Fuori Piano")) as [-> | Hfp].
  { exists true. split; [exact Hwrite|]. split; [done|]. by intros (_ & _ & ? & _). }
  rewrite !bool_decide_true by done. simpl. rewrite Hexam.
  case_bool_decide as Hin.
  - exists true. split; [exact Hwrite|]. split; [done|].
    intros (_ & _ & _ & exam' & Hexam' & Hnot). congruence.
  - exists false. split; [done|]. split; [|done]. intros _.
    repeat split; try done. by exists exam.
Qed.

Lemma resolves_insert_mandatory (l : list PlanItem) (k : nat)
    (item : PlanItem) :
  resolves allExams l →
  resolves allExams (<[k := setTable "Obbligatori" item]> l).
Proof.
  unfold resolves. revert k.
  induction l as [|p l IH]; intros k Hres; [done|].
  apply Forall_cons in Hres as [Hp Hl].
  destruct k as [|k]; simpl; constructor; auto. by intros ?.
Qed.

(** On a reachable state [moveExam] towards Obbligatori is accepted for
    every entry, custom or not, allowed there or not: it returns [true], the
    entry is Mandatory afterwards, and [removeExam] on its id then does
    nothing. *)
Theorem moveExam_promotes (pm : PlanManager) (planItemId : string)
    (k : nat) (item : PlanItem) :
  reachable allExams rules t pm →
  list_find (λ p, item_id p = planItemId) (plan pm) = Some (k, item) →
  ∃ pm',
    moveExam allExams rules planItemId "Obbligatori" pm = Ret true pm'
    ∧ setTable "Obbligatori" item ∈ plan pm'
    ∧ length (plan pm') = length (plan pm)
    ∧ removeExam allExams rules planItemId pm' = Ret () pm'.
Proof.
  intros Hreach Hfind.
  pose proof (reachable_resolves allExams rules t pm Hreach) as Hres.
  pose proof (proj1 (list_find_Some _ _ _ _) Hfind) as (Hk & Hid & _).
  unfold moveExam. rewrite Hfind.
  rewrite (bool_decide_false ("Obbligatori" ≠ "Obbligatori")) by (by intros ?).
  rewrite andb_false_r. simpl. unfold bind, modify, ret.
  match goal with
  | |- context [rebalanceBuckets _ _ ?a] =>
      destruct (rebalanceBuckets_total allExams rules a) as [pm' Hreb];
        [by apply resolves_insert_mandatory|]
  end.
  rewrite Hreb. exists pm'. split; [done|].
  assert (Hbal : balanced pm') by (by eapply rebalanceBuckets_balanced).
  pose proof (rebalanceBuckets_keeps _ _ _ _ _ Hreb)
    as (_ & _ & Hm & _ & Hsplit & _ & Hlen).
  simpl in *.
  assert (Hin : setTable "Obbligatori" item ∈ plan pm').
  { rewrite Hsplit, Hm. apply elem_of_app. left.
    apply list_elem_of_filter. split; [done|].
    apply list_elem_of_lookup. exists k.
    apply list_lookup_insert_eq. by eapply lookup_lt_Some. }
  split; [done|]. split; [by rewrite Hlen, length_insert|].
  assert (Hid' : item_id (setTable "Obbligatori" item) = planItemId)
    by (by destruct item).
  rewrite <- Hid'. by apply removeExam_mandatory.
Qed.

Lemma filter_comm {A} (P Q : A → Prop) `{∀ x, Decision (P x)}
    `{∀ x, Decision (Q x)} (l : list A) :
  filter P (filter Q l) = filter Q (filter P l).
Proof.
  induction l as [|x l IH]; [done|].
  rewrite !(filter_cons _ x).
  destruct (decide (Q x)), (decide (P x));
    rewrite ?filter_cons, ?decide_True, ?decide_False by done; by rewrite ?IH.
Qed.

Lemma resolves_filter (P : PlanItem → Prop) `{∀ p, Decision (P p)}
    (l : list PlanItem) :
  resolves allExams l → resolves allExams (filter P l).
Proof.
  unfold resolves. induction 1 as [|p l Hp _ IH]; [constructor|].
  rewrite filter_cons. case_decide; [by constructor|done].
Qed.

(** On a reachable state [removeExam] always returns.  If some Mandatory
    entry carries the id, nothing changes, even for active entries that
    carry the same id.  Otherwise the Mandatory entries are kept and the
    active entries afterwards are, in order and up to their tables, the
    active entries of before whose id is different: every entry with the id
    is removed, not only the first. *)
Theorem removeExam_outcome (pm : PlanManager) (planItemId : string) :
  reachable allExams rules t pm →
  ∃ pm',
    removeExam allExams rules planItemId pm = Ret () pm'
    ∧ (Exists (λ p, item_id p = planItemId ∧ table p = "Obbligatori") (plan pm) →
       pm' = pm)
    ∧ (¬ Exists (λ p, item_id p = planItemId ∧ table p = "Obbligatori") (plan pm) →
       mandatoryOf (plan pm') = mandatoryOf (plan pm)
       ∧ erase <$> activeOf (plan pm')
         = erase <$> filter (λ p, item_id p ≠ planItemId) (activeOf (plan pm))
       ∧ Forall (λ p, item_id p ≠ planItemId) (plan pm')).
Proof.
  intros Hreach.
  pose proof (reachable_resolves allExams rules t pm Hreach) as Hres.
  pose proof (reachable_balanced allExams rules t pm Hreach) as Hbal.
  destruct (decide (Exists (λ p, item_id p = planItemId
                                 ∧ table p = "Obbligatori") (plan pm)))
    as [Hex | Hno].
  - apply Exists_exists in Hex as (p & Hin & <- & Hp).
    exists pm. split; [by apply removeExam_mandatory|]. split; [done|].
    intros Hno. destruct Hno. apply Exists_exists. by exists p.
  - unfold removeExam. rewrite bool_decide_false.
    2:{ intros Hguard. apply Hno.
        destruct (list_find _ _) as [[k q]|] eqn:Hfind; [|done].
        apply list_find_Some in Hfind as (Hk & Hid & _).
        apply Exists_exists. exists q.
        split; [by eapply list_elem_of_lookup_2|]. split; [done|].
        simpl in Hguard. congruence. }
    unfold bind, modify.
    match goal with
    | |- context [rebalanceBuckets _ _ ?a] =>
        destruct (rebalanceBuckets_total allExams rules a) as [pm' Hreb];
          [by apply resolves_filter|]
    end.
    exists pm'. split; [done|]. split; [done|]. intros _.
    pose proof (rebalanceBuckets_keeps _ _ _ _ _ Hreb)
      as (_ & _ & Hm & Ha & _ & Hperm & _).
    simpl in *. split; [|split].
    + rewrite Hm. apply mandatoryOf_filter. intros p Hin Hp Hid.
      apply Hno, Exists_exists. by exists p.
    + rewrite Ha. unfold activeOf. by rewrite filter_comm.
    + apply Forall_forall. intros p Hin Hid.
      assert (Hp : erase p ∈ erase <$> plan pm') by (by apply list_elem_of_fmap_2).
      rewrite Hperm in Hp.
      apply list_elem_of_fmap in Hp as (q & Heq & [Hq _]%list_elem_of_filter).
      apply Hq. transitivity (item_id (erase q)); [by destruct q|].
      rewrite <- Heq. by destruct p.
Qed.

Lemma rebalanceBuckets_mandatory_only (pm : PlanManager) :
  Forall (λ p, table p = "Obbligatori") (plan pm) →
  rebalanceBuckets allExams rules pm = Ret () pm.
Proof.
  intros Hall. unfold rebalanceBuckets.
  destruct (readLimits _) as [limits minSumBC].
  rewrite (filter_all _ _ Hall).
  assert (Hnone : filter (λ p, table p ≠ "Obbligatori") (plan pm) = []).
  { clear -Hall. induction Hall as [|p l Hp _ IH]; [done|].
    by rewrite filter_cons, decide_False by tauto. }
  rewrite Hnone. simpl. by destruct pm.
Qed.

Lemma mandatoryDefaults_credits :
  creditsIn "Obbligatori" (mandatoryDefaults rules)
  = mandatoryCredits (common_rules rules).
Proof.
  unfold mandatoryDefaults, mandatoryCredits.
  generalize (mandatory_exams (common_rules rules)). intros l.
  induction l as [|ex l IH] using rev_ind; [done|].
  rewrite fmap_app, creditsIn_app, foldl_app, IH. simpl.
  rewrite creditsIn_cons. simpl. change (creditsIn "Obbligatori" []) with 0. lia.
Qed.

(** [reset] returns in every state and leaves exactly one Mandatory entry
    per configured mandatory exam, in the configured order, whatever the
    plan held; the Mandatory credits then equal the configured sum, and a
    second [reset] changes nothing. *)
Theorem reset_defaults (pm : PlanManager) :
  reset allExams rules pm = Ret () (withPlan (mandatoryDefaults rules) pm)
  ∧ creditsIn "Obbligatori" (mandatoryDefaults rules)
    = mandatoryCredits (common_rules rules)
  ∧ reset allExams rules (withPlan (mandatoryDefaults rules) pm)
    = Ret () (withPlan (mandatoryDefaults rules) pm).
Proof.
  assert (Hreset : ∀ pm0, reset allExams rules pm0
                          = Ret () (withPlan (mandatoryDefaults rules) pm0)).
  { intros pm0. unfold reset, initDefaults, bind, modify. simpl.
    fold (mandatoryDefaults rules).
    rewrite (rebalanceBuckets_mandatory_only
               (withPlan (mandatoryDefaults rules) (withPlan [] pm0))); [done|].
    simpl. apply Forall_fmap, Forall_forall. done. }
  split; [apply Hreset|]. split; [apply mandatoryDefaults_credits|].
  by rewrite Hreset.
Qed.

(** [initDefaults] does not check what the plan holds: on a reachable state
    it returns with the default Mandatory entries inserted after the
    Mandatory entries already there, so a second call doubles them; the
    other entries keep their order and their tables. *)
Theorem initDefaults_inserts (pm : PlanManager) :
  reachable allExams rules t pm →
  initDefaults allExams rules pm
  = Ret ()
      (withPlan
         (mandatoryOf (plan pm) ++ mandatoryDefaults rules ++ activeOf (plan pm))
         pm).
Proof.
  intros Hreach.
  pose proof (reachable_fixed allExams rules t pm Hreach) as Hfix.
  pose proof (fixed_balanced pm Hfix) as Hsplit.
  pose proof (fixed_loop allExams rules pm Hfix) as Hloop.
  unfold initDefaults, bind, modify. fold (mandatoryDefaults rules).
  unfold rebalanceBuckets. simpl.
  pose proof (readLimits_spec (programs rules (curriculum pm))) as Hspec.
  destruct (readLimits (programs rules (curriculum pm))) as [limits minSumBC].
  simpl in *.
  assert (HD : Forall (λ p, table p = "Obbligatori") (mandatoryDefaults rules)).
  { apply Forall_fmap, Forall_forall. done. }
  assert (HM : Forall (λ p, table p = "Obbligatori") (mandatoryOf (plan pm))).
  { apply Forall_forall. by intros p [Hp _]%list_elem_of_filter. }
  rewrite !filter_app, (filter_all _ _ HD).
  assert (Hnone : filter (λ p, table p ≠ "Obbligatori") (mandatoryDefaults rules)
                  = []).
  { clear -HD. induction HD as [|p l Hp _ IH]; [done|].
    by rewrite filter_cons, decide_False by tauto. }
  rewrite Hnone, app_nil_r.
  change (filter (λ p, table p = "Obbligatori") (plan pm))
    with (mandatoryOf (plan pm)).
  change (filter (λ p, table p ≠ "Obbligatori") (plan pm))
    with (activeOf (plan pm)).
  rewrite <- (app_nil_r (mandatoryOf (plan pm))) in Hloop.
  rewrite (forEachActive_greedy allExams (curriculum pm)
             (programs rules (curriculum pm))) in Hloop;
    [|intros tb; apply Hspec|apply (Hspec "")|done].
  rewrite <- (app_nil_r (mandatoryOf (plan pm) ++ mandatoryDefaults rules)).
  rewrite (forEachActive_greedy allExams (curriculum pm)
             (programs rules (curriculum pm)));
    [|intros tb; apply Hspec|apply (Hspec "")|by apply Forall_app].
  destruct (mapM _ _) as [als|]; [|done]. simpl in *.
  injection Hloop as Hloop.
  match type of Hloop with
  | _ ++ ?g = _ =>
      assert (Hg : g = activeOf (plan pm));
        [apply (app_inv_head (mandatoryOf (plan pm)));
         by rewrite <- Hsplit|]
  end.
  by rewrite Hg, <- (assoc_L (++)).
Qed.

End Editing.

(** ** The pass entry by entry *)

Lemma creditsIn_placedIn (tb : string) (l : list PlanItem) :
  creditsIn tb l = placedIn tb l.
Proof.
  induction l as [|p l IH]; [done|].
  rewrite creditsIn_cons, IH. done.
Qed.

Lemma accepts_takes (progRules : list Rule) (earlier : list PlanItem)
    (tb : string) :
  accepts progRules earlier tb = bool_decide (takes progRules earlier tb).
Proof.
  unfold accepts. rewrite !creditsIn_placedIn.
  destruct (decide (takes progRules earlier tb)) as [H|H].
  - rewrite (bool_decide_true (takes _ _ _)) by done.
    destruct H as [H|H].
    + by rewrite bool_decide_true.
    + rewrite (bool_decide_true (_ ∧ _)) by done. apply orb_true_r.
  - rewrite (bool_decide_false (takes _ _ _)) by done.
    unfold takes in H. rewrite !bool_decide_false; [done|tauto|tauto].
Qed.

Lemma greedyTable_chosen (progRules : list Rule) (freeTarget : Z)
    (earlier : list PlanItem) (allowed : list string) :
  greedyTable progRules freeTarget earlier allowed
  = chosenTable progRules freeTarget earlier allowed.
Proof.
  unfold greedyTable, chosenTable.
  assert (Hfind : List.find (accepts progRules earlier) allowed
                  = firstTaking progRules earlier allowed).
  { induction allowed as [|tb rest IH]; [done|]. simpl.
    rewrite accepts_takes, IH.
    destruct (decide (takes progRules earlier tb)).
    - by rewrite bool_decide_true.
    - by rewrite bool_decide_false. }
  rewrite Hfind, creditsIn_placedIn.
  destruct (firstTaking progRules earlier allowed); [done|].
  destruct (decide (placedIn "Facoltativi" earlier < freeTarget)).
  - by rewrite bool_decide_true.
  - by rewrite bool_decide_false.
Qed.

Lemma placedIn_app (tb : string) (l1 l2 : list PlanItem) :
  placedIn tb (l1 ++ l2) = placedIn tb l1 + placedIn tb l2.
Proof. induction l1 as [|p l1 IH]; simpl; lia. Qed.

Lemma placedIn_active (tb : string) (l : list PlanItem) :
  tb ≠ "Obbligatori" → placedIn tb (activeOf l) = placedIn tb l.
Proof.
  intros Htb. unfold activeOf. induction l as [|p l IH]; [done|].
  rewrite filter_cons. destruct (decide (table p ≠ "Obbligatori")) as [Hp|Hp].
  - simpl. by rewrite IH.
  - simpl. rewrite IH, decide_False; [done|].
    intros Heq. apply Hp. congruence.
Qed.

(** What [greedyPass] adds to the entries already placed: one entry per
    entry to place, in the same order, equal to it up to its table, which
    is the table chosen on what is placed before it. *)
Lemma greedyPass_entries (progRules : list Rule) (freeTarget : Z)
    (todo : list (PlanItem * list string)) (placed0 : list PlanItem) :
  ∃ new,
    greedyPass progRules freeTarget placed0 todo = placed0 ++ new
    ∧ length new = length todo
    ∧ ∀ i p al q,
        todo !! i = Some (p, al) → new !! i = Some q →
        sameEntry p q
        ∧ table q = chosenTable progRules freeTarget (placed0 ++ take i new) al.
Proof.
  revert placed0. induction todo as [|[p al] todo IH]; intros placed0.
  - exists []. split; [by rewrite app_nil_r|]. split; [done|]. by intros i.
  - simpl. destruct (IH (placed0 ++ [setTable (greedyTable progRules freeTarget
                                                 placed0 al) p]))
      as (new & Heq & Hlen & Hnew).
    exists (setTable (greedyTable progRules freeTarget placed0 al) p :: new).
    split; [by rewrite Heq, <- (assoc_L (++))|]. split; [simpl; lia|].
    intros [|i] p' al' q Htodo Hq; simpl in Htodo, Hq.
    + injection Htodo as <- <-. injection Hq as <-.
      split; [by repeat split|].
      simpl. by rewrite app_nil_r, greedyTable_chosen.
    + destruct (Hnew i p' al' q Htodo Hq) as [Hsame Htable].
      split; [done|]. simpl. by rewrite Htable, <- (assoc_L (++)).
Qed.

Lemma allowedOf_allowedFor (allExams : list Exam) (c : Curriculum)
    (p : PlanItem) (al : list string) :
  allowedOf allExams c p = Some al ↔ allowedFor allExams c p al.
Proof.
  unfold allowedOf, allowedFor. destruct (isCustom p).
  - split.
    + intros [= <-]. by left.
    + intros [[_ ->]|[? _]]; done.
  - split.
    + destruct (findExam allExams (examId p)) as [exam|] eqn:Hexam; [|done].
      intros [= <-]. right. split; [done|]. by exists exam.
    + intros [[? _]|[_ (exam & -> & ->)]]; done.
Qed.

Section GreedyPass.

Variable allExams : list Exam.
Variable rules : Rules.

(** C1. [rebalanceBuckets] returns exactly when every active catalogue
    entry refers to an exam of the catalogue (otherwise it throws).  When
    it returns, the year and the curriculum are unchanged and the plan is
    the Mandatory entries, as they were and in their order, followed by one
    entry per active entry, in the order the active entries had: each is
    the active entry with a new table, the first of its allowed tables, in
    their order, in which the credits placed by the earlier entries of the
    pass are below the table's minimum, or which is B or C while the credits
    they placed in B and C together are below the aggregate minimum; failing
    that Facoltativi while the credits they placed there are below the
    free-credit target, and otherwise Fuori Piano.  The table the entry had
    before plays no part.  In particular, on a plan the pass leaves as it
    is, where B and C hold their own minimums while B and C together are
    below the aggregate minimum, adding an exam allowed in B and C puts it
    in B, whatever table other than Obbligatori is asked for. *)
Theorem rebalanceBuckets_greedy_pass :
  (∀ pm : PlanManager,
     (∃ pm', rebalanceBuckets allExams rules pm = Ret () pm')
     ↔ resolves allExams (plan pm))
  ∧ (∀ pm pm' : PlanManager,
       rebalanceBuckets allExams rules pm = Ret () pm' →
       let progRules := programs rules (curriculum pm) in
       let freeTarget := free_exams_credits (common_rules rules) in
       year pm' = year pm ∧ curriculum pm' = curriculum pm
       ∧ ∃ placed,
           plan pm' = mandatoryOf (plan pm) ++ placed
           ∧ length placed = length (activeOf (plan pm))
           ∧ ∀ i p q,
               activeOf (plan pm) !! i = Some p → placed !! i = Some q →
               sameEntry p q
               ∧ ∃ allowed,
                   allowedFor allExams (curriculum pm) p allowed
                   ∧ table q
                     = chosenTable progRules freeTarget (take i placed) allowed)
  ∧ (∀ (pm : PlanManager) (exam : Exam) (target : option string),
       let progRules := programs rules (curriculum pm) in
       rebalanceBuckets allExams rules pm = Ret () pm →
       ¬ Exists (λ p, examId p = Some (exam_id exam)) (plan pm) →
       findExam allExams (Some (exam_id exam)) = Some exam →
       getAllowedTables (curriculum pm) exam = ["B"; "C"] →
       target ≠ Some "Obbligatori" →
       configuredMin progRules "B" ≤ placedIn "B" (plan pm) →
       configuredMin progRules "C" ≤ placedIn "C" (plan pm) →
       placedIn "B" (plan pm) + placedIn "C" (plan pm) < aggregateMin progRules →
       addExam allExams rules exam target pm
       = Ret true
           (withPlan
              (plan pm
               ++ [{| item_id := exam_id exam; examId := Some (exam_id exam);
                      name := exam_name exam; cfu := exam_cfu exam;
                      table := "B"; isCustom := false |}])
              pm)).
Proof.
  split; [|split].
  - intros pm. split; [|apply rebalanceBuckets_total].
    intros [pm' Hrun]. rewrite rebalanceBuckets_greedy in Hrun. cbv zeta in Hrun.
    destruct (mapM _ _) as [als|] eqn:Hals; [|done].
    apply mapM_Some_1 in Hals.
    apply Forall_forall. intros p Hin Hactive Hcustom.
    assert (Hp : p ∈ filter (λ p, table p ≠ "Obbligatori") (plan pm))
      by (by apply list_elem_of_filter).
    apply list_elem_of_lookup in Hp as [i Hi].
    destruct (Forall2_lookup_l _ _ _ _ _ Hals Hi) as (al & _ & Hal).
    unfold allowedOf in Hal. rewrite Hcustom in Hal.
    by destruct (findExam allExams (examId p)).
  - intros pm pm' Hrun progRules freeTarget.
    rewrite rebalanceBuckets_greedy in Hrun. cbv zeta in Hrun.
    destruct (mapM _ _) as [als|] eqn:Hals; [|done].
    injection Hrun as <-. apply mapM_Some_1 in Hals.
    split; [done|]. split; [done|]. simpl.
    destruct (greedyPass_entries progRules freeTarget
                (zip (activeOf (plan pm)) als) [])
      as (placed & Heq & Hlen & Hplaced).
    exists placed. fold progRules freeTarget.
    unfold activeOf in *. rewrite Heq. split; [done|].
    split; [rewrite Hlen, length_zip_with; apply Forall2_length in Hals; lia|].
    intros i p q Hp Hq.
    destruct (Forall2_lookup_l _ _ _ _ _ Hals Hp) as (al & Hal & Hallowed).
    destruct (Hplaced i p al q) as [Hsame Htable]; [|done|].
    { rewrite lookup_zip_with, Hp. simpl. by rewrite Hal. }
    split; [done|]. exists al. split; [by apply allowedOf_allowedFor|done].
  - intros pm exam target progRules Hfix Hnew Hfind Hal Htarget HB HC HBC.
    rewrite (addExam_fixed allExams rules pm exam exam target) by done.
    rewrite Hal, greedyTable_chosen. do 3 f_equal. unfold examEntry. f_equal.
    unfold chosenTable. simpl. fold progRules.
    rewrite decide_True; [done|].
    unfold takes. rewrite !placedIn_active by done.
    right. split; [by left|done].
Qed.

End GreedyPass.

(** ** Availability messages *)

Lemma startsWith_lower (p s : string) :
  JS.startsWith p s = true →
  JS.startsWith (JS.toLowerCase p) (JS.toLowerCase s) = true.
Proof.
  revert s. induction p as [|a p IH]; intros [|b s]; simpl; try done.
  destruct (decide (a = b)) as [->|]; [|done].
  intros H. rewrite decide_True by done. by apply IH.
Qed.

Lemma toLowerCase_length (s : string) :
  String.length (JS.toLowerCase s) = String.length s.
Proof. induction s as [|a s IH]; simpl; congruence. Qed.

Lemma startsWith_length (p s : string) :
  JS.startsWith p s = true → (String.length p ≤ String.length s)%nat.
Proof.
  revert s. induction p as [|a p IH]; intros [|b s]; simpl; try done; [lia..|].
  destruct (decide (a = b)); [|done]. intros H%IH. lia.
Qed.

Lemma includes_short (p s : string) :
  (String.length s < String.length p)%nat → JS.includes p s = false.
Proof.
  induction s as [|b s IH]; intros Hlen.
  - destruct p; [simpl in Hlen; lia|done].
  - change (JS.includes p (String b s))
      with (JS.startsWith p (String b s) || JS.includes p s).
    rewrite IH by (simpl in Hlen; lia). rewrite orb_false_r.
    destruct (JS.startsWith p (String b s)) eqn:Hs; [|done].
    apply startsWith_length in Hs. lia.
Qed.

(** A descriptor that reads [disabled] in some letter case is neither a
    [From] nor a [Biennial] descriptor. *)
Lemma disabled_plain (avail : string) :
  JS.toLowerCase avail = "disabled" →
  JS.startsWith "From " avail = false ∧ JS.includes "Biennial" avail = false.
Proof.
  intros Hlow. split.
  - destruct (JS.startsWith "From " avail) eqn:Hs; [|done].
    apply startsWith_lower in Hs. by rewrite Hlow in Hs.
  - pose proof (toLowerCase_length avail) as Hlen. rewrite Hlow in Hlen.
    destruct avail as [|b s]; [done|].
    change (JS.includes "Biennial" (String b s))
      with (JS.startsWith "Biennial" (String b s) || JS.includes "Biennial" s).
    rewrite (includes_short "Biennial" s) by (simpl in *; lia).
    rewrite orb_false_r.
    destruct (JS.startsWith "Biennial" (String b s)) eqn:Hs; [|done].
    apply startsWith_lower in Hs. by rewrite Hlow in Hs.
Qed.

Section Availability.

Variable t : string → list (string * Param) → string.

(** An exam that [isExamAvailable] rejects always gets a message from
    [getNextAvailabilityInfo], never [null]: the raw descriptor for a
    disabled exam, the [available_from] template with the text after
    [From ] for a start year not yet reached, and for a biennial exam the
    template of the parity the descriptor names. *)
Theorem unavailable_exam_message (pm : PlanManager) (exam : Exam) :
  isExamAvailable pm exam = false →
  ∃ avail,
    JS.truthy (availability exam) = Some avail
    ∧ getNextAvailabilityInfo t pm exam
      = Some (if decide (JS.toLowerCase avail = "disabled") then avail
              else if JS.startsWith "From " avail
              then t "available_from"
                     [("date", PStr (JS.replace "From " "" avail))]
              else if JS.includes "Even" avail
              then t "next_activation_even" []
              else t "next_activation_odd" []).
Proof.
  unfold isExamAvailable, getNextAvailabilityInfo.
  destruct (JS.truthy (availability exam)) as [avail|]; [|done].
  intros Hun. exists avail. split; [done|].
  destruct (decide (JS.toLowerCase avail = "enabled")) as [|Hen]; [done|].
  destruct (decide (JS.toLowerCase avail = "disabled")) as [Hdis|Hdis].
  - destruct (disabled_plain avail Hdis) as [-> ->]. done.
  - destruct (JS.startsWith "From " avail); [done|].
    destruct (JS.includes "Biennial" avail); [|done].
    destruct (JS.includes "Even" avail); simpl in *.
    + by rewrite Hun.
    + destruct (JS.includes "Odd" avail); [|done]. simpl.
      apply negb_false_iff in Hun. by rewrite Hun.
Qed.

End Availability.

(** ** Allowed tables *)

Lemma priority_inj (a b : string) :
  a ∈ ["A"; "B"; "C"] → b ∈ ["A"; "B"; "C"] → priority a = priority b → a = b.
Proof.
  rewrite !elem_of_cons.
  intros [->|[->|[->|[]%elem_of_nil]]] [->|[->|[->|[]%elem_of_nil]]];
    vm_compute; congruence.
Qed.

(** Under F94 the allowed tables depend only on which tags the [rawTable]
    string holds and how often, not on their order in the string. *)
Theorem getAllowedTables_F94_order_free (exam1 exam2 : Exam) :
  parts exam1 ≡ₚ parts exam2 →
  getAllowedTables F94 exam1 = getAllowedTables F94 exam2.
Proof.
  intros Hperm.
  apply (StronglySorted_unique_strong byPriority).
  - intros a b Ha Hb Hab Hba.
    pose proof (getAllowedTables_subset F94 exam1) as H1.
    pose proof (getAllowedTables_subset F94 exam2) as H2.
    rewrite Forall_forall in H1, H2.
    apply priority_inj; [by apply H1|by apply H2|].
    unfold byPriority in *. lia.
  - apply (StronglySorted_merge_sort _).
  - apply (StronglySorted_merge_sort _).
  - simpl. rewrite !merge_sort_Permutation. by rewrite Hperm.
Qed.

(** ** The report accounts for every credit *)

Lemma counted_plus_out (l : list PlanItem) :
  countedCredits l + creditsIn "Fuori Piano" l = sumCfu l.
Proof.
  unfold countedCredits. induction l as [|p l IH]; [done|].
  rewrite filter_cons, creditsIn_cons, sumCfu_cons.
  destruct (decide (table p = "Fuori Piano")) as [Hp|Hp].
  - rewrite decide_False by tauto. lia.
  - rewrite decide_True by done. rewrite sumCfu_cons. lia.
Qed.

Lemma sumTables_ext (tbs : list string) (f g : string → Z) :
  (∀ tb, tb ∈ tbs → f tb = g tb) → sumTables tbs f = sumTables tbs g.
Proof.
  induction tbs as [|tb tbs IH]; intros Hfg; [done|]. simpl.
  rewrite IH, (Hfg tb).
  - done.
  - apply elem_of_cons; by left.
  - intros tb' Hin. apply Hfg, elem_of_cons. by right.
Qed.

Lemma sumTables_one (tbs : list string) (tb0 : string) (n : Z) :
  NoDup tbs → tb0 ∈ tbs →
  sumTables tbs (λ tb, if decide (tb0 = tb) then n else 0) = n.
Proof.
  induction 1 as [|tb tbs Hnotin Hnd IH]; intros Hin.
  - by apply elem_of_nil in Hin.
  - simpl. destruct (decide (tb0 = tb)) as [->|Hne].
    + rewrite (sumTables_ext tbs _ (λ _, 0)).
      * clear. induction tbs; simpl; lia.
      * intros tb' Hin'. rewrite decide_False; [done|]. by intros <-.
    + apply elem_of_cons in Hin as [?|Hin]; [done|]. rewrite IH by done. lia.
Qed.

Lemma sumTables_creditsIn (tbs : list string) (l : list PlanItem) :
  NoDup tbs → Forall (λ p, table p ∈ tbs) l →
  sumTables tbs (λ tb, creditsIn tb l) = sumCfu l.
Proof.
  intros Hnd. induction 1 as [|p l Hp _ IH]; simpl.
  - clear. induction tbs; simpl; [done|].
    change (creditsIn a []) with 0. lia.
  - rewrite sumCfu_cons, <- IH, <- (sumTables_one tbs (table p) (cfu p)) by done.
    clear. induction tbs as [|tb tbs IH]; simpl; [done|].
    rewrite creditsIn_cons, IH. lia.
Qed.

Lemma schema_NoDup (c : Curriculum) : NoDup (schema c).
Proof. destruct c; by apply (bool_decide_unpack _). Qed.

Section Accounting.

Variable allExams : list Exam.
Variable rules : Rules.
Variable t : string → list (string * Param) → string.

(** On a reachable state the report of [validate] accounts for every credit
    of the plan: the total it reports and the credits it shows for Fuori
    Piano add up to the credits of all entries, and so do the credits it
    shows for the tables of the schema taken together. *)
Theorem validate_accounts_every_credit (pm : PlanManager) :
  reachable allExams rules t pm →
  Forall (λ rule, source rule = "BC" → curriculum pm = F94)
    (programs rules (curriculum pm)) →
  ∃ report,
    validate rules t pm = Ret report pm
    ∧ totalCredits report + shown report "Fuori Piano" = sumCfu (plan pm)
    ∧ sumTables (schema (curriculum pm)) (shown report) = sumCfu (plan pm).
Proof.
  intros Hreach Hbc.
  destruct (reachable_balanced allExams rules t pm Hreach) as [Htables _].
  destruct (buildReport_spec rules t pm Htables Hbc)
    as (report & obb & Hbuild & Htotal & Hcur & _).
  exists report. split.
  { unfold validate, bind, gets, orThrow. by rewrite Hbuild. }
  assert (Hshown : ∀ tb, tb ∈ schema (curriculum pm) →
                         shown report tb = creditsIn tb (plan pm)).
  { intros tb Hin. unfold shown. by rewrite (Hcur tb Hin). }
  split.
  - rewrite Htotal, Hshown; [apply counted_plus_out|].
    destruct (curriculum pm); simpl; rewrite !elem_of_cons; tauto.
  - rewrite (sumTables_ext _ _ (λ tb, creditsIn tb (plan pm)) Hshown).
    apply sumTables_creditsIn; [apply schema_NoDup|done].
Qed.

End Accounting.

(** * The catalogue loader *)

Lemma append_nil_r (s : string) : s +:+ "" = s.
Proof.
  induction s as [|a s IH]; [done|].
  change (String a (s +:+ "") = String a s). by rewrite IH.
Qed.

Lemma append_assoc (s1 s2 s3 : string) :
  (s1 +:+ s2) +:+ s3 = s1 +:+ (s2 +:+ s3).
Proof.
  induction s1 as [|a s1 IH]; [done|].
  change (String a ((s1 +:+ s2) +:+ s3) = String a (s1 +:+ s2 +:+ s3)).
  by rewrite IH.
Qed.

Lemma without_app (c : ascii) (s1 s2 : string) :
  without c (s1 +:+ s2) ↔ without c s1 ∧ without c s2.
Proof.
  induction s1 as [|a s1 IH].
  - change ("" +:+ s2) with s2. simpl. tauto.
  - change (String a s1 +:+ s2) with (String a (s1 +:+ s2)). simpl. tauto.
Qed.

(** Inside quotes every character but a quote is kept. *)
Lemma splitRow_quoted (s current rest : string) (row : list string) :
  without Text.quote s →
  splitRow true current row (s +:+ rest)
  = splitRow true (current +:+ s) row rest.
Proof.
  revert current. induction s as [|a s IH]; intros current Hs; simpl.
  - by rewrite append_nil_r.
  - destruct Hs as [Ha Hs]. rewrite decide_False by done.
    rewrite andb_false_r, IH by done.
    by rewrite append_assoc.
Qed.

(** Outside quotes every character but a quote and a comma is kept. *)
Lemma splitRow_plain (s current rest : string) (row : list string) :
  without Text.quote s → without "," s →
  splitRow false current row (s +:+ rest)
  = splitRow false (current +:+ s) row rest.
Proof.
  revert current. induction s as [|a s IH]; intros current Hq Hc; simpl.
  - by rewrite append_nil_r.
  - destruct Hq as [Ha Hq], Hc as [Ha' Hc]. rewrite decide_False by done.
    rewrite bool_decide_false by done. simpl.
    rewrite IH by done. by rewrite append_assoc.
Qed.

Lemma splitRow_field (f : bool * string) (rest : string) (row : list string) :
  without Text.quote f.2 → (f.1 = false → without "," f.2) →
  splitRow false "" row (rendered f +:+ rest) = splitRow false f.2 row rest.
Proof.
  destruct f as [[] s]; unfold rendered; simpl; intros Hq Hc.
  - rewrite append_assoc, splitRow_quoted by done.
    change (String Text.quote "" +:+ rest) with (String Text.quote rest).
    by simpl.
  - by rewrite splitRow_plain by auto.
Qed.

Lemma splitRow_fields (fields : list (bool * string)) (row : list string) :
  fields ≠ [] →
  Forall (λ f, without Text.quote f.2 ∧ (f.1 = false → without "," f.2)) fields →
  splitRow false "" row (Text.join "," (rendered <$> fields))
  = row ++ (snd <$> fields).
Proof.
  intros Hne Hall. revert row.
  induction Hall as [|f fields [Hq Hc] Hall IH]; intros row; [done|].
  destruct fields as [|g fields].
  - simpl. rewrite <- (append_nil_r (rendered f)).
    by rewrite splitRow_field.
  - change (Text.join "," (rendered <$> f :: g :: fields))
      with (rendered f +:+ "," +:+ Text.join "," (rendered <$> g :: fields)).
    rewrite splitRow_field by done.
    change ("," +:+ ?s) with (String "," s).
    change (splitRow false f.2 row (String "," ?s))
      with (splitRow false "" (row ++ [f.2]) s).
    rewrite IH by done. by rewrite <- (assoc_L (++)).
Qed.

(** The field splitter of [minimalCSVParse] undoes the usual rendering of
    a record: fields joined by commas, each either as it is, when it holds
    neither a quote nor a comma, or wrapped in quotes, when it holds no
    quote, come back exactly, commas inside quotes included. *)
Theorem splitRow_rendered (fields : list (bool * string)) :
  fields ≠ [] →
  Forall (λ f, without Text.quote f.2 ∧ (f.1 = false → without "," f.2)) fields →
  splitRow false "" [] (Text.join "," (rendered <$> fields)) = snd <$> fields.
Proof. intros Hne Hall. by rewrite splitRow_fields. Qed.

Lemma splitRow_invariant (line current : string) (row : list string)
    (inQuote : bool) :
  without Text.quote current → Forall (without Text.quote) row →
  Forall (without Text.quote) (splitRow inQuote current row line)
  ∧ (length row < length (splitRow inQuote current row line))%nat.
Proof.
  revert current row inQuote.
  induction line as [|a line IH]; intros current row inQuote Hcur Hrow; simpl.
  - split; [|rewrite length_app; simpl; lia].
    apply Forall_app. split; [done|]. by constructor.
  - destruct (decide (a = Text.quote)) as [|Ha]; [by apply IH|].
    destruct (bool_decide (a = ","%char) && negb inQuote).
    + destruct (IH "" (row ++ [current]) inQuote) as [Hall Hlen]; [done| |].
      * apply Forall_app. split; [done|]. by constructor.
      * split; [done|]. rewrite length_app in Hlen. simpl in Hlen. lia.
    + apply IH; [|done]. apply without_app. by split.
Qed.

(** Whatever the line, the field splitter returns at least one field and
    no field holds a quote character: quotes only switch the quoted mode, so
    a doubled quote inside a quoted field is dropped, not read as a quote. *)
Theorem splitRow_drops_quotes (line : string) :
  splitRow false "" [] line ≠ []
  ∧ Forall (without Text.quote) (splitRow false "" [] line).
Proof.
  destruct (splitRow_invariant line "" [] false) as [Hall Hlen]; [done..|].
  split; [|done]. intros Heq. rewrite Heq in Hlen. simpl in Hlen. lia.
Qed.

Lemma orNumber_nonzero (n : option Z) (d : Z) : d ≠ 0 → orNumber n d ≠ 0.
Proof. intros Hd. by destruct n as [[| |]|]. Qed.

Lemma processExamRow_numbers (row : gmap string string) :
  row_cfu (processExamRow row) ≠ 0 ∧ row_period (processExamRow row) ≠ 0.
Proof. split; by apply orNumber_nonzero. Qed.

Lemma rowObject_lookup (headers row : list string) (h : string) :
  length row = length headers →
  is_Some (rowObject headers row !! h) ↔ h ∈ headers.
Proof.
  intros Hlen. unfold rowObject.
  assert (Hgen : ∀ (hvs : list (string * string)) (obj : gmap string string),
             is_Some (foldl (λ obj hv, <[hv.1 := cell hv.2]> obj) obj hvs !! h)
             ↔ is_Some (obj !! h) ∨ h ∈ hvs.*1).
  { induction hvs as [|[h' v] hvs IH]; intros obj; simpl.
    - rewrite elem_of_nil. tauto.
    - rewrite IH, lookup_insert_is_Some', elem_of_cons.
      split; [intros [[->|?]|?]|intros [?|[->|?]]]; auto. }
  rewrite Hgen, lookup_empty, fst_zip by lia.
  split; [intros [[? [=]]|?]; done|by right].
Qed.

Lemma omap_decide {A B} (P : A → Prop) `{∀ x, Decision (P x)} (f : A → B)
    (l : list A) :
  omap (λ x, if decide (P x) then Some (f x) else None) l = f <$> filter P l.
Proof.
  induction l as [|x l IH]; [done|]. simpl.
  change (list_omap _ _ ?g l) with (omap g l). rewrite IH, filter_cons.
  by destruct (decide (P x)).
Qed.

(** [minimalCSVParse] throws exactly when the text has no line that is not
    blank.  Otherwise the first such line gives the headers and the exams
    are, in order, those of the later lines whose number of fields is the
    number of headers: such a line is kept, any other is skipped without
    notice.  No exam has 0 credits or period 0, and every exam has the same
    fields defined: its id when the first line has a column [Exams], its
    table tags when it has a column [table], its availability when it has a
    column spelled [avaiability]. *)
Theorem minimalCSVParse_outcome (text : string) :
  match minimalCSVParse text with
  | None => Forall (λ l, JS.trim l = "") (Text.splitLines text)
  | Some exams =>
      ∃ first rest,
        csvLines text = first :: rest
        ∧ exams
          = (λ line, processExamRow
                       (rowObject (JS.trim <$> JS.split "," first)
                          (splitRow false "" [] line)))
            <$> filter (λ line, length (splitRow false "" [] line)
                                = length (JS.trim <$> JS.split "," first)) rest
        ∧ (length exams ≤ length rest)%nat
        ∧ Forall (λ e,
            row_cfu e ≠ 0 ∧ row_period e ≠ 0
            ∧ (is_Some (row_id e)
               ↔ "Exams" ∈ JS.trim <$> JS.split "," first)
            ∧ (is_Some (row_rawTable e)
               ↔ "table" ∈ JS.trim <$> JS.split "," first)
            ∧ (is_Some (row_availability e)
               ↔ "avaiability" ∈ JS.trim <$> JS.split "," first)) exams
  end.
Proof.
  unfold minimalCSVParse.
  destruct (csvLines text) as [|first rest] eqn:Hlines.
  - apply Forall_forall. intros l Hin.
    destruct (decide (0 < String.length (JS.trim l))%nat) as [Hpos|Hzero].
    + assert (Hl : l ∈ csvLines text) by (by apply list_elem_of_filter).
      rewrite Hlines in Hl. by apply elem_of_nil in Hl.
    + destruct (JS.trim l); [done|simpl in Hzero; lia].
  - exists first, rest. split; [done|].
    assert (Hkept : omap (parseLine (JS.trim <$> JS.split "," first)) rest
                    = (λ line, processExamRow
                                 (rowObject (JS.trim <$> JS.split "," first)
                                    (splitRow false "" [] line)))
                      <$> filter (λ line, length (splitRow false "" [] line)
                                          = length (JS.trim <$> JS.split "," first))
                            rest).
    { unfold parseLine. apply omap_decide. }
    rewrite Hkept. split; [done|]. split.
    + rewrite length_fmap. apply length_filter.
    + apply Forall_fmap, Forall_forall. intros line [Hlen _]%list_elem_of_filter.
      simpl.
      destruct (processExamRow_numbers
                  (rowObject (JS.trim <$> JS.split "," first)
                     (splitRow false "" [] line))) as [Hcfu Hper].
      split; [done|]. split; [done|].
      split; [|split]; by apply rowObject_lookup.
Qed.

(** The number [processExamRow] stores for a column read with
    [parseInt(v) || d]: the integer that starts the text, and [d] when the
    column is missing, does not start with an integer, or starts with 0. *)
Lemma orNumber_parseIntOf (v : option string) (d : Z) :
  orNumber (parseIntOf v) d
  = match v with
    | Some text =>
        match JS.parseInt text with
        | Some n => if decide (n = 0) then d else n
        | None => d
        end
    | None => d
    end.
Proof.
  unfold parseIntOf. destruct v as [text|]; simpl.
  - by destruct (JS.parseInt text) as [[| |]|].
  - done.
Qed.

(** Whichever parser reads the catalogue, every exam [parseExams] returns
    is [processExamRow] of a row object, those of PapaParse when it is
    loaded, and [processExamRow] stores as credits the integer that starts
    the [CFU] column, or 6 when the column is missing, does not start with
    an integer or starts with 0, and likewise as period the integer of the
    [Period] column, or 1.  So no exam has 0 credits or period 0.
    [parseExams] throws only without PapaParse, on a text with no line that
    is not blank. *)
Theorem parseExams_credits (Papa : option (string → list (gmap string string)))
    (csvText : string) :
  match parseExams Papa csvText with
  | Some exams =>
      (∃ rows, exams = processExamRow <$> rows
               ∧ ∀ parse, Papa = Some parse → rows = parse csvText)
      ∧ Forall (λ e, row_cfu e ≠ 0 ∧ row_period e ≠ 0) exams
  | None => Papa = None ∧ csvLines csvText = []
  end
  ∧ ∀ row : gmap string string,
      row_cfu (processExamRow row)
      = match row !! "CFU" with
        | Some text =>
            match JS.parseInt text with
            | Some n => if decide (n = 0) then 6 else n
            | None => 6
            end
        | None => 6
        end
      ∧ row_period (processExamRow row)
        = match row !! "Period" with
          | Some text =>
              match JS.parseInt text with
              | Some n => if decide (n = 0) then 1 else n
              | None => 1
              end
          | None => 1
          end.
Proof.
  split.
  - destruct Papa as [parse|]; simpl.
    + split.
      * exists (parse csvText). split; [done|]. by intros ? [= <-].
      * apply Forall_fmap, Forall_forall. intros row _.
        apply processExamRow_numbers.
    + unfold minimalCSVParse.
      destruct (csvLines csvText) as [|first rest]; [done|]. split.
      * unfold parseLine. rewrite omap_decide.
        exists ((λ line, rowObject (JS.trim <$> JS.split "," first)
                           (splitRow false "" [] line))
                <$> filter (λ line, length (splitRow false "" [] line)
                                    = length (JS.trim <$> JS.split "," first))
                      rest).
        split; [by rewrite <- list_fmap_compose|]. by intros ? [=].
      * apply Forall_forall. intros e He.
        apply list_elem_of_omap in He as (line & _ & Hline).
        unfold parseLine in Hline. case_decide; [|done]. injection Hline as <-.
        apply processExamRow_numbers.
  - intros row. split; apply orNumber_parseIntOf.
Qed.

(** The loader on a small catalogue: the header is trimmed, the quoted
    field keeps its comma, the row with two fields and the blank line are
    skipped, and the unreadable credits become 6. *)
Example minimalCSVParse_sample :
  (λ e, (row_id e, row_cfu e, row_rawTable e))
  <$> default []
        (minimalCSVParse
           ("Exams, CFU ,table" +:+ String Text.LF "Algo,9,A|B"
            +:+ String Text.CR (String Text.LF "bad,row")
            +:+ String Text.LF "  "
            +:+ String Text.LF ("X,n/a," +:+ String Text.quote "1, 2"
                                +:+ String Text.quote "")))
  = [(Some "Algo", 9, Some "A|B"); (Some "X", 6, Some "1, 2")].
Proof. by vm_compute. Qed.

(** * The translator *)

Lemma getSubstitution_plain (matched before after r : string) :
  without Text.dollar r → Text.getSubstitution matched before after r = r.
Proof.
  induction r as [|c r IH]; [done|]. intros [Hc Hr]. simpl.
  rewrite decide_False by done. by rewrite IH.
Qed.

Lemma drop_app (p s : string) : JS.drop (String.length p) (p +:+ s) = s.
Proof. induction p as [|a p IH]; [done|]. exact IH. Qed.

Lemma replaceFrom_skip (p r before s rest : string) :
  without Text.open s →
  Text.replaceFrom (String Text.open p) r before (s +:+ rest)
  = Text.replaceFrom (String Text.open p) r (before +:+ s) rest.
Proof.
  revert before. induction s as [|a s IH]; intros before Hs.
  - by rewrite append_nil_r.
  - destruct Hs as [Ha Hs].
    change (String a s +:+ rest) with (String a (s +:+ rest)).
    change (Text.replaceFrom (String Text.open p) r before (String a (s +:+ rest)))
      with (if JS.startsWith (String Text.open p) (String a (s +:+ rest))
            then before
                 +:+ Text.getSubstitution (String Text.open p) before
                       (JS.drop (String.length (String Text.open p))
                          (String a (s +:+ rest))) r
                 +:+ JS.drop (String.length (String Text.open p))
                       (String a (s +:+ rest))
            else Text.replaceFrom (String Text.open p) r
                   (before +:+ String a "") (s +:+ rest)).
    assert (Hno : JS.startsWith (String Text.open p) (String a (s +:+ rest))
                  = false).
    { simpl. rewrite decide_False; [done|]. by intros <-. }
    rewrite Hno, IH by done. by rewrite append_assoc.
Qed.

Lemma startsWith_other_name (k k' rest : string) :
  k ≠ k' → without Text.close k → without Text.close k' →
  JS.startsWith (k +:+ String Text.close "")
    (k' +:+ String Text.close rest) = false.
Proof.
  revert k'. induction k as [|a k IH]; intros [|b k'] Hne Hk Hk'; try done.
  - destruct Hk' as [Hb _].
    change (JS.startsWith (String Text.close "") (String b (k' +:+ String Text.close rest))
            = false).
    simpl. rewrite decide_False; [done|]. by intros <-.
  - destruct Hk as [Ha _].
    change (JS.startsWith (String a (k +:+ String Text.close ""))
              (String Text.close rest) = false).
    simpl. by rewrite decide_False.
  - destruct Hk as [_ Hk], Hk' as [_ Hk'].
    change (JS.startsWith (String a (k +:+ String Text.close ""))
              (String b (k' +:+ String Text.close rest)) = false).
    simpl. destruct (decide (a = b)) as [->|]; [|done].
    apply IH; [congruence|done..].
Qed.

Lemma replaceFrom_template (k v before : string) (segs : list I18n.Segment) :
  without Text.open k → without Text.close k → without Text.dollar v →
  Forall I18n.wellFormed segs →
  Text.replaceFrom (I18n.placeholder k) v before (I18n.templateText segs)
  = before +:+ I18n.templateText (I18n.fillFirst k v segs).
Proof.
  intros Hko Hkc Hv Hsegs. revert before.
  induction Hsegs as [|seg segs Hseg _ IH]; intros before.
  - by rewrite append_nil_r.
  - destruct seg as [s|k']; simpl in Hseg.
    + change (I18n.templateText (I18n.Lit s :: segs))
        with (s +:+ I18n.templateText segs).
      unfold I18n.placeholder. rewrite replaceFrom_skip by done.
      fold (I18n.placeholder k). rewrite IH. simpl.
      change (I18n.templateText (I18n.Lit s :: ?l))
        with (s +:+ I18n.templateText l).
      by rewrite append_assoc.
    + destruct Hseg as [Hko' Hkc'].
      simpl I18n.fillFirst. destruct (decide (k' = k)) as [->|Hne].
      * change (I18n.templateText (I18n.Hole k :: segs))
          with (I18n.placeholder k +:+ I18n.templateText segs).
        change (I18n.templateText (I18n.Lit v :: segs))
          with (v +:+ I18n.templateText segs).
        generalize (I18n.templateText segs). intros rest.
        destruct (I18n.placeholder k +:+ rest) as [|c s] eqn:Hs; [done|].
        change (Text.replaceFrom (I18n.placeholder k) v before (String c s))
          with (if JS.startsWith (I18n.placeholder k) (String c s)
                then before
                     +:+ Text.getSubstitution (I18n.placeholder k) before
                           (JS.drop (String.length (I18n.placeholder k))
                              (String c s)) v
                     +:+ JS.drop (String.length (I18n.placeholder k))
                           (String c s)
                else Text.replaceFrom (I18n.placeholder k) v
                       (before +:+ String c "") s).
        rewrite <- Hs, startsWith_app, drop_app.
        by rewrite getSubstitution_plain.
      * change (I18n.templateText (I18n.Hole k' :: ?l))
          with (I18n.placeholder k' +:+ I18n.templateText l).
        generalize (I18n.templateText (I18n.fillFirst k v segs)) (IH) .
        generalize (I18n.templateText segs). intros rest filled IH'.
        change (I18n.placeholder k' +:+ rest)
          with (String Text.open ((k' +:+ String Text.close "") +:+ rest)).
        change (Text.replaceFrom (I18n.placeholder k) v before
                  (String Text.open ((k' +:+ String Text.close "") +:+ rest)))
          with (if JS.startsWith (I18n.placeholder k)
                     (String Text.open ((k' +:+ String Text.close "") +:+ rest))
                then before
                     +:+ Text.getSubstitution (I18n.placeholder k) before
                           (JS.drop (String.length (I18n.placeholder k))
                              (String Text.open
                                 ((k' +:+ String Text.close "") +:+ rest))) v
                     +:+ JS.drop (String.length (I18n.placeholder k))
                           (String Text.open
                              ((k' +:+ String Text.close "") +:+ rest))
                else Text.replaceFrom (I18n.placeholder k) v
                       (before +:+ String Text.open "")
                       ((k' +:+ String Text.close "") +:+ rest)).
        assert (Hno : JS.startsWith (I18n.placeholder k)
                        (String Text.open ((k' +:+ String Text.close "") +:+ rest))
                      = false).
        { unfold I18n.placeholder. simpl.
          rewrite append_assoc.
          change (String Text.close "" +:+ rest) with (String Text.close rest).
          apply startsWith_other_name; [congruence|done..]. }
        rewrite Hno. unfold I18n.placeholder at 1.
        rewrite replaceFrom_skip.
        2:{ apply without_app. split; [done|]. by split. }
        fold (I18n.placeholder k). rewrite IH'.
        rewrite !append_assoc. f_equal.
        change (String Text.open (k' +:+ String Text.close "" +:+ filled)
                = String Text.open ((k' +:+ String Text.close "") +:+ filled)).
        by rewrite append_assoc.
Qed.

Lemma pretty_N_go_without (c : ascii) (x : N) (s : string) :
  (∀ d, pretty_N_char d ≠ c) → without c s → without c (pretty_N_go x s).
Proof.
  intros Hc. revert s. induction (N.lt_wf_0 x) as [x _ IH]; intros s Hs.
  destruct (decide (x = 0)%N) as [->|Hx]; [by rewrite pretty_N_go_0|].
  rewrite pretty_N_go_step by lia. apply IH.
  - apply N.div_lt; lia.
  - by split.
Qed.

(** The decimal text of an integer holds digits and a minus sign only. *)
Lemma ofNumber_without (c : ascii) (n : Z) :
  (∀ d, pretty_N_char d ≠ c) → c ≠ "-"%char → without c (Text.ofNumber n).
Proof.
  intros Hc Hminus.
  assert (Hpos : ∀ x : positive, without c (pretty x)).
  { intros x. unfold pretty, pretty_positive, pretty, pretty_N.
    rewrite decide_False by done. by apply pretty_N_go_without. }
  unfold Text.ofNumber, pretty, pretty_Z. destruct n as [|x|x].
  - split; [|done]. apply (Hc 0%N).
  - apply Hpos.
  - split; [by apply not_eq_sym|apply Hpos].
Qed.

Lemma plainParam_text (kv : string * Param) :
  I18n.plainParam kv →
  without Text.open (I18n.paramText kv.2)
  ∧ without Text.dollar (I18n.paramText kv.2).
Proof.
  destruct kv as [k [s|n]]; intros (_ & _ & Hv); simpl in *; [done|].
  split; apply ofNumber_without; try done;
    intros d; unfold pretty_N_char; by repeat case_match.
Qed.

Lemma fillFirst_wellFormed (k v : string) (segs : list I18n.Segment) :
  without Text.open v → Forall I18n.wellFormed segs →
  Forall I18n.wellFormed (I18n.fillFirst k v segs).
Proof.
  intros Hv. induction 1 as [|seg segs Hseg Hsegs IH]; [constructor|].
  destruct seg as [s|k']; simpl.
  - by constructor.
  - case_decide; by constructor.
Qed.

(** [t] fills a template in: when the dictionary text is a sequence of
    plain pieces and placeholders, each parameter in turn replaces the first
    placeholder that bears its name, and only that one; a parameter without
    a placeholder changes nothing.  This holds for numbers and for strings
    free of opening braces and dollar signs. *)
Theorem t_interpolates (dictionary : gmap string string) (key : string)
    (segs : list I18n.Segment) (params : list (string * Param)) :
  dictionary !! key = Some (I18n.templateText segs) →
  Forall I18n.wellFormed segs →
  Forall I18n.plainParam params →
  I18n.t dictionary key params = I18n.templateText (I18n.fill params segs).
Proof.
  intros Hkey Hsegs Hparams. unfold I18n.t, I18n.fill. rewrite Hkey.
  clear Hkey. revert segs Hsegs.
  induction Hparams as [|kv params Hkv _ IH]; intros segs Hsegs; [done|].
  destruct (plainParam_text kv Hkv) as [Hvo Hvd].
  destruct Hkv as (Hko & Hkc & _).
  simpl. unfold Text.replace.
  rewrite replaceFrom_template by done.
  apply IH. by apply fillFirst_wellFormed.
Qed.

(** * The page *)

Lemma groups_init (tbs : list string) (groups : gmap string (list PlanItem))
    (tb : string) :
  foldl (λ groups tb, <[tb := []]> groups) groups tbs !! tb
  = if decide (tb ∈ tbs) then Some [] else groups !! tb.
Proof.
  revert groups. induction tbs as [|tb' tbs IH]; intros groups; [done|].
  simpl. rewrite IH.
  destruct (decide (tb ∈ tbs)) as [Hin|Hnotin].
  - rewrite decide_True; [done|]. apply elem_of_cons. by right.
  - destruct (decide (tb' = tb)) as [->|Hne].
    + rewrite lookup_insert_eq. rewrite decide_True; [done|].
      apply elem_of_cons. by left.
    + rewrite lookup_insert_ne by done. rewrite decide_False; [done|].
      rewrite elem_of_cons. intros [?|?]; congruence.
Qed.

Lemma groupItem_cases (groups : gmap string (list PlanItem))
    (item : PlanItem) :
  (∀ tb, is_Some (groups !! tb) → tb ∉ objectPrototype) →
  match groupItem groups item with
  | None => table item ∈ objectPrototype
  | Some groups' =>
      (table item ∉ objectPrototype)
      ∧ (∀ tb, is_Some (groups' !! tb) → tb ∉ objectPrototype)
      ∧ ∀ tb, groups' !! tb
              = if decide (table item = tb)
                then Some (default [] (groups !! tb) ++ [item])
                else groups !! tb
  end.
Proof.
  intros Hown. unfold groupItem.
  destruct (groups !! table item) as [g|] eqn:Hg.
  - rewrite Hg.
    assert (Hitem : table item ∉ objectPrototype) by (apply Hown; by eexists).
    split; [done|]. split.
    + intros tb [x Hx]. destruct (decide (table item = tb)) as [<-|Hne]; [done|].
      rewrite lookup_insert_ne in Hx by done. apply Hown. by eexists.
    + intros tb. destruct (decide (table item = tb)) as [<-|Hne].
      * by rewrite lookup_insert_eq, Hg.
      * by rewrite lookup_insert_ne.
  - destruct (decide (table item ∈ objectPrototype)) as [Hin|Hnotin].
    + by rewrite Hg.
    + rewrite lookup_insert_eq. split; [done|]. split.
      * intros tb [x Hx]. destruct (decide (table item = tb)) as [<-|Hne]; [done|].
        rewrite !lookup_insert_ne in Hx by done. apply Hown. by eexists.
      * intros tb. destruct (decide (table item = tb)) as [<-|Hne].
        -- by rewrite lookup_insert_eq, Hg.
        -- by rewrite !lookup_insert_ne.
Qed.

Lemma foldl_groupItem_None (statePlan : list PlanItem) :
  foldl (λ groups item, groups ≫= λ g, groupItem g item) None statePlan = None.
Proof. by induction statePlan. Qed.

Lemma foldl_groupItem (statePlan : list PlanItem)
    (groups : gmap string (list PlanItem)) :
  (∀ tb, is_Some (groups !! tb) → tb ∉ objectPrototype) →
  match foldl (λ groups item, groups ≫= λ g, groupItem g item)
          (Some groups) statePlan with
  | None => Exists (λ p, table p ∈ objectPrototype) statePlan
  | Some result =>
      Forall (λ p, table p ∉ objectPrototype) statePlan
      ∧ ∀ tb, result !! tb
              = if decide (is_Some (groups !! tb)
                           ∨ Exists (λ p, table p = tb) statePlan)
                then Some (default [] (groups !! tb)
                           ++ filter (λ p, table p = tb) statePlan)
                else None
  end.
Proof.
  revert groups. induction statePlan as [|p l IH]; intros groups Hown.
  - simpl. split; [constructor|]. intros tb.
    destruct (groups !! tb) as [g|] eqn:Hg.
    + rewrite decide_True by (left; by eexists). simpl. by rewrite app_nil_r.
    + rewrite decide_False; [done|].
      intros [[? [=]]|H%Exists_nil]; done.
  - simpl. pose proof (groupItem_cases groups p Hown) as Hstep.
    destruct (groupItem groups p) as [groups1|].
    2:{ rewrite foldl_groupItem_None. by left. }
    destruct Hstep as (Hp & Hown1 & Hlook).
    specialize (IH groups1 Hown1).
    destruct (foldl _ (Some groups1) l) as [result|]; [|by right].
    destruct IH as [Hall Hres]. split; [by constructor|].
    intros tb. rewrite Hres, Hlook, filter_cons.
    destruct (decide (table p = tb)) as [Heq|Hne].
    + rewrite !decide_True; [|right; by left|left; by eexists].
      simpl. by rewrite <- (assoc_L (++)).
    + destruct (decide (is_Some (groups !! tb) ∨ Exists (λ p, table p = tb) l))
        as [Hyes|Hno].
      * rewrite decide_True; [done|].
        destruct Hyes as [?|?]; [by left|right; by right].
      * rewrite decide_False; [done|].
        intros [?|[?|?]%Exists_cons]; tauto.
Qed.

Lemma sortedTables_own (c : Curriculum) (tb : string) :
  is_Some (foldl (λ groups tb, <[tb := []]> groups)
             (∅ : gmap string (list PlanItem)) (sortedTables c) !! tb) →
  tb ∉ objectPrototype.
Proof.
  rewrite groups_init, lookup_empty.
  destruct (decide (tb ∈ sortedTables c)) as [Hin|]; [|by intros [? [=]]].
  intros _.
  assert (Hall : Forall (λ tb, tb ∉ objectPrototype) (sortedTables c))
    by (destruct c; by apply (bool_decide_unpack _)).
  rewrite Forall_forall in Hall. by apply Hall.
Qed.

(** [groupedPlan] throws exactly when some entry sits in a table named
    like a member of [Object.prototype], for which no group is created.
    Otherwise it shows every entry exactly once: the group of a table holds
    the entries of that table in plan order; the tables of [sortedTables],
    which are those of the schema of [validate], always have a group, any
    other table has one only when an entry sits in it. *)
Theorem groupedPlan_groups (c : Curriculum) (statePlan : list PlanItem) :
  sortedTables c = schema c
  ∧ match groupedPlan c statePlan with
    | None => Exists (λ p, table p ∈ objectPrototype) statePlan
    | Some groups =>
        Forall (λ p, table p ∉ objectPrototype) statePlan
        ∧ ∀ tb, groups !! tb
                = if decide (tb ∈ sortedTables c
                             ∨ Exists (λ p, table p = tb) statePlan)
                  then Some (filter (λ p, table p = tb) statePlan)
                  else None
    end.
Proof.
  split; [by destruct c|].
  unfold groupedPlan.
  pose proof (foldl_groupItem statePlan
                (foldl (λ groups tb, <[tb := []]> groups) ∅ (sortedTables c)))
    as Hfold.
  destruct (foldl _ (Some _) statePlan) as [groups|].
  - destruct Hfold as [Hall Hres].
    { apply sortedTables_own. }
    split; [done|]. intros tb. rewrite Hres, groups_init, lookup_empty.
    destruct (decide (tb ∈ sortedTables c)) as [Hin|Hnotin].
    + rewrite !decide_True; [done|by left|left; by eexists].
    + destruct (decide (Exists (λ p, table p = tb) statePlan)) as [Hex|Hno].
      * rewrite !decide_True; [done|by right|by right].
      * rewrite !decide_False; [done|tauto|].
        intros [[? [=]]|?]; done.
  - apply Hfold, sortedTables_own.
Qed.

(** An entry in a table named [constructor] makes [groupedPlan] throw; on
    the plan of [parkedPlan] Table 1 shows e1 and e2. *)
Example groupedPlan_inherited_name :
  groupedPlan FBA [Sample.entry "e1" 6 "constructor"] = None
  ∧ (groupedPlan FBA (plan parkedPlan) ≫= λ groups, groups !! "1")
    = Some [Sample.entry "e1" 6 "1"; Sample.entry "e2" 6 "1"].
Proof. split; by vm_compute. Qed.

Lemma merge_sort_nil (l : list string) :
  merge_sort byPriority l = [] ↔ l = [].
Proof.
  split; [|by intros ->].
  intros H. apply Permutation_nil. rewrite <- H.
  by rewrite merge_sort_Permutation.
Qed.

Section Page.

Variable allExams : list Exam.
Variable rules : Rules.
Variable t : string → list (string * Param) → string.

(** The tables the catalogue page shows for an exam are those the engine
    allows for it: [getDisplayTables] joins the tags that
    [getAllowedTables] returns, in the order of the [rawTable] string (which
    under F94 may differ from the engine's priority order), and shows the
    translation of Facoltativi exactly when the engine allows no table. *)
Theorem getDisplayTables_allowed (c : Curriculum) (exam : Exam) :
  let shownTables := filter (λ tb, tb ∈ tableSet c) (parts exam) in
  shownTables ≡ₚ getAllowedTables c exam
  ∧ (c = FBA → shownTables = getAllowedTables c exam)
  ∧ getDisplayTables t c exam
    = if decide (getAllowedTables c exam = [])
      then t "Facoltativi" [] else Text.join " | " shownTables.
Proof.
  intros shownTables. split; [|split].
  - destruct c; simpl; [done|]. by rewrite merge_sort_Permutation.
  - by intros ->.
  - unfold getDisplayTables. subst shownTables.
    assert (Hlen : ∀ l : list string,
               (if decide (0 < length l)%nat
                then Text.join " | " l else t "Facoltativi" [])
               = if decide (l = [])
                 then t "Facoltativi" [] else Text.join " | " l).
    { intros [|x l]; [done|]. simpl length.
      rewrite decide_True by lia. by rewrite decide_False. }
    destruct (JS.truthy (rawTable exam)) as [raw|] eqn:Hraw.
    + assert (Hparts : JS.trim <$> JS.split "|" raw = parts exam)
        by (unfold parts; by rewrite Hraw).
      rewrite Hparts. destruct c; rewrite Hlen; [done|].
      unfold getAllowedTables, tableSet.
      destruct (decide (filter (λ tb, tb ∈ ["A"; "B"; "C"]) (parts exam) = []))
        as [Hnil|Hne].
      * rewrite decide_True; [done|]. by apply merge_sort_nil.
      * rewrite decide_False; [done|]. by rewrite merge_sort_nil.
    + assert (Hparts : parts exam = [""])
        by (unfold parts; by rewrite Hraw).
      destruct c; unfold getAllowedTables; rewrite Hparts; by vm_compute.
Qed.

Lemma validate_Ret (pm : PlanManager) :
  Forall (λ p, table p ∈ schema (curriculum pm)) (plan pm) →
  Forall (λ rule, source rule = "BC" → curriculum pm = F94)
    (programs rules (curriculum pm)) →
  refreshState rules t pm = Ret () pm.
Proof.
  intros Htables Hbc.
  destruct (buildReport_spec rules t pm Htables Hbc) as (report & _ & Hbuild & _).
  unfold refreshState, validate, bind, gets, orThrow, ret. by rewrite Hbuild.
Qed.

(** On a reachable state, [toggleExam] on a catalogue exam that is not in
    the plan, and whose id no entry bears, adds one entry; a second
    [toggleExam] on the same exam removes it again and gives back the state
    exactly, table assignments included. *)
Theorem toggleExam_twice (pm : PlanManager) (exam cat : Exam) :
  reachable allExams rules t pm →
  Forall (λ rule, source rule = "BC" → curriculum pm = F94)
    (programs rules (curriculum pm)) →
  Forall (λ p, item_id p ≠ exam_id exam) (plan pm) →
  ¬ Exists (λ p, examId p = Some (exam_id exam)) (plan pm) →
  findExam allExams (Some (exam_id exam)) = Some cat →
  ∃ pm1,
    toggleExam allExams rules t exam pm = Ret () pm1
    ∧ length (plan pm1) = S (length (plan pm))
    ∧ toggleExam allExams rules t exam pm1 = Ret () pm.
Proof.
  intros Hreach Hbc Hids Hnew Hcat.
  pose proof (reachable_fixed allExams rules t pm Hreach) as Hfix.
  destruct (addExam_removeExam_fixed allExams rules t pm exam cat None)
    as (q & Hadd & Hq & Hqe & Hrem); [done..|].
  assert (Hreach1 : reachable allExams rules t (withPlan (plan pm ++ [q]) pm)).
  { apply (reachable_call allExams rules t pm _ (CallAddExam exam None) Hreach).
    simpl. unfold bind. by rewrite Hadd. }
  assert (Hnone : list_find (λ p, examId p = Some (exam_id exam)) (plan pm)
                  = None).
  { apply list_find_None. by apply Forall_Exists_neg. }
  exists (withPlan (plan pm ++ [q]) pm). split; [|split].
  - unfold toggleExam. rewrite Hnone. unfold bind at 1. rewrite Hadd.
    apply validate_Ret; [|done].
    by destruct (reachable_balanced allExams rules t _ Hreach1).
  - simpl. rewrite length_app. simpl. lia.
  - unfold toggleExam. simpl plan.
    rewrite list_find_app_r by done. simpl.
    rewrite decide_True by done. simpl.
    rewrite Hq. unfold bind at 1. rewrite Hrem.
    apply validate_Ret; [|done].
    by destruct (reachable_balanced allExams rules t _ Hreach).
Qed.

(** [onMounted] on the engine it has just constructed returns when every
    saved entry sits in a table of the schema.  A saved state comes back
    exactly as it was saved: the plan is put in place as it is, without a
    pass over it.  Without a saved state the plan holds the default
    Mandatory entries. *)
Theorem onMounted_outcome (saved : option PlanManager) :
  (∀ c, Forall (λ rule, source rule = "BC" → c = F94) (programs rules c)) →
  (∀ parsed, saved = Some parsed →
     Forall (λ p, table p ∈ schema (curriculum parsed)) (plan parsed)) →
  onMounted allExams rules t saved
  = Ret () (match saved with
            | Some parsed => parsed
            | None => withPlan (mandatoryDefaults rules) constructor
            end).
Proof.
  intros Hbc Hsaved. unfold onMounted.
  destruct saved as [parsed|].
  - unfold restore, setYear, setCurriculum, migratePlan.
    unfold bind at 1. unfold bind at 1. unfold modify at 1. unfold bind at 1.
    unfold modify at 1. unfold bind at 1. unfold bind at 1. unfold gets.
    unfold bind at 1. unfold modify at 1. simpl.
    rewrite (rebalanceBuckets_mandatory_only allExams rules) by constructor.
    unfold modify. simpl.
    replace (withPlan (plan parsed) _) with parsed by (by destruct parsed).
    apply validate_Ret; [by apply Hsaved|apply Hbc].
  - unfold bind at 1, initDefaults, bind, modify. simpl.
    fold (mandatoryDefaults rules).
    rewrite (rebalanceBuckets_mandatory_only allExams rules
               (withPlan (mandatoryDefaults rules) constructor)).
    + apply validate_Ret; [|apply Hbc]. simpl.
      apply Forall_fmap, Forall_forall. intros ex _. simpl.
      apply elem_of_cons. by left.
    + simpl. apply Forall_fmap, Forall_forall. done.
Qed.

End Page.

(** * Worked instances *)

Lemma parkedPlan_reachable :
  reachable Sample.exams Sample.rules Sample.t parkedPlan.
Proof.
  apply (reachable_call _ _ _
           (withPlan [Sample.thesis; Sample.entry "e1" 6 "1";
                      Sample.entry "e2" 6 "1"] Sample.fresh)
           parkedPlan (CallAddExam (mkExam "e3" 6 "1|B|C") None));
    [|vm_compute; reflexivity].
  apply (reachable_call _ _ _
           (withPlan [Sample.thesis; Sample.entry "e1" 6 "1"] Sample.fresh)
           _ (CallAddExam (mkExam "e2" 6 "1|B") None));
    [|vm_compute; reflexivity].
  apply (reachable_call _ _ _ Sample.fresh
           _ (CallAddExam (mkExam "e1" 6 "1|A") None));
    [|vm_compute; reflexivity].
  apply (reachable_call _ _ _ constructor Sample.fresh CallInitDefaults);
    [apply reachable_new|vm_compute; reflexivity].
Defined.

Lemma sample_aggregate_F94_only (c : Curriculum) :
  Forall (λ rule, source rule = "BC" → c = F94) (programs Sample.rules c).
Proof. destruct c; repeat (constructor; [by intros ?|]); constructor. Defined.

Lemma reachable_wellPlaced_witness :
  Forall (wellPlaced Sample.exams (curriculum parkedPlan)) (plan parkedPlan)
  ∧ Forall (λ q, isCustom q = true → table q = "Obbligatori" ∨ parked q)
      (plan parkedPlan).
Proof.
  apply (reachable_wellPlaced Sample.exams Sample.rules Sample.t parkedPlan).
  apply parkedPlan_reachable.
Defined.

Lemma reachable_parked_only_when_full_witness :
  configuredMin (programs Sample.rules FBA) "1" ≤ creditsIn "1" (plan parkedPlan).
Proof.
  assert (Hcfu : Forall (λ p, 0 ≤ cfu p) (plan parkedPlan))
    by (repeat constructor; simpl; lia).
  assert (Hin : Sample.entry "e3" 6 "Facoltativi" ∈ plan parkedPlan)
    by (repeat constructor).
  destruct (reachable_parked_only_when_full Sample.exams Sample.rules Sample.t
              parkedPlan (Sample.entry "e3" 6 "Facoltativi")
              parkedPlan_reachable Hcfu Hin)
    as [_ Hfull].
  destruct (Hfull (or_introl eq_refl) eq_refl (mkExam "e3" 6 "1|B|C") "1")
    as [Hmin _].
  - vm_compute. reflexivity.
  - vm_compute. repeat constructor.
  - exact Hmin.
Defined.

Lemma reachable_is_fixed_point_witness :
  rebalanceBuckets Sample.exams Sample.rules parkedPlan = Ret () parkedPlan
  ∧ migratePlan Sample.exams Sample.rules parkedPlan = Ret () parkedPlan
  ∧ setCurriculum Sample.exams Sample.rules FBA parkedPlan = Ret () parkedPlan.
Proof.
  apply (reachable_is_fixed_point Sample.exams Sample.rules Sample.t parkedPlan).
  apply parkedPlan_reachable.
Defined.

Lemma setCurriculum_round_trip_witness :
  ∃ pm1,
    setCurriculum Sample.exams Sample.rules F94 parkedPlan = Ret () pm1
    ∧ curriculum pm1 = F94
    ∧ setCurriculum Sample.exams Sample.rules FBA pm1 = Ret () parkedPlan.
Proof.
  apply (setCurriculum_round_trip Sample.exams Sample.rules Sample.t F94
           parkedPlan).
  apply parkedPlan_reachable.
Defined.

Lemma addExam_appends_witness :
  addExam Sample.exams Sample.rules (mkExam "e4" 6 "2|C") None parkedPlan
  = Ret true (withPlan (plan parkedPlan ++ [Sample.entry "e4" 6 "2"]) parkedPlan).
Proof.
  apply (addExam_appends Sample.exams Sample.rules Sample.t parkedPlan
           (mkExam "e4" 6 "2|C") (mkExam "e4" 6 "2|C") None).
  - apply parkedPlan_reachable.
  - apply Forall_Exists_neg. repeat constructor; simpl; discriminate.
  - discriminate.
  - vm_compute. reflexivity.
Defined.

Lemma addCustomExam_appends_witness :
  addCustomExam Sample.exams Sample.rules "Seminar" 3 "2" "1700000000000"
    parkedPlan
  = Ret ()
      (withPlan
         (plan parkedPlan
          ++ [customEntry "Seminar" 3 "1700000000000" "Facoltativi"])
         parkedPlan).
Proof.
  apply (addCustomExam_appends Sample.exams Sample.rules Sample.t parkedPlan
           "Seminar" 3 "2" "1700000000000").
  - apply parkedPlan_reachable.
  - discriminate.
Defined.

Lemma addExam_removeExam_witness :
  ∃ pm1,
    addExam Sample.exams Sample.rules (mkExam "e4" 6 "2|C") None parkedPlan
    = Ret true pm1
    ∧ length (plan pm1) = 5%nat
    ∧ removeExam Sample.exams Sample.rules "e4" pm1 = Ret () parkedPlan.
Proof.
  apply (addExam_removeExam Sample.exams Sample.rules Sample.t parkedPlan
           (mkExam "e4" 6 "2|C") (mkExam "e4" 6 "2|C") None).
  - apply parkedPlan_reachable.
  - repeat constructor; simpl; discriminate.
  - apply Forall_Exists_neg. repeat constructor; simpl; discriminate.
  - discriminate.
  - vm_compute. reflexivity.
Defined.

Lemma moveExam_active_keeps_state_witness :
  ∃ r : bool,
    moveExam Sample.exams Sample.rules "e3" "2" parkedPlan = Ret r parkedPlan
    ∧ (r = false ↔
       isCustom (Sample.entry "e3" 6 "Facoltativi") = false
       ∧ "2" ≠ "Facoltativi" ∧ "2" ≠ "Fuori Piano"
       ∧ ∃ exam,
           findExam Sample.exams (examId (Sample.entry "e3" 6 "Facoltativi"))
           = Some exam
           ∧ "2" ∉ getAllowedTables (curriculum parkedPlan) exam).
Proof.
  apply (moveExam_active_keeps_state Sample.exams Sample.rules Sample.t
           parkedPlan "e3" "2" 3%nat (Sample.entry "e3" 6 "Facoltativi")).
  - apply parkedPlan_reachable.
  - vm_compute. reflexivity.
  - discriminate.
  - discriminate.
Defined.

Lemma moveExam_promotes_witness :
  ∃ pm',
    moveExam Sample.exams Sample.rules "e3" "Obbligatori" parkedPlan
    = Ret true pm'
    ∧ setTable "Obbligatori" (Sample.entry "e3" 6 "Facoltativi") ∈ plan pm'
    ∧ length (plan pm') = length (plan parkedPlan)
    ∧ removeExam Sample.exams Sample.rules "e3" pm' = Ret () pm'.
Proof.
  apply (moveExam_promotes Sample.exams Sample.rules Sample.t parkedPlan "e3"
           3%nat (Sample.entry "e3" 6 "Facoltativi")).
  - apply parkedPlan_reachable.
  - vm_compute. reflexivity.
Defined.

Lemma removeExam_outcome_witness :
  ∃ pm',
    removeExam Sample.exams Sample.rules "e1" parkedPlan = Ret () pm'
    ∧ (Exists (λ p, item_id p = "e1" ∧ table p = "Obbligatori") (plan parkedPlan) →
       pm' = parkedPlan)
    ∧ (¬ Exists (λ p, item_id p = "e1" ∧ table p = "Obbligatori")
           (plan parkedPlan) →
       mandatoryOf (plan pm') = mandatoryOf (plan parkedPlan)
       ∧ erase <$> activeOf (plan pm')
         = erase <$> filter (λ p, item_id p ≠ "e1") (activeOf (plan parkedPlan))
       ∧ Forall (λ p, item_id p ≠ "e1") (plan pm')).
Proof.
  apply (removeExam_outcome Sample.exams Sample.rules Sample.t parkedPlan "e1").
  apply parkedPlan_reachable.
Defined.

Lemma initDefaults_inserts_witness :
  initDefaults Sample.exams Sample.rules parkedPlan
  = Ret ()
      (withPlan
         (mandatoryOf (plan parkedPlan) ++ mandatoryDefaults Sample.rules
          ++ activeOf (plan parkedPlan))
         parkedPlan).
Proof.
  apply (initDefaults_inserts Sample.exams Sample.rules Sample.t parkedPlan).
  apply parkedPlan_reachable.
Defined.

Lemma unavailable_exam_message_witness :
  ∃ avail,
    JS.truthy (availability (examWith (Some "From 2026/2027"))) = Some avail
    ∧ getNextAvailabilityInfo Sample.t (inYear "2025/2026")
        (examWith (Some "From 2026/2027"))
      = Some (if decide (JS.toLowerCase avail = "disabled") then avail
              else if JS.startsWith "From " avail
              then Sample.t "available_from"
                     [("date", PStr (JS.replace "From " "" avail))]
              else if JS.includes "Even" avail
              then Sample.t "next_activation_even" []
              else Sample.t "next_activation_odd" []).
Proof.
  apply (unavailable_exam_message Sample.t (inYear "2025/2026")
           (examWith (Some "From 2026/2027"))).
  vm_compute. reflexivity.
Defined.

Lemma getAllowedTables_F94_order_free_witness :
  getAllowedTables F94 (mkExam "x" 6 "C|A")
  = getAllowedTables F94 (mkExam "y" 6 "A | C").
Proof.
  apply (getAllowedTables_F94_order_free (mkExam "x" 6 "C|A")
           (mkExam "y" 6 "A | C")).
  vm_compute. apply perm_swap.
Defined.

Lemma validate_accounts_every_credit_witness :
  ∃ report,
    validate Sample.rules Sample.t parkedPlan = Ret report parkedPlan
    ∧ totalCredits report + shown report "Fuori Piano" = sumCfu (plan parkedPlan)
    ∧ sumTables (schema (curriculum parkedPlan)) (shown report)
      = sumCfu (plan parkedPlan).
Proof.
  apply (validate_accounts_every_credit Sample.exams Sample.rules Sample.t
           parkedPlan).
  - apply parkedPlan_reachable.
  - apply sample_aggregate_F94_only.
Defined.

Lemma splitRow_rendered_witness :
  splitRow false "" []
    (Text.join ","
       (rendered <$> [(false, "Algorithms"); (true, "A, B"); (false, "")]))
  = ["Algorithms"; "A, B"; ""].
Proof.
  apply (splitRow_rendered [(false, "Algorithms"); (true, "A, B"); (false, "")]).
  - discriminate.
  - repeat constructor; simpl; try discriminate; intros; repeat split;
      discriminate.
Defined.

Lemma t_interpolates_witness :
  I18n.t {[ "total_cfu_status" := "Total: {current}/{min} CFU" ]}
    "total_cfu_status" [("current", PNum 114); ("min", PNum 120)]
  = I18n.templateText
      (I18n.fill [("current", PNum 114); ("min", PNum 120)]
         [I18n.Lit "Total: "; I18n.Hole "current"; I18n.Lit "/";
          I18n.Hole "min"; I18n.Lit " CFU"]).
Proof.
  apply (t_interpolates
           {[ "total_cfu_status" := "Total: {current}/{min} CFU" ]}
           "total_cfu_status"
           [I18n.Lit "Total: "; I18n.Hole "current"; I18n.Lit "/";
            I18n.Hole "min"; I18n.Lit " CFU"]
           [("current", PNum 114); ("min", PNum 120)]).
  - vm_compute. reflexivity.
  - repeat constructor; simpl; repeat split; discriminate.
  - repeat constructor; simpl; repeat split; discriminate.
Defined.

Lemma toggleExam_twice_witness :
  ∃ pm1,
    toggleExam Sample.exams Sample.rules Sample.t (mkExam "e4" 6 "2|C")
      parkedPlan
    = Ret () pm1
    ∧ length (plan pm1) = 5%nat
    ∧ toggleExam Sample.exams Sample.rules Sample.t (mkExam "e4" 6 "2|C") pm1
      = Ret () parkedPlan.
Proof.
  apply (toggleExam_twice Sample.exams Sample.rules Sample.t parkedPlan
           (mkExam "e4" 6 "2|C") (mkExam "e4" 6 "2|C")).
  - apply parkedPlan_reachable.
  - apply sample_aggregate_F94_only.
  - repeat constructor; simpl; discriminate.
  - apply Forall_Exists_neg. repeat constructor; simpl; discriminate.
  - vm_compute. reflexivity.
Defined.

Lemma onMounted_outcome_witness :
  onMounted Sample.exams Sample.rules Sample.t (Some unbalanced)
  = Ret () unbalanced.
Proof.
  apply (onMounted_outcome Sample.exams Sample.rules Sample.t (Some unbalanced)).
  - apply sample_aggregate_F94_only.
  - intros parsed [= <-]. by apply (bool_decide_unpack _).
Defined.

Lemma overfull_reachable :
  reachable Sample.exams Sample.rules Sample.t overfull.
Proof.
  apply (reachable_call _ _ _
           (withPlan (plan parkedPlan
                      ++ [customEntry "Seminar" 6 "1700000000000" "Facoltativi"])
              Sample.fresh)
           overfull
           (CallAddCustomExam "Workshop" 3 "Facoltativi" "1700000000001"));
    [|vm_compute; reflexivity].
  apply (reachable_call _ _ _ parkedPlan _
           (CallAddCustomExam "Seminar" 6 "Facoltativi" "1700000000000"));
    [|vm_compute; reflexivity].
  apply parkedPlan_reachable.
Defined.

Lemma validate_reachable_witness :
  ∃ report,
    validate Sample.rules Sample.t overfull = Ret report overfull
    ∧ totalCredits report = 36
    ∧ current <$> tables report !! "Fuori Piano" = Some 3
    ∧ current <$> tables report !! "Facoltativi" = Some 12
    ∧ messages report = ["table_missing_cfu"; "total_cfu_status"]
    ∧ isValid report = false.
Proof.
  destruct (validate_reachable Sample.exams Sample.rules Sample.t overfull)
    as (report & obb & Hrun & Htotal & Hcur & Hobb & Hmin & Hmsg & Hvalid).
  - apply overfull_reachable.
  - repeat constructor; discriminate.
  - assert (Hcurrent : current obb = 12).
    { pose proof (Hcur "Obbligatori" ltac:(repeat constructor)) as H.
      rewrite Hobb in H. by injection H. }
    assert (Hminimum : min obb = 12).
    { rewrite Hmin; [reflexivity|]. repeat constructor; discriminate. }
    exists report. split; [exact Hrun|].
    split; [rewrite Htotal; reflexivity|].
    split; [apply Hcur; repeat constructor|].
    split; [apply Hcur; repeat constructor|].
    rewrite Hmsg, Hvalid, Hcurrent, Hminimum. split; reflexivity.
Defined.

Lemma rebalanceBuckets_greedy_pass_witness :
  (¬ ∃ pm', rebalanceBuckets Sample.exams Sample.rules
              (withPlan [Sample.entry "ghost" 6 "1"] Sample.fresh)
            = Ret () pm')
  ∧ (∃ placed,
       plan rebalanced = mandatoryOf (plan scrambled) ++ placed
       ∧ length placed = length (activeOf (plan scrambled))
       ∧ ∀ i p q,
           activeOf (plan scrambled) !! i = Some p → placed !! i = Some q →
           sameEntry p q
           ∧ ∃ allowed,
               allowedFor Sample.exams F94 p allowed
               ∧ table q
                 = chosenTable (programs Sample.rules F94) 12 (take i placed)
                     allowed)
  ∧ addExam Sample.exams Sample.rules (mkExam "bc6" 6 "C|B")
      (Some "Fuori Piano") Sample.f94
    = Ret true
        (withPlan (plan Sample.f94 ++ [Sample.entry "bc6" 6 "B"]) Sample.f94).
Proof.
  destruct (rebalanceBuckets_greedy_pass Sample.exams Sample.rules)
    as (Hreturns & Hpass & Haggregate).
  split; [|split].
  - intros Hrun. apply Hreturns in Hrun.
    apply Forall_cons in Hrun as [Hghost _].
    destruct (Hghost ltac:(discriminate) eq_refl) as [exam Hexam].
    discriminate Hexam.
  - destruct (Hpass scrambled rebalanced) as (_ & _ & Hplaced).
    + vm_compute. reflexivity.
    + exact Hplaced.
  - apply (Haggregate Sample.f94 (mkExam "bc6" 6 "C|B") (Some "Fuori Piano")).
    + vm_compute. reflexivity.
    + apply (proj1 (bool_decide_eq_false _)). vm_compute. reflexivity.
    + reflexivity.
    + vm_compute. reflexivity.
    + discriminate.
    + vm_compute. discriminate.
    + vm_compute. discriminate.
    + vm_compute. reflexivity.
Defined.
